(** * ChestXray-AI-Diagnostics: the inference engine and its preprocessing

    A shallow embedding of [backend/preprocessing.py] and
    [backend/inference.py] (with [get_model] of [backend/models.py]), and the
    properties of the specification proved over it.

    Conventions of the embedding.
    - A Python exception is a value [exn] (class and [str(e)]); a computation
      that may raise returns a [result].
    - The floats of [letterbox] are binary64 numbers: every division and
      product is the exact rational rounded to nearest, ties to even, as
      CPython computes it.  Pixel values, pixel / 255 and wall clock
      differences are exact rationals ([Q]); the sigmoid is taken over the
      real numbers ([R]).
    - OpenCV, NumPy, torch and the file system are not part of the
      repository.  What the code asks of them is an explicit interface
      ([cv2_api], [Env]); what the proofs need from them is an explicit
      contract ([cv2_contract]).
    - [print] calls are not modelled. *)

From Stdlib Require Import ZArith QArith Qabs Qpower SpecFloat Reals Lra Lia Ascii String
  List Bool.
From stdpp Require Import gmap strings list fin_maps.
Import ListNotations.

Set Warnings "-register-all".

Open Scope string_scope.
Open Scope Z_scope.

(** ** Python layer *)

Inductive exn_class :=
| ValueError
| FileNotFoundError
| RuntimeError
| KeyError
| ZeroDivisionError
| OverflowError
| OtherError.

Record exn := mkExn { exn_cls : exn_class; exn_str : string }.

Inductive result (A : Type) :=
| Ok (a : A)
| Raise (e : exn).

Arguments Ok {A} a.
Arguments Raise {A} e.

Definition exn_class_eqb (a b : exn_class) : bool :=
  match a, b with
  | ValueError, ValueError
  | FileNotFoundError, FileNotFoundError
  | RuntimeError, RuntimeError
  | KeyError, KeyError
  | ZeroDivisionError, ZeroDivisionError
  | OverflowError, OverflowError
  | OtherError, OtherError => true
  | _, _ => false
  end.

(** [except (C1, ..., Cn)]: does the clause catch [e]? *)
Definition except_matches (classes : list exn_class) (e : exn) : bool :=
  existsb (exn_class_eqb (exn_cls e)) classes.

(** [repr] of a string without quotes or escapes (all registry keys), and of
    a list of such strings: [str(['a', 'b'])] is ['a', 'b']. *)
Definition py_repr_str (s : string) : string := "'" ++ s ++ "'".

Definition py_repr_list (l : list string) : string :=
  "[" ++ String.concat ", " (map py_repr_str l) ++ "]".

(** A dict whose key order is observable ([list(d.keys())] is printed in
    error messages): an association list in insertion order. *)
Section Dict.
Context {V : Type}.

Fixpoint dict_get (d : list (string * V)) (k : string) : option V :=
  match d with
  | [] => None
  | (k', v) :: d' => if String.eqb k k' then Some v else dict_get d' k
  end.

Definition dict_mem (d : list (string * V)) (k : string) : bool :=
  match dict_get d k with Some _ => true | None => false end.

Definition dict_keys (d : list (string * V)) : list string := map fst d.
End Dict.

(** [x in l] for a list of strings. *)
Definition list_mem (x : string) (l : list string) : bool :=
  existsb (String.eqb x) l.

(** The integer nearest to [n/d], a half going to the even one. *)
Definition round_half_even (n d : Z) : Z :=
  let q := n / d in
  let r := n mod d in
  if 2 * r <? d then q
  else if d <? 2 * r then q + 1
  else if Z.even q then q else q + 1.

(** Python's [round] on a finite float. *)
Definition py_round (x : Q) : Z := round_half_even (Qnum x) (Zpos (Qden x)).

(** *** Floats

    A Python float is an IEEE 754 binary64 number: 53 bits of mantissa, the
    last one worth [2 ^ (-1074)] at least, and an infinity from [2 ^ 1024]
    on.  A finite float is given by its value, a rational. *)

(** [floor (log2 |x|)] of a rational other than zero. *)
Definition Qlog2 (x : Q) : Z :=
  let e := Z.log2 (Z.abs (Qnum x)) - Z.log2 (Zpos (Qden x)) in
  if Qle_bool (2 ^ e) (Qabs x) then e else e - 1.

(** The exponent of the last mantissa bit of the binary64 numbers around
    [x]; [-1074] throughout the subnormal range. *)
Definition b64_exp (x : Q) : Z := Z.max (Qlog2 x - 52) (-1074).

(** Rounding to nearest, ties to even: the multiple of [2 ^ b64_exp x]
    nearest to [x], a half going to the even multiple. *)
Definition b64_nearest (x : Q) : Q :=
  let e := b64_exp x in (inject_Z (py_round (x / 2 ^ e)) * 2 ^ e)%Q.

(** A float other than a NaN (this code produces none): finite, or an
    infinity of either sign. *)
Inductive float :=
| Finite (x : Q)
| Infinity.

(** The float an exact result is rounded to. *)
Definition b64 (x : Q) : float :=
  let y := b64_nearest x in
  if Qle_bool (2 ^ 1024) (Qabs y) then Infinity else Finite y.

(** [a / b] on two ints: the correctly rounded quotient. *)
Definition int_truediv (a b : Z) : result Q :=
  if b =? 0 then Raise (mkExn ZeroDivisionError "division by zero")
  else
    match b64 (inject_Z a / inject_Z b) with
    | Finite x => Ok x
    | Infinity =>
      Raise (mkExn OverflowError "integer division result too large for a float")
    end.

(** [float(n)], the conversion an int undergoes in [n * x]. *)
Definition float_of_int (n : Z) : result Q :=
  match b64 (inject_Z n) with
  | Finite x => Ok x
  | Infinity => Raise (mkExn OverflowError "int too large to convert to float")
  end.

(** [x * y] on two finite floats. *)
Definition float_mul (x y : Q) : float := b64 (x * y).

(** [round(x)] on a float. *)
Definition float_round (x : float) : result Z :=
  match x with
  | Finite y => Ok (py_round y)
  | Infinity =>
    Raise (mkExn OverflowError "cannot convert float infinity to integer")
  end.

(** ** preprocessing.py *)

Inductive np_dtype := uint8 | uint16 | float32.

Definition np_dtype_eqb (a b : np_dtype) : bool :=
  match a, b with
  | uint8, uint8 | uint16, uint16 | float32, float32 => true
  | _, _ => false
  end.

(** An [ndarray]: element type, shape, and the element at a multi-index. *)
Record ndarray := mkArr {
  dtype : np_dtype;
  shape : list Z;
  item : list Z -> Q
}.

Definition ndim (a : ndarray) : Z := Z.of_nat (length (shape a)).

(** A [torch.Tensor] of float32. *)
Record tensor := mkTensor {
  tshape : list Z;
  titem : list Z -> Q
}.

Inductive interpolation := INTER_AREA | INTER_CUBIC.

(** The OpenCV entry points whose results depend on pixel arithmetic of the
    library: decoding, min-max normalisation, the luma of one RGB pixel, and
    resizing. *)
Record cv2_api := mkCv2 {
  imread : string -> option ndarray;
  imdecode : list Byte.byte -> option ndarray;
  normalize_minmax : ndarray -> ndarray;
  luma : Q -> Q -> Q -> Q;
  resize : ndarray -> Z * Z -> interpolation -> ndarray
}.

(** [cv2.cvtColor(img, cv2.COLOR_BGR2RGB)]: channels 0 and 2 swapped. *)
Definition cvtColor_BGR2RGB (img : ndarray) : ndarray :=
  mkArr (dtype img) (shape img)
    (fun idx => match idx with
                | [i; j; c] => item img [i; j; 2 - c]
                | _ => item img idx
                end).

(** [cv2.cvtColor(img, cv2.COLOR_RGB2GRAY)]: one luma value per pixel. *)
Definition cvtColor_RGB2GRAY (cv : cv2_api) (img : ndarray) : ndarray :=
  mkArr (dtype img) (firstn 2 (shape img))
    (fun idx => match idx with
                | [i; j] => luma cv (item img [i; j; 0]) (item img [i; j; 1])
                              (item img [i; j; 2])
                | _ => 0%Q
                end).

(** [cv2.borderInterpolate(p, len, cv2.BORDER_REFLECT_101)]: mirror about the
    first and the last pixel, the edge pixel itself not repeated. *)
Definition reflect_101 (p len : Z) : Z :=
  if len <=? 1 then 0
  else
    let period := 2 * (len - 1) in
    let q := p mod period in
    if q <? len then q else period - q.

(** [cv2.copyMakeBorder(src, top, bottom, left, right, BORDER_REFLECT_101)]
    on a 2-D array; a negative border is an OpenCV error. *)
Definition copyMakeBorder_reflect_101
    (src : ndarray) (top bottom left right : Z) : result ndarray :=
  if (top <? 0) || (bottom <? 0) || (left <? 0) || (right <? 0) then
    Raise (mkExn OtherError "cv2.error: top >= 0 && bottom >= 0 && left >= 0 && right >= 0")
  else
    let rows := nth 0 (shape src) 0 in
    let cols := nth 1 (shape src) 0 in
    Ok (mkArr (dtype src) [rows + top + bottom; cols + left + right]
          (fun idx => match idx with
                      | [i; j] => item src [reflect_101 (i - top) rows;
                                            reflect_101 (j - left) cols]
                      | _ => 0%Q
                      end)).

(** The integers [letterbox] computes before it touches a pixel. *)
Record letterbox_geometry := mkGeom {
  g_scale : Q;
  g_new_w : Z; g_new_h : Z;
  g_top : Z; g_bottom : Z; g_left : Z; g_right : Z
}.

(** [max(1, int(round(x * scale)))] *)
Definition scaled_side (x : Z) (scale : Q) : result Z :=
  match float_of_int x with
  | Raise e => Raise e
  | Ok xf =>
    match float_round (float_mul xf scale) with
    | Raise e => Raise e
    | Ok r => Ok (Z.max 1 r)
    end
  end.

(** Lines 10-12 and 19-21. *)
Definition letterbox_dims (h w size : Z) : result letterbox_geometry :=
  match int_truediv size (Z.max h w) with
  | Raise e => Raise e
  | Ok scale =>
    match scaled_side w scale with
    | Raise e => Raise e
    | Ok new_w =>
      match scaled_side h scale with
      | Raise e => Raise e
      | Ok new_h =>
        let pad_w := size - new_w in
        let pad_h := size - new_h in
        Ok (mkGeom scale new_w new_h
              (pad_h / 2) (pad_h - pad_h / 2) (pad_w / 2) (pad_w - pad_w / 2))
      end
    end
  end.

Definition letterbox (cv : cv2_api) (gray : ndarray) (size : Z)
    (pad_mode : string) : result ndarray :=
  match shape gray with
  | h :: w :: _ =>
    match letterbox_dims h w size with
    | Raise e => Raise e
    | Ok g =>
      let interp := if Qlt_le_dec (g_scale g) 1 then INTER_AREA else INTER_CUBIC in
      let resized := resize cv gray (g_new_w g, g_new_h g) interp in
      if String.eqb pad_mode "reflect" then
        copyMakeBorder_reflect_101 resized
          (g_top g) (g_bottom g) (g_left g) (g_right g)
      else Raise (mkExn ValueError "pad_mode must be 'reflect'")
    end
  | _ => Raise (mkExn ValueError "not enough values to unpack (expected 2)")
  end.

Definition shape_error : exn := mkExn ValueError "Image must be H×W or H×W×3".

(** Lines 46-53 and 86-93, the same statement in both entry points. *)
Definition to_grayscale (cv : cv2_api) (img : ndarray) : result ndarray :=
  if (ndim img =? 3) && (nth 2 (shape img) 0 =? 3) then
    let img_rgb := cvtColor_BGR2RGB img in
    Ok (cvtColor_RGB2GRAY cv img_rgb)
  else if ndim img =? 2 then Ok img
  else Raise shape_error.

(** [if img.dtype != np.uint8: img = cv2.normalize(...).astype(np.uint8)] *)
Definition to_uint8 (cv : cv2_api) (img : ndarray) : ndarray :=
  if np_dtype_eqb (dtype img) uint8 then img else normalize_minmax cv img.

(** [np.stack([a] * 3, axis=2)] for a 2-D [a]. *)
Definition np_stack3_axis2 (a : ndarray) : ndarray :=
  mkArr (dtype a) (shape a ++ [3])
    (fun idx => match idx with
                | [i; j; _] => item a [i; j]
                | _ => 0%Q
                end).

(** [(rgb.astype(np.float32) / 255.0).transpose(2, 0, 1).copy()] *)
Definition scale_and_transpose (rgb : ndarray) : ndarray :=
  mkArr float32
    (match shape rgb with
     | [a; b; c] => [c; a; b]
     | s => s
     end)
    (fun idx => match idx with
                | [c; i; j] => (item rgb [i; j; c] / 255)%Q
                | _ => 0%Q
                end).

(** [torch.from_numpy(rgb).unsqueeze(0)] *)
Definition from_numpy_unsqueeze0 (rgb : ndarray) : tensor :=
  mkTensor (1 :: shape rgb)
    (fun idx => match idx with
                | _ :: rest => item rgb rest
                | [] => 0%Q
                end).

(** The common tail of both entry points, from the decoded image on. *)
Definition preprocess_decoded (cv : cv2_api) (img : ndarray) (size : Z)
    (pad_mode : string) : result tensor :=
  let img := to_uint8 cv img in
  match to_grayscale cv img with
  | Raise e => Raise e
  | Ok gray =>
    match letterbox cv gray size pad_mode with
    | Raise e => Raise e
    | Ok padded_gray =>
      let rgb := np_stack3_axis2 padded_gray in
      let rgb := scale_and_transpose rgb in
      Ok (from_numpy_unsqueeze0 rgb)
    end
  end.

Definition preprocess_image (cv : cv2_api) (image_path : string) (size : Z)
    (pad_mode : string) : result tensor :=
  match imread cv image_path with
  | None => Raise (mkExn FileNotFoundError ("Cannot read image: " ++ image_path))
  | Some img => preprocess_decoded cv img size pad_mode
  end.

Definition preprocess_image_from_bytes (cv : cv2_api)
    (image_bytes : list Byte.byte) (size : Z) (pad_mode : string) : result tensor :=
  match imdecode cv image_bytes with
  | None => Raise (mkExn ValueError "Cannot decode image from bytes")
  | Some img => preprocess_decoded cv img size pad_mode
  end.

(** ** models.py *)

Inductive architecture :=
| DenseNet121MultiLabel
| EfficientNetB2MultiLabel
| RegNetY800MFMultiLabel
| EfficientFormerV2S2MultiLabel
| MobileViTSMultiLabel.

(** The keys of [models_dict] in [get_model], with the class each lambda
    instantiates. *)
Definition models_dict : list (string * architecture) :=
  [ ("densenet121", DenseNet121MultiLabel);
    ("efficientnet-b2", EfficientNetB2MultiLabel);
    ("regnety-800mf", RegNetY800MFMultiLabel);
    ("efficientformerv2-s2", EfficientFormerV2S2MultiLabel);
    ("mobilevit-s", MobileViTSMultiLabel) ].

(** A deserialised Python object as far as [load_model] inspects it: a dict
    with string keys, or anything else. *)
Inductive pyobj :=
| PyDict (items : list (string * pyobj))
| PyOpaque (tag : nat).

(** An [nn.Module] instance.  [obj_id] is the identity of the Python object
    ([is]); the other fields are what the engine changes on it. *)
Record module := mkModule {
  obj_id : nat;
  arch : architecture;
  m_num_classes : Z;
  m_dropout : Q;
  m_img_size : option Z;
  m_state : option pyobj;
  m_device : string;
  training : bool
}.

Definition Path := list string.
Definition path_div (p : Path) (s : string) : Path := (p ++ [s])%list.
Definition path_str (p : Path) : string := String.concat "/" p.

(** What one call observes of torch, the file system and the clock.
    [forward] is [model(image_tensor)], under autocast when its flag is set;
    it returns row 0 of the logits, the row [predict] keeps.  [time_start]
    and [time_end] are the two readings of [time.time()] by [predict]. *)
Record Env := mkEnv {
  cv : cv2_api;
  path_exists : Path -> bool;
  torch_load : Path -> string -> result pyobj;
  nn_construct : architecture -> option exn;
  load_state_dict : module -> pyobj -> option exn;
  module_to : module -> string -> option exn;
  tensor_to : tensor -> string -> option exn;
  forward : module -> tensor -> bool -> result (list R);
  cuda_is_available : bool;
  time_start : Q;
  time_end : Q
}.

(** ** inference.py *)

Record config_settings := mkConfig {
  cfg_image_size : Z;
  cfg_learning_rate : Q;
  cfg_loss : string;
  cfg_type : string
}.

Definition CONFIG_SETTINGS : list (string * config_settings) :=
  [ ("config1", mkConfig 224 (1 # 10000) "focal" "CNN");
    ("config2", mkConfig 320 (3 # 10000) "focal" "CNN");
    ("config3", mkConfig 224 (1 # 10000) "focal" "CNN-Transformer");
    ("config4", mkConfig 224 (1 # 10000) "asymmetric" "CNN+CNN-Transformer") ].

Definition MODEL_FILENAME_MAP : list (string * string) :=
  [ ("densenet121", "densenet121.pth");
    ("efficientnet-b2", "efficientnet-b2.pth");
    ("regnety-800mf", "regnety-800mf.pth");
    ("efficientformerv2-s2", "efficientformerv2-s2.pth");
    ("mobilevit-s", "mobilevit-s.pth") ].

Definition MODEL_CONFIG_COMPATIBILITY : list (string * list string) :=
  [ ("densenet121", ["config1"; "config2"; "config4"]);
    ("efficientnet-b2", ["config1"; "config2"; "config4"]);
    ("regnety-800mf", ["config1"; "config2"; "config4"]);
    ("efficientformerv2-s2", ["config3"; "config4"]);
    ("mobilevit-s", ["config3"; "config4"]) ].

(** The attributes of a [ModelInference] instance. *)
Record ModelInference := mkEngine {
  models_dir : Path;
  device : string;
  num_classes : Z;
  dropout : Q;
  loaded_models : gmap string module
}.

(** Accesses to weight storage, oldest first. *)
Inductive storage_event :=
| EvExists (p : Path)
| EvTorchLoad (p : Path).

(** The state a method runs in: the instance, the next fresh object
    identity, and the storage accesses made so far. *)
Record state := mkState {
  self : ModelInference;
  next_obj : nat;
  storage_log : list storage_event
}.

Definition M (A : Type) : Type := state -> state * result A.

Definition ret {A} (a : A) : M A := fun st => (st, Ok a).
Definition raise {A} (c : exn_class) (msg : string) : M A :=
  fun st => (st, Raise (mkExn c msg)).
Definition lift {A} (r : result A) : M A := fun st => (st, r).
Definition bind {A B} (m : M A) (k : A -> M B) : M B :=
  fun st => match m st with
            | (st', Ok a) => k a st'
            | (st', Raise e) => (st', Raise e)
            end.
Definition get_self : M ModelInference := fun st => (st, Ok (self st)).
Definition log_storage (ev : storage_event) : M unit :=
  fun st => (mkState (self st) (next_obj st) (storage_log st ++ [ev])%list, Ok tt).
Definition fresh_obj : M nat :=
  fun st => (mkState (self st) (S (next_obj st)) (storage_log st), Ok (next_obj st)).
Definition cache_insert (k : string) (m : module) : M unit :=
  fun st =>
    let s := self st in
    (mkState (mkEngine (models_dir s) (device s) (num_classes s) (dropout s)
                (<[k := m]> (loaded_models s)))
       (next_obj st) (storage_log st), Ok tt).
Definition of_failure (o : option exn) : M unit :=
  fun st => match o with Some e => (st, Raise e) | None => (st, Ok tt) end.

Notation "x <~ m ;; k" := (bind m (fun x => k))
  (at level 100, m at next level, right associativity).
Notation "m ;;; k" := (bind m (fun _ => k))
  (at level 100, right associativity).

Definition nl : string := String (Ascii.ascii_of_nat 10) "".

(** [d[k]] *)
Definition dict_index {V} (d : list (string * V)) (k : string) : result V :=
  match dict_get d k with
  | Some v => Ok v
  | None => Raise (mkExn KeyError (py_repr_str k))
  end.

(** [ModelInference.__init__] *)
Definition init (env : Env) (dir : Path) (dev : option string)
    (ncls : Z) (drop : Q) : state :=
  let d := match dev with
           | Some (String a s) => String a s
           | _ => if cuda_is_available env then "cuda" else "cpu"
           end in
  mkState (mkEngine dir d ncls drop ∅) 0 [].

Definition get_model_path (env : Env) (model_name config : string) : M Path :=
  if negb (dict_mem CONFIG_SETTINGS config) then
    raise ValueError ("Config '" ++ config ++ "' not recognized. Available: "
                      ++ py_repr_list (dict_keys CONFIG_SETTINGS))
  else if negb (dict_mem MODEL_FILENAME_MAP model_name) then
    raise ValueError ("Model '" ++ model_name ++ "' not recognized. Available: "
                      ++ py_repr_list (dict_keys MODEL_FILENAME_MAP))
  else
    filename <~ lift (dict_index MODEL_FILENAME_MAP model_name) ;;
    s <~ get_self ;;
    let model_path := path_div (path_div (models_dir s) config) filename in
    log_storage (EvExists model_path) ;;;
    if negb (path_exists env model_path) then
      raise FileNotFoundError
        ("Model file not found: " ++ path_str model_path ++ nl ++
         "Please ensure the model is trained and saved in the correct location.")
    else ret model_path.

Definition check_compatibility (model_name config : string) : result bool :=
  if negb (dict_mem MODEL_CONFIG_COMPATIBILITY model_name) then Ok false
  else
    match dict_index MODEL_CONFIG_COMPATIBILITY model_name with
    | Ok configs => Ok (list_mem config configs)
    | Raise e => Raise e
    end.

(** [get_model] of models.py.  The constructors call torchvision and timm,
    which may fail ([nn_construct]); a new module is on the CPU and in
    training mode. *)
Definition get_model (env : Env) (model_name : string) (ncls : Z) (drop : Q)
    (img_size : Z) : M module :=
  if negb (dict_mem models_dict model_name) then
    raise ValueError ("Model '" ++ model_name ++ "' not supported. Available: "
                      ++ py_repr_list (dict_keys models_dict))
  else
    a <~ lift (dict_index models_dict model_name) ;;
    of_failure (nn_construct env a) ;;;
    id <~ fresh_obj ;;
    ret (mkModule id a ncls drop
           (match a with
            | EfficientFormerV2S2MultiLabel => Some img_size
            | _ => None
            end)
           None "cpu" true).

(** [model.load_state_dict(sd)]: torch checks keys and shapes, then the
    module holds [sd]. *)
Definition nn_load_state_dict (env : Env) (model : module) (sd : pyobj) : M module :=
  of_failure (load_state_dict env model sd) ;;;
  ret (mkModule (obj_id model) (arch model) (m_num_classes model)
         (m_dropout model) (m_img_size model) (Some sd)
         (m_device model) (training model)).

(** Lines 125-140 of [load_model]: the checkpoint formats. *)
Definition apply_checkpoint (env : Env) (model : module) (checkpoint : pyobj)
    : M module :=
  match checkpoint with
  | PyDict items =>
    if dict_mem items "model_state_dict" then
      sd <~ lift (dict_index items "model_state_dict") ;;
      nn_load_state_dict env model sd
    else if dict_mem items "state_dict" then
      sd <~ lift (dict_index items "state_dict") ;;
      nn_load_state_dict env model sd
    else nn_load_state_dict env model checkpoint
  | _ => nn_load_state_dict env model checkpoint
  end.

Definition cache_key (model_name config : string) : string :=
  model_name ++ "_" ++ config.

Definition incompatible_message (model_name config : string)
    (compatible_configs : list string) : string :=
  "Model '" ++ model_name ++ "' is not compatible with '" ++ config ++ "'." ++ nl ++
  "Compatible configs for " ++ model_name ++ ": "
    ++ py_repr_list compatible_configs ++ nl ++
  "Config types:" ++ nl ++
  "  - config1: CNN models, 224x224, Focal Loss" ++ nl ++
  "  - config2: CNN models, 320x320, Focal Loss" ++ nl ++
  "  - config3: CNN-Transformer models, 224x224, Focal Loss" ++ nl ++
  "  - config4: All models, 224x224, Asymmetric Loss".

Definition load_model (env : Env) (model_name config : string) : M module :=
  s <~ get_self ;;
  match loaded_models s !! cache_key model_name config with
  | Some model => ret model
  | None =>
    if negb (dict_mem CONFIG_SETTINGS config) then
      raise ValueError ("Invalid config '" ++ config ++ "'. Available: "
                        ++ py_repr_list (dict_keys CONFIG_SETTINGS))
    else if negb (dict_mem MODEL_FILENAME_MAP model_name) then
      raise ValueError ("Invalid model '" ++ model_name ++ "'. Available: "
                        ++ py_repr_list (dict_keys MODEL_FILENAME_MAP))
    else
      compatible <~ lift (check_compatibility model_name config) ;;
      if negb compatible then
        let compatible_configs :=
          match dict_get MODEL_CONFIG_COMPATIBILITY model_name with
          | Some l => l
          | None => []
          end in
        raise ValueError (incompatible_message model_name config compatible_configs)
      else
        model_path <~ get_model_path env model_name config ;;
        cfg <~ lift (dict_index CONFIG_SETTINGS config) ;;
        let img_size := cfg_image_size cfg in
        model <~ get_model env model_name (num_classes s) (dropout s) img_size ;;
        log_storage (EvTorchLoad model_path) ;;;
        checkpoint <~ lift (torch_load env model_path (device s)) ;;
        model <~ apply_checkpoint env model checkpoint ;;
        of_failure (module_to env model (device s)) ;;;
        let model := mkModule (obj_id model) (arch model) (m_num_classes model)
                       (m_dropout model) (m_img_size model) (m_state model)
                       (device s) false in
        cache_insert (cache_key model_name config) model ;;;
        ret model
  end.

Inductive image_input :=
| ImagePath (p : string)
| ImageBytes (b : list Byte.byte).

(** The body of the second [try] of [predict]: a path goes to
    [preprocess_image], anything else is taken for bytes. *)
Definition preprocess_input (cv : cv2_api) (input : image_input) (img_size : Z)
    : result tensor :=
  match input with
  | ImagePath p => preprocess_image cv p img_size "reflect"
  | ImageBytes b => preprocess_image_from_bytes cv b img_size "reflect"
  end.

(** The dict [predict] returns; [error] is absent on success. *)
Record prediction := mkPrediction {
  success : bool;
  error : option string;
  results : list (string * R);
  processing_time : Q;
  p_model_name : string;
  p_config : string;
  p_image_size : Z;
  p_device : string
}.

Definition sigmoid (x : R) : R := (1 / (1 + exp (- x)))%R.

(** [try: x = m] with the exception, if any, handed to the handler. *)
Definition try_ {A} (m : M A) : M (result A) :=
  fun st => let '(st', r) := m st in (st', Ok r).

Definition predict (env : Env) (input : image_input) (model_name config : string)
    (diseases : list string) : M prediction :=
  let start_time := time_start env in
  s <~ get_self ;;
  loaded <~ try_ (load_model env model_name config) ;;
  match loaded with
  | Raise e =>
    if except_matches [ValueError; FileNotFoundError] e then
      ret (mkPrediction false (Some (exn_str e)) [] 0 model_name config
             (match dict_get CONFIG_SETTINGS config with
              | Some c => cfg_image_size c
              | None => 0
              end)
             (device s))
    else lift (Raise e)
  | Ok model =>
    cfg <~ lift (dict_index CONFIG_SETTINGS config) ;;
    let img_size := cfg_image_size cfg in
    match preprocess_input (cv env) input img_size with
    | Raise e =>
      ret (mkPrediction false (Some ("Image preprocessing failed: " ++ exn_str e))
             [] (time_end env - start_time)%Q model_name config img_size (device s))
    | Ok image_tensor =>
      of_failure (tensor_to env image_tensor (device s)) ;;;
      match forward env model image_tensor (String.eqb (device s) "cuda") with
      | Raise e =>
        ret (mkPrediction false (Some ("Model inference failed: " ++ exn_str e))
               [] (time_end env - start_time)%Q model_name config img_size (device s))
      | Ok logits =>
        let probs := map sigmoid logits in
        let results := combine diseases probs in
        ret (mkPrediction true None results (time_end env - start_time)%Q
               model_name config img_size (device s))
      end
    end
  end.

Definition clear_cache (env : Env) : M unit :=
  fun st =>
    let s := self st in
    (mkState (mkEngine (models_dir s) (device s) (num_classes s) (dropout s) ∅)
       (next_obj st) (storage_log st), Ok tt).

(** The calls a client of the engine makes, and the states they lead to. *)
Inductive call :=
| CallLoad (env : Env) (model_name config : string)
| CallPredict (env : Env) (input : image_input) (model_name config : string)
    (diseases : list string)
| CallPath (env : Env) (model_name config : string)
| CallClear (env : Env).

Definition run_call (c : call) (st : state) : state :=
  match c with
  | CallLoad env m cfg => fst (load_model env m cfg st)
  | CallPredict env i m cfg ds => fst (predict env i m cfg ds st)
  | CallPath env m cfg => fst (get_model_path env m cfg st)
  | CallClear env => fst (clear_cache env st)
  end.

Definition run (calls : list call) (st : state) : state :=
  fold_left (fun s c => run_call c s) calls st.

Definition is_clear (c : call) : bool :=
  match c with CallClear _ => true | _ => false end.

Definition reachable (st : state) : Prop :=
  exists env dir dev ncls drop calls, st = run calls (init env dir dev ncls drop).

(** How often the weight file at [p] was read. *)
Fixpoint reads_of (p : Path) (log : list storage_event) : nat :=
  match log with
  | [] => 0
  | EvTorchLoad q :: log' =>
    ((if bool_decide (q = p) then 1 else 0) + reads_of p log')%nat
  | EvExists _ :: log' => reads_of p log'
  end.

(** ** What the proofs assume of OpenCV and torch *)

(** Every element is a valid 8-bit value. *)
Definition is_u8 (a : ndarray) : Prop :=
  forall idx, (0 <= item a idx)%Q /\ (item a idx <= 255)%Q.

Definition tensor_in_unit (t : tensor) : Prop :=
  forall idx, (0 <= titem t idx)%Q /\ (titem t idx <= 1)%Q.

(** [cv2.resize] of a 2-D array returns an array of the requested size, and
    it keeps 8-bit data 8-bit; the luma of 8-bit channels is 8-bit; min-max
    normalisation to [0, 255] cast to uint8 is 8-bit and keeps the shape. *)
Record cv2_contract (cv : cv2_api) : Prop := mkContract {
  resize_shape : forall src w h interp,
    ndim src = 2 -> 1 <= w -> 1 <= h ->
    shape (resize cv src (w, h) interp) = [h; w];
  resize_u8 : forall src dsize interp,
    is_u8 src -> is_u8 (resize cv src dsize interp);
  luma_u8 : forall r g b,
    (0 <= r <= 255)%Q -> (0 <= g <= 255)%Q -> (0 <= b <= 255)%Q ->
    (0 <= luma cv r g b <= 255)%Q;
  normalize_u8 : forall img,
    dtype (normalize_minmax cv img) = uint8 /\
    shape (normalize_minmax cv img) = shape img /\
    is_u8 (normalize_minmax cv img)
}.

(** OpenCV keeps the height and the width of an image in C ints. *)
Definition INT_MAX : Z := 2147483647.

(** The classifier of every architecture of models.py is
    [nn.Linear(features, num_classes)] and [forward] returns its output: one
    logit per class. *)
Definition forward_contract (env : Env) : Prop :=
  forall model t autocast logits,
    forward env model t autocast = Ok logits ->
    length logits = Z.to_nat (m_num_classes model).

(** Half a unit in the last place of a mantissa of 53 bits. *)
Definition b64_eps : Q := 2 ^ (-53).

(** [x] lies in the range of the normal binary64 numbers or beyond. *)
Definition b64_normal (x : Q) : Prop := (2 ^ (-1022) <= Qabs x)%Q.

(** What [letterbox_dims] computes for an [h] x [w] image and a target [s]
    when all three are in OpenCV's range. *)
Record letterbox_fit (h w s : Z) (g : letterbox_geometry) : Prop := mkFit {
  fit_scale_near :
    (inject_Z s / inject_Z (Z.max h w) * (1 - b64_eps) <= g_scale g)%Q /\
    (g_scale g <= inject_Z s / inject_Z (Z.max h w) * (1 + b64_eps))%Q;
  fit_scale : (g_scale g < 1)%Q <-> s < Z.max h w;
  fit_w : 1 <= g_new_w g <= s;
  fit_h : 1 <= g_new_h g <= s;
  fit_larger_w : h <= w -> g_new_w g = s;
  fit_larger_h : w <= h -> g_new_h g = s;
  fit_w_rounding : Z.abs (g_new_w g * Z.max h w - w * s) <= Z.max h w;
  fit_h_rounding : Z.abs (g_new_h g * Z.max h w - h * s) <= Z.max h w;
  fit_top : g_top g = (s - g_new_h g) / 2;
  fit_bottom : g_bottom g = (s - g_new_h g) - (s - g_new_h g) / 2;
  fit_left : g_left g = (s - g_new_w g) / 2;
  fit_right : g_right g = (s - g_new_w g) - (s - g_new_w g) / 2
}.

(** *** The same roundings by the Standard Library

    [SpecFloat] is the specification of IEEE 754 arithmetic the Standard
    Library gives for its primitive floats.  Its operations on binary64
    (53 bits, infinity at exponent 1024) serve to test [b64]. *)

Definition SF2float (x : spec_float) : option float :=
  match x with
  | S754_zero _ => Some (Finite 0)
  | S754_finite s m e =>
    Some (Finite ((if s then -1 else 1) * inject_Z (Zpos m) * 2 ^ e)%Q)
  | S754_infinity _ => Some Infinity
  | S754_nan => None
  end.

Definition SF_of_int (n : Z) : spec_float := binary_normalize 53 1024 n 0 false.

Definition same_float (x : spec_float) (y : float) : bool :=
  match SF2float x, y with
  | Some (Finite a), Finite b => Qeq_bool a b
  | Some Infinity, Infinity => true
  | _, _ => false
  end.

(** The three roundings of [letterbox_dims] on an [h] x [w] image and a
    target [s], each compared with [SFdiv] or [SFmul]. *)
Definition roundings_agree (h w s : Z) : bool :=
  let m := Z.max h w in
  let scale := SFdiv 53 1024 (SF_of_int s) (SF_of_int m) in
  same_float scale (b64 (inject_Z s / inject_Z m)) &&
  match SF2float scale with
  | Some (Finite q) =>
    same_float (SFmul 53 1024 (SF_of_int w) scale) (float_mul (inject_Z w) q) &&
    same_float (SFmul 53 1024 (SF_of_int h) scale) (float_mul (inject_Z h) q)
  | _ => true
  end.

(** All images of up to [n] x [n] pixels. *)
Definition small_shapes (n : nat) : list (Z * Z) :=
  list_prod (map Z.of_nat (seq 1 n)) (map Z.of_nat (seq 1 n)).

(** ** A concrete environment, to run the definitions on *)

Definition gray_2x2 : ndarray := mkArr uint8 [2; 2] (fun _ => 128%Q).
Definition gray_1x1 : ndarray := mkArr uint8 [1; 1] (fun _ => 128%Q).
Definition bgr_384x512 : ndarray := mkArr uint8 [384; 512; 3] (fun _ => 100%Q).
Definition bgra_2x2 : ndarray := mkArr uint8 [2; 2; 4] (fun _ => 100%Q).

(** Nearest-neighbour resizing, the ITU-R 601 luma, and a decoder that knows
    one file and takes every non-empty buffer for a 2x2 grey image. *)
Definition cv2_sample : cv2_api :=
  mkCv2
    (fun path => if String.eqb path "xray.png" then Some bgr_384x512 else None)
    (fun bytes => match bytes with [] => None | _ => Some gray_2x2 end)
    (fun img => mkArr uint8 (shape img) (fun _ => 0%Q))
    (fun r g b => ((299 # 1000) * r + (587 # 1000) * g + (114 # 1000) * b)%Q)
    (fun src dsize _ =>
       let '(w, h) := dsize in
       let rows := nth 0 (shape src) 0 in
       let cols := nth 1 (shape src) 0 in
       mkArr (dtype src) [h; w]
         (fun idx => match idx with
                     | [i; j] => item src [i * rows / h; j * cols / w]
                     | _ => item src idx
                     end)).

Definition sample_checkpoint : pyobj :=
  PyDict [("epoch", PyOpaque 7);
          ("model_state_dict", PyDict [("classifier.weight", PyOpaque 1)])].

(** Weights present, a wrapped checkpoint, six zero logits. *)
Definition env_sample : Env :=
  mkEnv cv2_sample
    (fun _ => true)
    (fun _ _ => Ok sample_checkpoint)
    (fun _ => None)
    (fun _ _ => None)
    (fun _ _ => None)
    (fun _ _ => None)
    (fun _ _ _ => Ok [0%R; 0%R; 0%R; 0%R; 0%R; 0%R])
    false 100 (201 # 2).

(** The same with no weight file on disk. *)
Definition env_no_weights : Env :=
  mkEnv cv2_sample (fun _ => false) (torch_load env_sample)
    (nn_construct env_sample) (load_state_dict env_sample)
    (module_to env_sample) (tensor_to env_sample) (forward env_sample)
    false 100 (201 # 2).

(** The same with a checkpoint whose parameters do not fit the module. *)
Definition env_mismatch : Env :=
  mkEnv cv2_sample (fun _ => true) (torch_load env_sample)
    (nn_construct env_sample)
    (fun _ _ => Some (mkExn RuntimeError
       "Error(s) in loading state_dict for DenseNet121MultiLabel: size mismatch for classifier.weight"))
    (module_to env_sample) (tensor_to env_sample) (forward env_sample)
    false 100 (201 # 2).

Definition st0 : state := init env_sample ["models"] None 6 (3 # 10).

(** [DISEASES] of app.py. *)
Definition DISEASES : list string :=
  ["Atelectasis"; "Edema"; "Lung_Opacity"; "Pleural_Effusion"; "Pneumonia";
   "Pneumothorax"].

(** [env_sample] with a forward pass that returns one zero logit per class
    of the module. *)
Definition env_per_class : Env :=
  mkEnv cv2_sample (path_exists env_sample) (torch_load env_sample)
    (nn_construct env_sample) (load_state_dict env_sample)
    (module_to env_sample) (tensor_to env_sample)
    (fun m _ _ => Ok (repeat 0%R (Z.to_nat (m_num_classes m))))
    false 100 (201 # 2).

Definition one_byte : list Byte.byte := [Byte.x00].

(** The checkpoint-format rule in the words of the specification. *)
Definition normalized_parameters (blob : pyobj) : pyobj :=
  match blob with
  | PyDict items =>
    match dict_get items "model_state_dict" with
    | Some field => field
    | None =>
      match dict_get items "state_dict" with
      | Some field => field
      | None => blob
      end
    end
  | PyOpaque _ => blob
  end.

(** The invariant of the cache: every key is the key of a registered,
    compatible pair. *)
Definition valid_pair (model_name config : string) : Prop :=
  dict_mem MODEL_FILENAME_MAP model_name = true /\
  dict_mem CONFIG_SETTINGS config = true /\
  check_compatibility model_name config = Ok true.

Definition cache_valid (st : state) : Prop :=
  forall k m, loaded_models (self st) !! k = Some m ->
    exists model_name config,
      k = cache_key model_name config /\ valid_pair model_name config.

(** Where the weights of a pair live: [models_dir / config / filename]. *)
Definition weights_path (s : ModelInference) (config filename : string) : Path :=
  path_div (path_div (models_dir s) config) filename.

Definition missing_weights_message (p : Path) : string :=
  "Model file not found: " ++ path_str p ++ nl ++
  "Please ensure the model is trained and saved in the correct location.".

Fixpoint has_underscore (s : string) : bool :=
  match s with
  | EmptyString => false
  | String a s' => Ascii.eqb a "_"%char || has_underscore s'
  end.

(** The state after [load_model] has read and cached the weights at [p]. *)
Definition state_loaded (st : state) (key : string) (model : module) (p : Path)
    : state :=
  let s := self st in
  mkState (mkEngine (models_dir s) (device s) (num_classes s) (dropout s)
             (<[key := model]> (loaded_models s)))
    (S (next_obj st)) (storage_log st ++ [EvExists p; EvTorchLoad p])%list.

(** The module [load_model] returns for a fresh load. *)
Definition loaded_module (st : state) (a : architecture) (img_size : Z)
    (blob : pyobj) : module :=
  mkModule (next_obj st) a (num_classes (self st)) (dropout (self st))
    (match a with
     | EfficientFormerV2S2MultiLabel => Some img_size
     | _ => None
     end)
    (Some (normalized_parameters blob)) (device (self st)) false.

Definition log_append (st : state) (evs : list storage_event) : state :=
  mkState (self st) (next_obj st) (storage_log st ++ evs)%list.

(** What one call of [load_model] can do to the engine: answer from the
    cache, reject the pair, fail after touching storage, or load and cache. *)
Inductive load_effect (env : Env) (model_name config : string)
    (st st' : state) (r : result module) : Prop :=
| LoadHit model :
    loaded_models (self st) !! cache_key model_name config = Some model ->
    st' = st -> r = Ok model ->
    load_effect env model_name config st st' r
| LoadRejected msg :
    loaded_models (self st) !! cache_key model_name config = None ->
    ~ valid_pair model_name config ->
    st' = st -> r = Raise (mkExn ValueError msg) ->
    load_effect env model_name config st st' r
| LoadFailed filename e (read : bool) :
    loaded_models (self st) !! cache_key model_name config = None ->
    valid_pair model_name config ->
    dict_get MODEL_FILENAME_MAP model_name = Some filename ->
    let p := weights_path (self st) config filename in
    self st' = self st ->
    storage_log st' =
      (storage_log st ++ EvExists p :: (if read then [EvTorchLoad p] else []))%list ->
    r = Raise e ->
    load_effect env model_name config st st' r
| LoadFresh filename cfg a blob :
    loaded_models (self st) !! cache_key model_name config = None ->
    valid_pair model_name config ->
    dict_get MODEL_FILENAME_MAP model_name = Some filename ->
    dict_get CONFIG_SETTINGS config = Some cfg ->
    dict_get models_dict model_name = Some a ->
    let p := weights_path (self st) config filename in
    path_exists env p = true ->
    torch_load env p (device (self st)) = Ok blob ->
    st' = state_loaded st (cache_key model_name config)
            (loaded_module st a (cfg_image_size cfg) blob) p ->
    r = Ok (loaded_module st a (cfg_image_size cfg) blob) ->
    load_effect env model_name config st st' r.

(** What a call other than [clear_cache] keeps of a cached pair: its entry,
    the engine's directory, and the number of reads of its weight file. *)
Definition kept_entry (model_name config filename : string) (obj : module)
    (st st' : state) : Prop :=
  loaded_models (self st') !! cache_key model_name config = Some obj /\
  models_dir (self st') = models_dir (self st) /\
  reads_of (weights_path (self st) config filename) (storage_log st') =
  reads_of (weights_path (self st) config filename) (storage_log st).

(** ** Sample states *)

Definition gray_3x5 : ndarray := mkArr uint8 [3; 5] (fun _ => 128%Q).

Definition densenet_loaded : module :=
  loaded_module st0 DenseNet121MultiLabel 224 sample_checkpoint.

(** The engine after one successful load, and calls that follow it. *)
Definition st_loaded : state :=
  fst (load_model env_sample "densenet121" "config1" st0).

Definition calls_after_load : list call :=
  [ CallPredict env_sample (ImageBytes one_byte) "mobilevit-s" "config3" DISEASES;
    CallPath env_no_weights "densenet121" "config2";
    CallLoad env_mismatch "regnety-800mf" "config4" ].

(** ** get_available_models *)

Record model_info := mkModelInfo {
  mi_name : string;
  mi_filename : string;
  mi_compatible : bool;
  mi_path : string
}.

Record config_info := mkConfigInfo {
  ci_image_size : Z;
  ci_loss : string;
  ci_type : string;
  ci_models : list model_info
}.

(** The inner loop, over [MODEL_FILENAME_MAP.items()]; [models] is the list
    appended to. *)
Fixpoint available_models_loop (env : Env) (config_dir : Path)
    (config_name : string) (items : list (string * string))
    (models : list model_info) : M (list model_info) :=
  match items with
  | [] => ret models
  | (model_name, filename) :: items' =>
    let model_path := path_div config_dir filename in
    log_storage (EvExists model_path) ;;;
    if path_exists env model_path then
      is_compatible <~ lift (check_compatibility model_name config_name) ;;
      available_models_loop env config_dir config_name items'
        (models ++ [mkModelInfo model_name filename is_compatible
                      (path_str model_path)])%list
    else available_models_loop env config_dir config_name items' models
  end.

(** The outer loop, over [CONFIG_SETTINGS.keys()]. *)
Fixpoint available_configs_loop (env : Env) (dir : Path) (names : list string)
    (available : list (string * config_info)) : M (list (string * config_info)) :=
  match names with
  | [] => ret available
  | config_name :: names' =>
    let config_dir := path_div dir config_name in
    log_storage (EvExists config_dir) ;;;
    if negb (path_exists env config_dir) then
      available_configs_loop env dir names' available
    else
      cfg <~ lift (dict_index CONFIG_SETTINGS config_name) ;;
      models <~ available_models_loop env config_dir config_name
                  MODEL_FILENAME_MAP [] ;;
      available_configs_loop env dir names'
        (available ++ [(config_name,
                        mkConfigInfo (cfg_image_size cfg) (cfg_loss cfg)
                          (cfg_type cfg) models)])%list
  end.

Definition get_available_models (env : Env) : M (list (string * config_info)) :=
  s <~ get_self ;;
  available_configs_loop env (models_dir s) (dict_keys CONFIG_SETTINGS) [].

(** ** models.py: the input of the EfficientFormer backbone *)

(** [EfficientFormerV2S2MultiLabel.forward] up to [self.backbone(x)]:
    [F.interpolate] is called when the last two dimensions differ from
    [img_size]. *)
Definition efficientformer_backbone_input
    (interpolate : tensor -> Z * Z -> tensor) (img_size : Z) (x : tensor)
    : result tensor :=
  match rev (tshape x) with
  | w :: h :: _ =>
    if negb (h =? img_size) || negb (w =? img_size) then
      Ok (interpolate x (img_size, img_size))
    else Ok x
  | _ => Raise (mkExn OtherError "IndexError: tuple index out of range")
  end.

(** ** app.py *)

(** [config_descriptions] of the [/compatibility] endpoint: the compatible
    models listed per config. *)
Definition COMPATIBLE_MODELS_BY_CONFIG : list (string * list string) :=
  [ ("config1", ["densenet121"; "efficientnet-b2"; "regnety-800mf"]);
    ("config2", ["densenet121"; "efficientnet-b2"; "regnety-800mf"]);
    ("config3", ["efficientformerv2-s2"; "mobilevit-s"]);
    ("config4", ["densenet121"; "efficientnet-b2"; "regnety-800mf";
                 "efficientformerv2-s2"; "mobilevit-s"]) ].

Record upload_file := mkUpload {
  content_type : option string;
  file_content : list Byte.byte
}.

(** What the [/predict] handler ends with: a raised [HTTPException], the
    [PredictionResponse] built from the engine's dict, or the
    [JSONResponse] of its last [except] clause. *)
Inductive predict_response :=
| HTTPException (status_code : Z) (detail : string)
| PredictionResponse (body : prediction)
| JSONResponse (status_code : Z) (content : prediction).

(** The module-level [inference_engine] is [None] until the first call. *)
Definition get_inference_engine (env : Env) (MODELS_DIR : Path)
    (inference_engine : option state) : state :=
  match inference_engine with
  | None => init env MODELS_DIR None 6 (3 # 10)
  | Some engine => engine
  end.

Definition internal_server_error (e : exn) (model config : string)
    : predict_response :=
  JSONResponse 500
    (mkPrediction false (Some ("Internal server error: " ++ exn_str e)) [] 0
       model config
       (match dict_get CONFIG_SETTINGS config with
        | Some c => cfg_image_size c
        | None => 0
        end)
       "unknown").

(** [not file.content_type or not file.content_type.startswith('image/')] *)
Definition not_an_image (file : upload_file) : bool :=
  match content_type file with
  | None => true
  | Some "" => true
  | Some ct => negb (String.prefix "image/" ct)
  end.

(** The [/predict] handler.  The state is the module-level engine. *)
Definition predict_endpoint (env : Env) (MODELS_DIR : Path) (file : upload_file)
    (model config : string) (inference_engine : option state)
    : option state * predict_response :=
  if negb (dict_mem CONFIG_SETTINGS config) then
    (inference_engine,
     HTTPException 400 ("Invalid config. Must be one of: "
                        ++ py_repr_list (dict_keys CONFIG_SETTINGS)))
  else if negb (dict_mem MODEL_FILENAME_MAP model) then
    (inference_engine,
     HTTPException 400 ("Invalid model. Must be one of: "
                        ++ py_repr_list (dict_keys MODEL_FILENAME_MAP)))
  else
    let engine := get_inference_engine env MODELS_DIR inference_engine in
    match check_compatibility model config with
    | Raise e => (Some engine, internal_server_error e model config)
    | Ok compatible =>
      if negb compatible then
        let compatible_configs :=
          match dict_get MODEL_CONFIG_COMPATIBILITY model with
          | Some l => l
          | None => []
          end in
        (Some engine,
         HTTPException 400 ("Model '" ++ model ++ "' is not compatible with '"
                            ++ config ++ "'. Compatible configs: "
                            ++ py_repr_list compatible_configs))
      else if not_an_image file then
        (Some engine, HTTPException 400 "File must be an image (PNG, JPG, JPEG)")
      else
        let image_bytes := file_content file in
        match predict env (ImageBytes image_bytes) model config DISEASES engine with
        | (engine', Ok result) => (Some engine', PredictionResponse result)
        | (engine', Raise e) => (Some engine', internal_server_error e model config)
        end
    end.

(** The [/clear-cache] handler: the message, or the detail of the 500. *)
Definition clear_cache_endpoint (env : Env) (MODELS_DIR : Path)
    (inference_engine : option state) : option state * result string :=
  let engine := get_inference_engine env MODELS_DIR inference_engine in
  match clear_cache env engine with
  | (engine', Ok _) => (Some engine', Ok "Model cache cleared successfully")
  | (engine', Raise e) => (Some engine', Raise (mkExn OtherError (exn_str e)))
  end.

(** The [/models] handler; building [ConfigInfo] and [ModelInfo] from the
    dicts copies the fields. *)
Definition list_models (env : Env) (MODELS_DIR : Path)
    (inference_engine : option state)
    : option state * result (list (string * config_info)) :=
  let engine := get_inference_engine env MODELS_DIR inference_engine in
  let '(engine', available) := get_available_models env engine in
  (Some engine', available).







(** ** The entries the introspection loops append *)






(** ** Invariants of the engine *)

(** A cached module as [load_model] leaves it: the architecture of its
    model name, sized by its config, with the engine's parameters, weights
    loaded, on the engine's device, in inference mode, and created before
    [next]. *)
Definition module_of_pair (s : ModelInference) (next : nat)
    (model_name config : string) (md : module) : Prop :=
  exists cfg a,
    dict_get CONFIG_SETTINGS config = Some cfg /\
    dict_get models_dict model_name = Some a /\
    arch md = a /\
    m_img_size md = match a with
                    | EfficientFormerV2S2MultiLabel => Some (cfg_image_size cfg)
                    | _ => None
                    end /\
    m_num_classes md = num_classes s /\
    m_dropout md = dropout s /\
    m_device md = device s /\
    training md = false /\
    (exists sd, m_state md = Some sd) /\
    (obj_id md < next)%nat.

Definition engine_inv (st : state) : Prop :=
  (forall k md, loaded_models (self st) !! k = Some md ->
     exists model_name config,
       k = cache_key model_name config /\ valid_pair model_name config /\
       module_of_pair (self st) (next_obj st) model_name config md) /\
  (forall k1 k2 md1 md2,
     loaded_models (self st) !! k1 = Some md1 ->
     loaded_models (self st) !! k2 = Some md2 ->
     obj_id md1 = obj_id md2 -> k1 = k2).

(** The weight file of some registered, compatible pair under [dir]. *)
Definition is_weights_path (dir : Path) (p : Path) : Prop :=
  exists model_name config filename,
    valid_pair model_name config /\
    dict_get MODEL_FILENAME_MAP model_name = Some filename /\
    p = path_div (path_div dir config) filename.

(** Logs the engine can produce: existence tests, and reads of weight files
    each straight after the existence test of the same path. *)
Inductive disciplined (dir : Path) : list storage_event -> Prop :=
| disciplined_nil : disciplined dir []
| disciplined_exists log p :
    disciplined dir log -> disciplined dir (log ++ [EvExists p])
| disciplined_read log p :
    disciplined dir log -> is_weights_path dir p ->
    disciplined dir (log ++ [EvExists p; EvTorchLoad p]).

(** The engine's constructor parameters. *)
Definition same_engine (s s' : ModelInference) : Prop :=
  models_dir s' = models_dir s /\ device s' = device s /\
  num_classes s' = num_classes s /\ dropout s' = dropout s.

(** What one call does to the engine: the constructor parameters stay, the
    object counter does not go back, the log grows by nothing, by one
    existence test, or by a test and a read of one weight file, and the cache
    stays, is emptied, or gains one freshly built module. *)
Inductive log_growth (dir : Path) : list storage_event -> Prop :=
| grow_none : log_growth dir []
| grow_exists p : log_growth dir [EvExists p]
| grow_read p : is_weights_path dir p -> log_growth dir [EvExists p; EvTorchLoad p].

Inductive cache_change (st st' : state) : Prop :=
| cache_same :
    loaded_models (self st') = loaded_models (self st) -> cache_change st st'
| cache_cleared :
    loaded_models (self st') = ∅ -> cache_change st st'
| cache_added model_name config md :
    valid_pair model_name config ->
    loaded_models (self st) !! cache_key model_name config = None ->
    loaded_models (self st')
    = <[cache_key model_name config := md]> (loaded_models (self st)) ->
    module_of_pair (self st) (S (next_obj st)) model_name config md ->
    obj_id md = next_obj st ->
    next_obj st' = S (next_obj st) ->
    cache_change st st'.

Record engine_step (st st' : state) : Prop := mkStep {
  step_engine : same_engine (self st) (self st');
  step_next : (next_obj st <= next_obj st')%nat;
  step_log : exists evs,
    storage_log st' = (storage_log st ++ evs)%list /\
    log_growth (models_dir (self st)) evs;
  step_cache : cache_change st st'
}.

(** The cache keys of the pairs the compatibility mapping allows. *)
Definition compatible_keys : list string :=
  flat_map (fun entry => map (cache_key (fst entry)) (snd entry))
    MODEL_CONFIG_COMPATIBILITY.

(** ** More sample data *)

(** Only config1 and config3 have a directory; densenet121 has weights in
    both, mobilevit-s in config3. *)
Definition env_partial : Env :=
  mkEnv cv2_sample
    (fun p => existsb (fun q => bool_decide (q = p))
                [ ["models"; "config1"];
                  ["models"; "config1"; "densenet121.pth"];
                  ["models"; "config3"];
                  ["models"; "config3"; "densenet121.pth"];
                  ["models"; "config3"; "mobilevit-s.pth"] ])
    (torch_load env_sample) (nn_construct env_sample)
    (load_state_dict env_sample) (module_to env_sample)
    (tensor_to env_sample) (forward env_sample)
    false 100 (201 # 2).

Definition png_upload : upload_file := mkUpload (Some "image/png") one_byte.

Definition gray16_2x3 : ndarray := mkArr uint16 [2; 3] (fun _ => 40000%Q).

Definition bgr_2x2 : ndarray :=
  mkArr uint8 [2; 2; 3]
    (fun idx => match idx with
                | [_; _; c] => inject_Z (10 * (c + 1))
                | _ => 0%Q
                end).

(** ** Rounding and the letterbox geometry *)

Lemma round_half_even_error n d :
  0 < d -> 2 * Z.abs (round_half_even n d * d - n) <= d.
Proof.
  intros Hd. unfold round_half_even.
  pose proof (Z.div_mod n d ltac:(lia)) as Hn.
  pose proof (Z.mod_pos_bound n d Hd) as Hr.
  set (q := n / d) in *. set (r := n mod d) in *.
  destruct (Z.ltb_spec (2 * r) d); [nia|].
  destruct (Z.ltb_spec d (2 * r)); [nia|].
  destruct (Z.even q); nia.
Qed.

Lemma round_half_even_exact k d : 0 < d -> round_half_even (k * d) d = k.
Proof.
  intros Hd. unfold round_half_even.
  rewrite Z.div_mul by lia. rewrite Z.mod_mul by lia.
  destruct (Z.ltb_spec (2 * 0) d); [reflexivity|lia].
Qed.

Lemma round_half_even_le n k d :
  0 < d -> n <= k * d -> round_half_even n d <= k.
Proof.
  intros Hd Hn. pose proof (round_half_even_error n d Hd). nia.
Qed.

Lemma round_half_even_nonneg n d : 0 < d -> 0 <= n -> 0 <= round_half_even n d.
Proof.
  intros Hd Hn. pose proof (round_half_even_error n d Hd). nia.
Qed.

Lemma pow2_pos e : (0 < 2 ^ e)%Q.
Proof. apply Qpower_0_lt. reflexivity. Qed.

Lemma pow2_add a b : (2 ^ (a + b) == 2 ^ a * 2 ^ b)%Q.
Proof. apply Qpower_plus. intros H. discriminate H. Qed.

Lemma pow2_lt a b : a < b -> (2 ^ a < 2 ^ b)%Q.
Proof. intros H. apply Qpower_lt_compat_l; [exact H|reflexivity]. Qed.

Lemma pow2_le a b : a <= b -> (2 ^ a <= 2 ^ b)%Q.
Proof. intros H. apply Qpower_le_compat_l; [exact H|discriminate]. Qed.

Lemma pow2_lt_inv a b : (2 ^ a < 2 ^ b)%Q -> a < b.
Proof. intros H. apply (Qpower_lt_compat_l_inv 2); [exact H|reflexivity]. Qed.

Lemma pow2_inject k : 0 <= k -> (inject_Z (2 ^ k) == 2 ^ k)%Q.
Proof. intros H. apply (Zpower_Qpower 2 k H). Qed.

Lemma py_round_error y : (Qabs (inject_Z (py_round y) - y) <= 1 # 2)%Q.
Proof.
  destruct y as [n d]. unfold py_round. cbn [Qnum Qden].
  pose proof (round_half_even_error n (Zpos d) ltac:(lia)) as H.
  set (r := round_half_even n (Zpos d)) in *.
  apply Qabs_Qle_condition.
  unfold Qle, Qminus, Qplus, Qopp, inject_Z. cbn. lia.
Qed.

Lemma py_round_integer y k : (y == inject_Z k)%Q -> py_round y = k.
Proof.
  destruct y as [n d]. unfold py_round, Qeq, inject_Z. cbn [Qnum Qden].
  intros H.
  pose proof (round_half_even_error n (Zpos d) ltac:(lia)) as He.
  set (r := round_half_even n (Zpos d)) in *. nia.
Qed.

Lemma py_round_le y k : (y <= inject_Z k)%Q -> py_round y <= k.
Proof.
  destruct y as [n d]. unfold py_round, Qle, inject_Z. cbn [Qnum Qden].
  intros H.
  pose proof (round_half_even_error n (Zpos d) ltac:(lia)) as He.
  set (r := round_half_even n (Zpos d)) in *. nia.
Qed.

Lemma py_round_ge y k : (inject_Z k <= y)%Q -> k <= py_round y.
Proof.
  destruct y as [n d]. unfold py_round, Qle, inject_Z. cbn [Qnum Qden].
  intros H.
  pose proof (round_half_even_error n (Zpos d) ltac:(lia)) as He.
  set (r := round_half_even n (Zpos d)) in *. nia.
Qed.

Lemma Qabs_make n d : Qabs (n # d) = (Z.abs n # d).
Proof. reflexivity. Qed.

Lemma Qlog2_spec x :
  ~ (x == 0)%Q -> (2 ^ Qlog2 x <= Qabs x)%Q /\ (Qabs x < 2 ^ (Qlog2 x + 1))%Q.
Proof.
  intros Hx. destruct x as [n d].
  assert (Hn : 0 < Z.abs n).
  { destruct (Z.eq_dec n 0) as [->|]; [exfalso; apply Hx; reflexivity|lia]. }
  unfold Qlog2. cbn [Qnum Qden]. rewrite Qabs_make.
  destruct (Z.log2_spec (Z.abs n) Hn) as [Ha1 Ha2].
  destruct (Z.log2_spec (Zpos d) ltac:(lia)) as [Hb1 Hb2].
  pose proof (Z.log2_nonneg (Z.abs n)) as Ha0.
  pose proof (Z.log2_nonneg (Zpos d)) as Hb0.
  set (a := Z.log2 (Z.abs n)) in *. set (b := Z.log2 (Zpos d)) in *.
  set (x := (Z.abs n # d)).
  assert (Hxd : (x * inject_Z (Zpos d) == inject_Z (Z.abs n))%Q).
  { unfold x, Qeq, Qmult, inject_Z. cbn. lia. }
  assert (Hx0 : (0 < x)%Q) by (unfold x, Qlt; cbn; lia).
  (* bounds of numerator and denominator as rationals *)
  assert (Qa1 : (2 ^ a <= inject_Z (Z.abs n))%Q).
  { rewrite <- pow2_inject by lia. rewrite <- Zle_Qle. exact Ha1. }
  assert (Qa2 : (inject_Z (Z.abs n) < 2 ^ (a + 1))%Q).
  { rewrite <- pow2_inject by lia. rewrite <- Zlt_Qlt. exact Ha2. }
  assert (Qb1 : (2 ^ b <= inject_Z (Zpos d))%Q).
  { rewrite <- pow2_inject by lia. rewrite <- Zle_Qle. exact Hb1. }
  assert (Qb2 : (inject_Z (Zpos d) < 2 ^ (b + 1))%Q).
  { rewrite <- pow2_inject by lia. rewrite <- Zlt_Qlt. exact Hb2. }
  assert (Hup : (x < 2 ^ (a - b + 1))%Q).
  { apply (Qmult_lt_r _ _ (2 ^ b)); [apply pow2_pos|].
    rewrite <- pow2_add. replace (a - b + 1 + b) with (a + 1) by lia.
    apply Qle_lt_trans with (x * inject_Z (Zpos d))%Q.
    - apply Qmult_le_l; [exact Hx0|exact Qb1].
    - rewrite Hxd. exact Qa2. }
  assert (Hlow : (2 ^ (a - b - 1) < x)%Q).
  { apply (Qmult_lt_r _ _ (2 ^ (b + 1))); [apply pow2_pos|].
    rewrite <- pow2_add. replace (a - b - 1 + (b + 1)) with a by lia.
    apply Qle_lt_trans with (x * inject_Z (Zpos d))%Q.
    - rewrite Hxd. exact Qa1.
    - apply Qmult_lt_l; [exact Hx0|exact Qb2]. }
  destruct (Qle_bool (2 ^ (a - b)) x) eqn:Hcmp.
  - apply Qle_bool_iff in Hcmp. split; [exact Hcmp|exact Hup].
  - split; [apply Qlt_le_weak; exact Hlow|].
    replace (a - b - 1 + 1) with (a - b) by lia.
    apply Qnot_le_lt. intros Hle. apply Qle_bool_iff in Hle. congruence.
Qed.

Lemma Qabs_pow2 e : (Qabs (2 ^ e) == 2 ^ e)%Q.
Proof. apply Qabs_pos, Qlt_le_weak, pow2_pos. Qed.

Lemma pow2_nonzero e : ~ (2 ^ e == 0)%Q.
Proof. intros H. pose proof (pow2_pos e) as Hp. rewrite H in Hp. discriminate Hp. Qed.

Lemma b64_nearest_error x :
  (Qabs (b64_nearest x - x) <= (1 # 2) * 2 ^ b64_exp x)%Q.
Proof.
  unfold b64_nearest. set (e := b64_exp x).
  set (r := py_round (x / 2 ^ e)).
  assert (Heq : (inject_Z r * 2 ^ e - x == (inject_Z r - x / 2 ^ e) * 2 ^ e)%Q).
  { field. apply pow2_nonzero. }
  rewrite Heq, Qabs_Qmult, Qabs_pow2.
  apply Qmult_le_compat_r; [apply py_round_error|].
  apply Qlt_le_weak, pow2_pos.
Qed.

Lemma b64_normal_nonzero x : b64_normal x -> ~ (x == 0)%Q.
Proof.
  intros H Hx. unfold b64_normal in H. rewrite Hx in H.
  apply (Qlt_not_le _ _ (pow2_pos (-1022))). exact H.
Qed.

Lemma b64_normal_exp x : b64_normal x -> b64_exp x = Qlog2 x - 52.
Proof.
  intros H. destruct (Qlog2_spec x (b64_normal_nonzero x H)) as [_ Hu].
  assert (-1022 < Qlog2 x + 1).
  { apply pow2_lt_inv. eapply Qle_lt_trans; [exact H|exact Hu]. }
  unfold b64_exp. lia.
Qed.

Lemma b64_relative_error x :
  b64_normal x -> (Qabs (b64_nearest x - x) <= b64_eps * Qabs x)%Q.
Proof.
  intros H. destruct (Qlog2_spec x (b64_normal_nonzero x H)) as [Hl _].
  eapply Qle_trans; [apply b64_nearest_error|].
  rewrite (b64_normal_exp x H).
  replace (Qlog2 x - 52) with (1 + (-53 + Qlog2 x)) by lia.
  rewrite pow2_add, Qmult_assoc.
  setoid_replace ((1 # 2) * 2 ^ 1)%Q with 1%Q using relation Qeq by reflexivity.
  rewrite Qmult_1_l, pow2_add. unfold b64_eps.
  apply Qmult_le_l; [apply pow2_pos|exact Hl].
Qed.

Lemma b64_nearest_bounds x :
  (0 < x)%Q -> b64_normal x ->
  (x * (1 - b64_eps) <= b64_nearest x)%Q /\ (b64_nearest x <= x * (1 + b64_eps))%Q.
Proof.
  intros Hx Hn. pose proof (b64_relative_error x Hn) as He.
  rewrite (Qabs_pos x) in He by (apply Qlt_le_weak; exact Hx).
  apply Qabs_Qle_condition in He. destruct He as [H1 H2].
  split; Lqa.lra.
Qed.

(** Rounding does not leave the binade. *)
Lemma b64_nearest_binade x :
  (0 < x)%Q -> b64_normal x ->
  (2 ^ Qlog2 x <= b64_nearest x)%Q /\ (b64_nearest x <= 2 ^ (Qlog2 x + 1))%Q.
Proof.
  intros Hx Hn.
  destruct (Qlog2_spec x (b64_normal_nonzero x Hn)) as [Hl Hu].
  rewrite (Qabs_pos x) in Hl, Hu by (apply Qlt_le_weak; exact Hx).
  unfold b64_nearest. rewrite (b64_normal_exp x Hn).
  set (l := Qlog2 x) in *. set (e := l - 52).
  assert (H52 : (inject_Z (2 ^ 52) * 2 ^ e == 2 ^ l)%Q).
  { rewrite pow2_inject by lia. rewrite <- pow2_add. replace (52 + e) with l by (unfold e; lia).
    reflexivity. }
  assert (H53 : (inject_Z (2 ^ 53) * 2 ^ e == 2 ^ (l + 1))%Q).
  { rewrite pow2_inject by lia. rewrite <- pow2_add.
    replace (53 + e) with (l + 1) by (unfold e; lia). reflexivity. }
  split.
  - rewrite <- H52. apply Qmult_le_compat_r; [|apply Qlt_le_weak, pow2_pos].
    rewrite <- Zle_Qle. apply py_round_ge.
    apply Qle_shift_div_l; [apply pow2_pos|]. rewrite H52. exact Hl.
  - rewrite <- H53. apply Qmult_le_compat_r; [|apply Qlt_le_weak, pow2_pos].
    rewrite <- Zle_Qle. apply py_round_le.
    apply Qle_shift_div_r; [apply pow2_pos|]. rewrite H53.
    apply Qlt_le_weak. exact Hu.
Qed.

(** Integers of at most 53 bits are binary64 numbers. *)
Lemma b64_nearest_int k :
  Z.abs k < 2 ^ 53 -> (b64_nearest (inject_Z k) == inject_Z k)%Q.
Proof.
  intros Hk. destruct (Z.eq_dec k 0) as [->|Hk0]; [reflexivity|].
  assert (Hx : ~ (inject_Z k == 0)%Q).
  { unfold Qeq, inject_Z. cbn. lia. }
  destruct (Qlog2_spec _ Hx) as [Hl Hu].
  assert (Habs : (Qabs (inject_Z k) == inject_Z (Z.abs k))%Q) by reflexivity.
  rewrite Habs in Hl, Hu.
  assert (Hl53 : Qlog2 (inject_Z k) < 53).
  { apply pow2_lt_inv. eapply Qle_lt_trans; [exact Hl|].
    rewrite <- pow2_inject by lia. rewrite <- Zlt_Qlt. exact Hk. }
  assert (Hl0 : 0 < Qlog2 (inject_Z k) + 1).
  { apply pow2_lt_inv. eapply Qle_lt_trans; [|exact Hu].
    change (2 ^ 0)%Q with (inject_Z 1). rewrite <- Zle_Qle. lia. }
  unfold b64_nearest, b64_exp.
  set (l := Qlog2 (inject_Z k)) in *.
  rewrite Z.max_l by lia. set (e := l - 52).
  assert (Hpow : (2 ^ e == / inject_Z (2 ^ (- e)))%Q).
  { rewrite pow2_inject by (unfold e; lia). rewrite <- Qpower_opp.
    replace (- - e) with e by lia. reflexivity. }
  assert (Hint : (inject_Z k / 2 ^ e == inject_Z (k * 2 ^ (- e)))%Q).
  { rewrite inject_Z_mult, Hpow. field.
    intros H. apply (pow2_nonzero (- e)). rewrite <- pow2_inject by (unfold e; lia).
    exact H. }
  rewrite (py_round_integer _ _ Hint), inject_Z_mult, Hpow. field.
  intros H. apply (pow2_nonzero (- e)). rewrite <- pow2_inject by (unfold e; lia).
  exact H.
Qed.



Lemma b64_eps_val : (b64_eps == 1 # 9007199254740992)%Q.
Proof. reflexivity. Qed.

Lemma b64_small_finite y :
  (Qabs y <= 2 ^ 64)%Q -> Qle_bool (2 ^ 1024) (Qabs y) = false.
Proof.
  intros H. destruct (Qle_bool _ _) eqn:Hc; [|reflexivity].
  apply Qle_bool_iff in Hc. exfalso.
  apply (Qlt_not_le _ _ (pow2_lt 64 1024 ltac:(lia))).
  eapply Qle_trans; eassumption.
Qed.

Lemma b64_large_normal x : (2 ^ (-64) <= Qabs x)%Q -> b64_normal x.
Proof.
  intros H. unfold b64_normal. eapply Qle_trans; [|exact H].
  apply pow2_le. lia.
Qed.

Lemma Qlog2_nonneg x : (1 <= x)%Q -> 0 <= Qlog2 x.
Proof.
  intros Hx.
  assert (Hne : ~ (x == 0)%Q) by (intros H; rewrite H in Hx; Lqa.lra).
  destruct (Qlog2_spec x Hne) as [_ Hu].
  rewrite Qabs_pos in Hu by Lqa.lra.
  assert (0 < Qlog2 x + 1); [|lia].
  apply pow2_lt_inv. eapply Qle_lt_trans; [|exact Hu]. exact Hx.
Qed.

Lemma ratio_bounds s m :
  1 <= s <= INT_MAX -> 1 <= m <= INT_MAX ->
  let q := (inject_Z s / inject_Z m)%Q in
  (1 # 2147483647 <= q)%Q /\ (q <= 2147483647)%Q /\
  (s < m -> (q <= 1 - (1 # 2147483647))%Q) /\ (m <= s -> (1 <= q)%Q).
Proof.
  unfold INT_MAX. intros Hs Hm.
  destruct m as [|p|p]; try lia. destruct s as [|t|t]; try lia.
  unfold Qle, Qdiv, Qmult, Qinv, Qminus, Qplus, Qopp, inject_Z. cbn.
  repeat split; intros; nia.
Qed.

Lemma pow2_64 : (2 ^ 64 == 18446744073709551616)%Q.
Proof. reflexivity. Qed.

Lemma pow2_m64 : (2 ^ (-64) == 1 # 18446744073709551616)%Q.
Proof. reflexivity. Qed.

(** Rounding a positive rational of moderate size: a finite float within
    one relative [b64_eps]. *)
Lemma b64_moderate x :
  (1 # 4294967296 <= x)%Q -> (x <= 4294967296)%Q ->
  let y := b64_nearest x in
  b64 x = Finite y /\ (x * (1 - b64_eps) <= y)%Q /\ (y <= x * (1 + b64_eps))%Q.
Proof.
  intros Hl Hu y.
  assert (Hpos : (0 < x)%Q) by Lqa.lra.
  assert (Hn : b64_normal x).
  { apply b64_large_normal. rewrite Qabs_pos by Lqa.lra. rewrite pow2_m64. Lqa.lra. }
  destruct (b64_nearest_bounds x Hpos Hn) as [H1 H2]. fold y in H1, H2.
  rewrite b64_eps_val in H1, H2.
  split; [|rewrite b64_eps_val; split; assumption].
  unfold b64. fold y. rewrite b64_small_finite; [reflexivity|].
  rewrite pow2_64. apply Qabs_Qle_condition. split; Lqa.lra.
Qed.

Lemma int_truediv_spec s m :
  1 <= s <= INT_MAX -> 1 <= m <= INT_MAX ->
  let q := (inject_Z s / inject_Z m)%Q in
  exists scale,
    int_truediv s m = Ok scale /\
    (q * (1 - b64_eps) <= scale)%Q /\ (scale <= q * (1 + b64_eps))%Q /\
    ((scale < 1)%Q <-> s < m).
Proof.
  intros Hs Hm q.
  destruct (ratio_bounds s m Hs Hm) as (Hq1 & Hq2 & Hlt & Hge). fold q in Hq1, Hq2, Hlt, Hge.
  destruct (b64_moderate q ltac:(Lqa.lra) ltac:(Lqa.lra)) as (Hfin & H1 & H2).
  exists (b64_nearest q). unfold int_truediv.
  destruct (Z.eqb_spec m 0); [lia|]. fold q. rewrite Hfin.
  split; [reflexivity|]. split; [exact H1|]. split; [exact H2|].
  split.
  - intros Hsc. destruct (Z.lt_ge_cases s m) as [|Hms]; [assumption|exfalso].
    specialize (Hge Hms).
    assert (Hn : b64_normal q).
    { apply b64_large_normal. rewrite Qabs_pos by Lqa.lra. rewrite pow2_m64. Lqa.lra. }
    destruct (b64_nearest_binade q ltac:(Lqa.lra) Hn) as [Hb _].
    pose proof (pow2_le 0 (Qlog2 q) (Qlog2_nonneg q Hge)) as Hp.
    change (2 ^ 0)%Q with 1%Q in Hp. Lqa.lra.
  - intros Hsm. specialize (Hlt Hsm). rewrite b64_eps_val in H2. Lqa.lra.
Qed.

Lemma float_of_int_exact x :
  Z.abs x <= INT_MAX -> exists xf, float_of_int x = Ok xf /\ (xf == inject_Z x)%Q.
Proof.
  unfold INT_MAX. intros Hx.
  pose proof (b64_nearest_int x ltac:(lia)) as Hex.
  exists (b64_nearest (inject_Z x)). split; [|exact Hex].
  unfold float_of_int, b64. rewrite b64_small_finite; [reflexivity|].
  rewrite Hex, pow2_64.
  assert (Habs : (Qabs (inject_Z x) == inject_Z (Z.abs x))%Q) by reflexivity.
  rewrite Habs. change 18446744073709551616%Q with (inject_Z 18446744073709551616).
  rewrite <- Zle_Qle. lia.
Qed.

(** One side of the letterboxed image: the rounded product is within three
    quarters of a pixel of the exact one. *)
Lemma scaled_side_spec x s m scale :
  1 <= s <= INT_MAX -> 1 <= m <= INT_MAX -> 1 <= x <= m ->
  let q := (inject_Z s / inject_Z m)%Q in
  (q * (1 - b64_eps) <= scale)%Q -> (scale <= q * (1 + b64_eps))%Q ->
  exists n,
    scaled_side x scale = Ok n /\
    1 <= n <= s /\ Z.abs (n * m - x * s) <= m /\ (x = m -> n = s).
Proof.
  intros Hs Hm Hx q Hsc1 Hsc2.
  destruct (ratio_bounds s m Hs Hm) as (Hq1 & Hq2 & _ & _). fold q in Hq1, Hq2.
  destruct (float_of_int_exact x ltac:(unfold INT_MAX in *; lia)) as (xf & Hxf & Hxe).
  unfold scaled_side. rewrite Hxf. unfold float_mul.
  set (t := (inject_Z x * q)%Q).
  assert (Hx1 : (1 <= inject_Z x)%Q).
  { change 1%Q with (inject_Z 1). rewrite <- Zle_Qle. lia. }
  assert (Hxm : (inject_Z x <= inject_Z m)%Q) by (rewrite <- Zle_Qle; lia).
  assert (Hms : (inject_Z m * q == inject_Z s)%Q).
  { unfold q. field. intros H. unfold Qeq, inject_Z in H. cbn in H. lia. }
  assert (Hq0 : (0 < q)%Q) by Lqa.lra.
  assert (Ht1 : (q <= t)%Q).
  { unfold t. rewrite <- (Qmult_1_l q) at 1. apply Qmult_le_compat_r; Lqa.lra. }
  assert (Ht2 : (t <= inject_Z s)%Q).
  { unfold t. rewrite <- Hms. apply Qmult_le_compat_r; Lqa.lra. }
  assert (HsB : (inject_Z s <= 2147483647)%Q).
  { change 2147483647%Q with (inject_Z 2147483647). rewrite <- Zle_Qle.
    unfold INT_MAX in Hs. lia. }
  rewrite b64_eps_val in Hsc1, Hsc2.
  set (p := (xf * scale)%Q).
  assert (Hp1 : (t * (1 - (1 # 9007199254740992)) <= p)%Q).
  { unfold p, t. rewrite Hxe.
    setoid_replace (inject_Z x * q * (1 - (1 # 9007199254740992)))%Q
      with (inject_Z x * (q * (1 - (1 # 9007199254740992))))%Q
      using relation Qeq by ring.
    apply Qmult_le_l; [Lqa.lra|exact Hsc1]. }
  assert (Hp2 : (p <= t * (1 + (1 # 9007199254740992)))%Q).
  { unfold p, t. rewrite Hxe.
    setoid_replace (inject_Z x * q * (1 + (1 # 9007199254740992)))%Q
      with (inject_Z x * (q * (1 + (1 # 9007199254740992))))%Q
      using relation Qeq by ring.
    apply Qmult_le_l; [Lqa.lra|exact Hsc2]. }
  destruct (b64_moderate p ltac:(Lqa.lra) ltac:(Lqa.lra)) as (Hfin & Hf1 & Hf2).
  rewrite Hfin. cbn [float_round].
  rewrite b64_eps_val in Hf1, Hf2.
  pose proof (py_round_error (b64_nearest p)) as Hr.
  set (fp := b64_nearest p) in *. set (r := py_round fp) in *.
  apply Qabs_Qle_condition in Hr. destruct Hr as [Hr1 Hr2].
  (* the rounded side against the exact product *)
  assert (Hrt1 : (t - (3 # 4) <= inject_Z r)%Q) by Lqa.lra.
  assert (Hrt2 : (inject_Z r <= t + (3 # 4))%Q) by Lqa.lra.
  assert (Htm : (t * inject_Z m == inject_Z (x * s))%Q).
  { unfold t. rewrite inject_Z_mult, <- Hms. ring. }
  assert (Hm0 : (0 < inject_Z m)%Q).
  { change 0%Q with (inject_Z 0). rewrite <- Zlt_Qlt. lia. }
  assert (Hz1 : 4 * (x * s) <= 4 * (r * m) + 3 * m).
  { rewrite Zle_Qle, inject_Z_plus, !inject_Z_mult, <- Htm.
    change (inject_Z 4) with 4%Q. change (inject_Z 3) with 3%Q.
    apply (Qmult_le_r _ _ (inject_Z m)) in Hrt1; [|exact Hm0]. Lqa.lra. }
  assert (Hz2 : 4 * (r * m) <= 4 * (x * s) + 3 * m).
  { rewrite Zle_Qle, inject_Z_plus, !inject_Z_mult, <- Htm.
    change (inject_Z 4) with 4%Q. change (inject_Z 3) with 3%Q.
    apply (Qmult_le_r _ _ (inject_Z m)) in Hrt2; [|exact Hm0]. Lqa.lra. }
  exists (Z.max 1 r). split; [reflexivity|].
  assert (Hrs : r <= s) by nia.
  split; [lia|]. split.
  - destruct (Z.max_spec 1 r) as [[? ->]|[? ->]]; nia.
  - intros ->. assert (r = s) by nia. lia.
Qed.

Lemma letterbox_dims_fit h w s :
  1 <= h <= INT_MAX -> 1 <= w <= INT_MAX -> 1 <= s <= INT_MAX ->
  exists g, letterbox_dims h w s = Ok g /\ letterbox_fit h w s g.
Proof.
  intros Hh Hw Hs.
  assert (Hm : 1 <= Z.max h w <= INT_MAX) by lia.
  destruct (int_truediv_spec s (Z.max h w) Hs Hm) as (scale & Hdiv & H1 & H2 & Hlt).
  destruct (scaled_side_spec w s (Z.max h w) scale Hs Hm ltac:(lia) H1 H2)
    as (nw & Hnw & Hwr & Hwe & Hwm).
  destruct (scaled_side_spec h s (Z.max h w) scale Hs Hm ltac:(lia) H1 H2)
    as (nh & Hnh & Hhr & Hhe & Hhm).
  unfold letterbox_dims. rewrite Hdiv, Hnw, Hnh.
  eexists. split; [reflexivity|].
  constructor; cbn [g_scale g_new_w g_new_h g_top g_bottom g_left g_right];
    try reflexivity; try assumption.
  - split; assumption.
  - intros Hle. apply Hwm. lia.
  - intros Hle. apply Hhm. lia.
Qed.

(** [b64] against the Standard Library's binary64: every image of up to
    32 x 32 pixels at the two target sizes of [CONFIG_SETTINGS], and some
    larger ones, among them 330 x 640 at 224, where the rounded product
    115.49999999999999 is rounded down and the exact one, 115.5, up. *)
Lemma b64_agrees_with_SpecFloat :
  forallb (fun '(h, w) => roundings_agree h w 224 && roundings_agree h w 320)
    (small_shapes 32) = true /\
  forallb (fun '(h, w, s) => roundings_agree h w s)
    [(330, 640, 224); (384, 512, 224); (1080, 1920, 320); (2048, 1365, 224);
     (1, INT_MAX, INT_MAX); (INT_MAX, INT_MAX - 1, 3); (7, 1000003, 11);
     (1, 1, 2 ^ 53 - 1); (3, 2 ^ 52 + 1, 5)] = true /\
  (exists g, letterbox_dims 330 640 224 = Ok g /\
             g_new_w g = 224 /\ g_new_h g = 115 /\
             g_top g = 54 /\ g_bottom g = 55 /\ g_left g = 0 /\ g_right g = 0).
Proof.
  split; [vm_compute; reflexivity|]. split; [vm_compute; reflexivity|].
  eexists. split; [vm_compute; reflexivity|]. repeat split.
Qed.

Lemma fit_vertical_split h w s g :
  letterbox_fit h w s g ->
  g_top g + g_new_h g + g_bottom g = s /\
  0 <= g_top g /\ g_top g <= g_bottom g <= g_top g + 1.
Proof.
  intros Hfit. pose proof (fit_h _ _ _ _ Hfit) as Hr.
  rewrite (fit_top _ _ _ _ Hfit), (fit_bottom _ _ _ _ Hfit).
  pose proof (Z.div_mod (s - g_new_h g) 2 ltac:(lia)).
  pose proof (Z.mod_pos_bound (s - g_new_h g) 2 ltac:(lia)). lia.
Qed.

Lemma fit_horizontal_split h w s g :
  letterbox_fit h w s g ->
  g_left g + g_new_w g + g_right g = s /\
  0 <= g_left g /\ g_left g <= g_right g <= g_left g + 1.
Proof.
  intros Hfit. pose proof (fit_w _ _ _ _ Hfit) as Hr.
  rewrite (fit_left _ _ _ _ Hfit), (fit_right _ _ _ _ Hfit).
  pose proof (Z.div_mod (s - g_new_w g) 2 ltac:(lia)).
  pose proof (Z.mod_pos_bound (s - g_new_w g) 2 ltac:(lia)). lia.
Qed.

(** ** The preprocessing pipeline *)

Lemma cv2_sample_contract : cv2_contract cv2_sample.
Proof.
  constructor.
  - intros src w h interp _ _ _. reflexivity.
  - intros src [w h] interp Hsrc idx. simpl.
    destruct idx as [|i [|j [|k idx]]]; apply Hsrc.
  - intros r g b Hr Hg Hb. simpl. Lqa.lra.
  - intros img. repeat split; simpl; Lqa.lra.
Qed.

Lemma u8_unit (x : Q) :
  (0 <= x)%Q /\ (x <= 255)%Q -> (0 <= x / 255)%Q /\ (x / 255 <= 1)%Q.
Proof.
  intros [H0 H255]. split.
  - apply Qle_shift_div_l; [reflexivity|]. rewrite Qmult_0_l. exact H0.
  - apply Qle_shift_div_r; [reflexivity|]. rewrite Qmult_1_l. exact H255.
Qed.

Lemma copyMakeBorder_u8 src top bottom left right out :
  is_u8 src ->
  copyMakeBorder_reflect_101 src top bottom left right = Ok out ->
  is_u8 out.
Proof.
  unfold copyMakeBorder_reflect_101. intros Hsrc.
  destruct (_ || _); [discriminate|].
  intros [= <-] idx. simpl.
  destruct idx as [|i [|j [|k idx]]]; try apply Hsrc; split; Lqa.lra.
Qed.

Lemma copyMakeBorder_shape src top bottom left right out rows cols :
  shape src = [rows; cols] ->
  copyMakeBorder_reflect_101 src top bottom left right = Ok out ->
  shape out = [rows + top + bottom; cols + left + right].
Proof.
  unfold copyMakeBorder_reflect_101. intros Hsrc.
  destruct (_ || _); [discriminate|].
  intros [= <-]. cbn [shape]. rewrite Hsrc. reflexivity.
Qed.

Lemma copyMakeBorder_total src top bottom left right :
  0 <= top -> 0 <= bottom -> 0 <= left -> 0 <= right ->
  exists out, copyMakeBorder_reflect_101 src top bottom left right = Ok out.
Proof.
  intros Ht Hb Hl Hr. unfold copyMakeBorder_reflect_101.
  destruct (Z.ltb_spec top 0); [lia|].
  destruct (Z.ltb_spec bottom 0); [lia|].
  destruct (Z.ltb_spec left 0); [lia|].
  destruct (Z.ltb_spec right 0); [lia|].
  eexists. reflexivity.
Qed.

Lemma copyMakeBorder_inside src top bottom left right out rows cols i j :
  shape src = [rows; cols] ->
  copyMakeBorder_reflect_101 src top bottom left right = Ok out ->
  0 <= i < rows -> 0 <= j < cols ->
  item out [top + i; left + j] = item src [i; j].
Proof.
  unfold copyMakeBorder_reflect_101. intros Hsrc.
  destruct (_ || _); [discriminate|].
  intros [= <-] Hi Hj. cbn [item]. rewrite Hsrc. cbn [nth].
  replace (top + i - top) with i by lia.
  replace (left + j - left) with j by lia.
  unfold reflect_101.
  destruct (Z.leb_spec rows 1); destruct (Z.leb_spec cols 1);
    repeat rewrite Z.mod_small by lia;
    repeat match goal with
           | |- context [?a <? ?b] => destruct (Z.ltb_spec a b); try lia
           end;
    repeat f_equal; lia.
Qed.

(** [letterbox] with its geometry computed: the interpolation follows the
    comparison of the target with the longer side. *)
Lemma letterbox_resized_border (cv : cv2_api) (gray : ndarray)
    (h w s : Z) (rest : list Z) (g : letterbox_geometry) :
  shape gray = h :: w :: rest ->
  letterbox_dims h w s = Ok g -> letterbox_fit h w s g ->
  letterbox cv gray s "reflect" =
    copyMakeBorder_reflect_101
      (resize cv gray (g_new_w g, g_new_h g)
         (if s <? Z.max h w then INTER_AREA else INTER_CUBIC))
      (g_top g) (g_bottom g) (g_left g) (g_right g).
Proof.
  intros Hshape Hdims Hfit. unfold letterbox. rewrite Hshape, Hdims.
  change (String.eqb "reflect" "reflect") with true. cbv iota.
  pose proof (fit_scale _ _ _ _ Hfit) as Hscale.
  destruct (Qlt_le_dec (g_scale g) 1) as [Hlt|Hge];
    destruct (Z.ltb_spec s (Z.max h w)) as [Hs|Hs]; try reflexivity.
  - apply Hscale in Hlt. lia.
  - exfalso. apply (Qle_not_lt _ _ Hge). apply Hscale. exact Hs.
Qed.

Lemma letterbox_result cv gray h w s :
  cv2_contract cv -> shape gray = [h; w] ->
  1 <= h <= INT_MAX -> 1 <= w <= INT_MAX -> 1 <= s <= INT_MAX ->
  exists out,
    letterbox cv gray s "reflect" = Ok out /\ shape out = [s; s] /\
    (is_u8 gray -> is_u8 out).
Proof.
  intros Hcv Hshape Hh Hw Hs.
  destruct (letterbox_dims_fit h w s Hh Hw Hs) as (g & Hdims & Hfit).
  pose proof (fit_w _ _ _ _ Hfit) as Hnw.
  pose proof (fit_h _ _ _ _ Hfit) as Hnh.
  pose proof (fit_vertical_split _ _ _ _ Hfit) as (Hv & Ht & Hb).
  pose proof (fit_horizontal_split _ _ _ _ Hfit) as (Hz & Hl & Hr).
  rewrite (letterbox_resized_border cv gray h w s [] g Hshape Hdims Hfit).
  set (interp := if s <? Z.max h w then INTER_AREA else INTER_CUBIC).
  assert (Hdim : ndim gray = 2) by (unfold ndim; rewrite Hshape; reflexivity).
  pose proof (resize_shape cv Hcv gray (g_new_w g) (g_new_h g) interp
                Hdim ltac:(lia) ltac:(lia)) as Hrs.
  destruct (copyMakeBorder_total (resize cv gray (g_new_w g, g_new_h g) interp)
              (g_top g) (g_bottom g) (g_left g) (g_right g))
    as (out & Hout); try lia.
  exists out. split; [exact Hout|]. split.
  - rewrite (copyMakeBorder_shape _ _ _ _ _ _ _ _ Hrs Hout).
    f_equal; [lia|f_equal; lia].
  - intros Hg. eapply copyMakeBorder_u8; [|exact Hout].
    apply (resize_u8 cv Hcv). exact Hg.
Qed.

Lemma tensor_of_padded_unit padded :
  is_u8 padded ->
  tensor_in_unit (from_numpy_unsqueeze0 (scale_and_transpose (np_stack3_axis2 padded))).
Proof.
  intros Hp idx. simpl.
  destruct idx as [|b [|c [|i [|j [|k idx]]]]]; simpl;
    try (split; Lqa.lra).
  apply u8_unit, Hp.
Qed.

Lemma preprocess_gray_result cv img gray h w s :
  cv2_contract cv ->
  to_grayscale cv (to_uint8 cv img) = Ok gray ->
  shape gray = [h; w] -> is_u8 gray ->
  1 <= h <= INT_MAX -> 1 <= w <= INT_MAX -> 1 <= s <= INT_MAX ->
  exists padded t,
    letterbox cv gray s "reflect" = Ok padded /\ shape padded = [s; s] /\
    preprocess_decoded cv img s "reflect" = Ok t /\
    tshape t = [1; 3; s; s] /\ tensor_in_unit t /\
    forall b c i j, titem t [b; c; i; j] = (item padded [i; j] / 255)%Q.
Proof.
  intros Hcv Hgray Hshape Hu8 Hh Hw Hs.
  destruct (letterbox_result cv gray h w s Hcv Hshape Hh Hw Hs)
    as (out & Hout & Hos & Hou).
  unfold preprocess_decoded. rewrite Hgray, Hout.
  exists out. eexists. split; [reflexivity|]. split; [exact Hos|].
  split; [reflexivity|]. split; [|split].
  - simpl. rewrite Hos. reflexivity.
  - apply tensor_of_padded_unit. auto.
  - intros b c i j. reflexivity.
Qed.

Lemma to_grayscale_bgr_u8 cv img h w :
  cv2_contract cv -> shape img = [h; w; 3] -> is_u8 img ->
  exists gray,
    to_grayscale cv img = Ok gray /\ shape gray = [h; w] /\ is_u8 gray.
Proof.
  intros Hcv Hshape Hu8. unfold to_grayscale, ndim. rewrite Hshape. simpl.
  eexists. split; [reflexivity|]. split.
  - simpl. rewrite Hshape. reflexivity.
  - intros idx. simpl.
    destruct idx as [|i [|j [|k idx]]]; try (split; Lqa.lra).
    pose proof (luma_u8 cv Hcv (item img [i; j; 2 - 0]) (item img [i; j; 2 - 1])
                  (item img [i; j; 2 - 2])
                  (Hu8 _) (Hu8 _) (Hu8 _)) as Hl.
    exact Hl.
Qed.

(** C3, within OpenCV's range.  For every grey image of height [h] and width
    [w] and every target size [s], all between 1 and [INT_MAX], [letterbox]
    returns an [s] x [s] image that holds the image [cv2.resize] made of the
    input, [new_h] x [new_w], from row [top] and column [left] on; the larger
    input dimension is scaled to exactly [s] and the smaller one to within
    one pixel of its exact scaled length; the padding of each axis is split
    evenly, an odd remainder going to the bottom and to the right.  A
    512 x 384 three-channel 8-bit image at size 224 has scale 0.4375, is
    resized to 224 x 168, padded by 28 rows above and 28 below, and becomes a
    tensor of shape [1, 3, 224, 224] with values in [0, 1]. *)
Theorem letterbox_square_output (cv : cv2_api) (gray : ndarray) (h w s : Z) :
  cv2_contract cv -> shape gray = [h; w] ->
  1 <= h <= INT_MAX -> 1 <= w <= INT_MAX -> 1 <= s <= INT_MAX ->
  (exists new_w new_h top bottom left right out,
     let resized := resize cv gray (new_w, new_h)
                      (if s <? Z.max h w then INTER_AREA else INTER_CUBIC) in
     letterbox cv gray s "reflect" = Ok out /\ shape out = [s; s] /\
     shape resized = [new_h; new_w] /\
     (forall i j, 0 <= i < new_h -> 0 <= j < new_w ->
        item out [top + i; left + j] = item resized [i; j]) /\
     (h <= w -> new_w = s) /\
     (w <= h -> new_h = s) /\
     (1 <= new_w <= s /\ Z.abs (new_w * Z.max h w - w * s) <= Z.max h w) /\
     (1 <= new_h <= s /\ Z.abs (new_h * Z.max h w - h * s) <= Z.max h w) /\
     (top + new_h + bottom = s /\ 0 <= top /\ top <= bottom <= top + 1) /\
     (left + new_w + right = s /\ 0 <= left /\ left <= right <= left + 1)) /\
  (forall bytes img,
     imdecode cv bytes = Some img ->
     shape img = [384; 512; 3] -> dtype img = uint8 -> is_u8 img ->
     exists scale grey padded t,
       int_truediv 224 (Z.max 384 512) = Ok scale /\ (scale == 4375 # 10000)%Q /\
       to_grayscale cv img = Ok grey /\
       letterbox cv grey 224 "reflect" = Ok padded /\
       copyMakeBorder_reflect_101 (resize cv grey (224, 168) INTER_AREA) 28 28 0 0
         = Ok padded /\
       preprocess_image_from_bytes cv bytes 224 "reflect" = Ok t /\
       tshape t = [1; 3; 224; 224] /\ tensor_in_unit t).
Proof.
  intros Hcv Hshape Hh Hw Hs. split.
  - destruct (letterbox_dims_fit h w s Hh Hw Hs) as (g & Hdims & Hfit).
    destruct (letterbox_result cv gray h w s Hcv Hshape Hh Hw Hs)
      as (out & Hout & Hos & _).
    pose proof (fit_w _ _ _ _ Hfit) as Hnw.
    pose proof (fit_h _ _ _ _ Hfit) as Hnh.
    exists (g_new_w g), (g_new_h g), (g_top g), (g_bottom g), (g_left g),
      (g_right g), out.
    cbv zeta.
    assert (Hrs : shape (resize cv gray (g_new_w g, g_new_h g)
                           (if s <? Z.max h w then INTER_AREA else INTER_CUBIC))
                  = [g_new_h g; g_new_w g])
      by (apply (resize_shape cv Hcv); [unfold ndim; rewrite Hshape; reflexivity|lia|lia]).
    split; [exact Hout|]. split; [exact Hos|]. split; [exact Hrs|].
    split.
    { intros i j Hi Hj.
      rewrite (letterbox_resized_border cv gray h w s [] g Hshape Hdims Hfit)
        in Hout.
      exact (copyMakeBorder_inside _ _ _ _ _ _ _ _ i j Hrs Hout Hi Hj). }
    split; [exact (fit_larger_w _ _ _ _ Hfit)|].
    split; [exact (fit_larger_h _ _ _ _ Hfit)|].
    split; [split; [exact Hnw|exact (fit_w_rounding _ _ _ _ Hfit)]|].
    split; [split; [exact Hnh|exact (fit_h_rounding _ _ _ _ Hfit)]|].
    split; [exact (fit_vertical_split _ _ _ _ Hfit)|].
    exact (fit_horizontal_split _ _ _ _ Hfit).
  - intros bytes img Hdec Hish Hdt Hu8.
    destruct (to_grayscale_bgr_u8 cv img 384 512 Hcv Hish Hu8)
      as (gr & Hgr & Hgs & Hgu).
    assert (Hrange : forall n, n = 384 \/ n = 512 \/ n = 224 -> 1 <= n <= INT_MAX)
      by (unfold INT_MAX; intros n [->|[->| ->]]; lia).
    destruct (preprocess_gray_result cv img gr 384 512 224 Hcv)
      as (padded & t & Hpad & _ & Ht & Hts & Htu & _); auto.
    { unfold to_uint8. rewrite Hdt. exact Hgr. }
    destruct (letterbox_dims_fit 384 512 224) as (g & Hdims & Hfit); auto.
    assert (Hg : exists scale,
               letterbox_dims 384 512 224 = Ok (mkGeom scale 224 168 28 28 0 0) /\
               int_truediv 224 (Z.max 384 512) = Ok scale /\
               (scale == 4375 # 10000)%Q).
    { eexists. split; [vm_compute; reflexivity|].
      split; vm_compute; reflexivity. }
    destruct Hg as (scale & Hg & Hdiv & Hsc).
    rewrite Hg in Hdims. injection Hdims as <-.
    exists scale, gr, padded, t.
    split; [exact Hdiv|]. split; [exact Hsc|]. split; [exact Hgr|].
    split; [exact Hpad|]. split.
    { rewrite <- Hpad.
      rewrite (letterbox_resized_border cv gr 384 512 224 [] _ Hgs Hg Hfit).
      reflexivity. }
    split; [|split; assumption].
    unfold preprocess_image_from_bytes. rewrite Hdec. exact Ht.
Qed.

Lemma to_uint8_shape cv img :
  cv2_contract cv -> shape (to_uint8 cv img) = shape img.
Proof.
  intros Hcv. unfold to_uint8. destruct (np_dtype_eqb _ _); [reflexivity|].
  apply (normalize_u8 cv Hcv).
Qed.

Lemma to_grayscale_uint8_error cv img :
  cv2_contract cv ->
  to_grayscale cv (to_uint8 cv img) = Raise shape_error <->
  to_grayscale cv img = Raise shape_error.
Proof.
  intros Hcv. unfold to_grayscale, ndim. rewrite to_uint8_shape by assumption.
  destruct (_ && _); [split; discriminate|].
  destruct (_ =? 2); [split; discriminate|]. tauto.
Qed.

Lemma scaled_side_raises x scale e :
  scaled_side x scale = Raise e -> exn_cls e = OverflowError.
Proof.
  unfold scaled_side, float_of_int, float_round, float_mul.
  destruct (b64 (inject_Z x)); [|intros [= <-]; reflexivity].
  destruct (b64 _); [discriminate|intros [= <-]; reflexivity].
Qed.

Lemma letterbox_dims_raises h w s e :
  letterbox_dims h w s = Raise e ->
  exn_cls e = ZeroDivisionError \/ exn_cls e = OverflowError.
Proof.
  unfold letterbox_dims, int_truediv.
  destruct (_ =? 0); [intros [= <-]; left; reflexivity|].
  destruct (b64 _) as [scale|]; [|intros [= <-]; right; reflexivity].
  destruct (scaled_side w scale) as [nw|e1] eqn:Hw.
  2:{ intros [= <-]. right. exact (scaled_side_raises _ _ _ Hw). }
  destruct (scaled_side h scale) as [nh|e2] eqn:Hh; [discriminate|].
  intros [= <-]. right. exact (scaled_side_raises _ _ _ Hh).
Qed.

Lemma letterbox_not_shape_error cv gray s : letterbox cv gray s "reflect" <> Raise shape_error.
Proof.
  unfold letterbox, copyMakeBorder_reflect_101.
  destruct (shape gray) as [|h [|w rest]]; try discriminate.
  destruct (letterbox_dims h w s) as [g|e] eqn:Hd.
  - change (String.eqb "reflect" "reflect") with true. cbv iota.
    destruct (_ || _); discriminate.
  - intros [= ->]. destruct (letterbox_dims_raises _ _ _ _ Hd); discriminate.
Qed.

(** C9.  The grayscale step has exactly three cases: a 3-dimensional image
    with 3 channels is converted BGR to RGB to grey, a 2-dimensional image is
    passed through unchanged, and every other shape (a 4-channel image, for
    one) raises the ValueError that the image must be HxW or HxWx3.  It
    raises nothing else, and both entry points raise that error on a decoded
    image exactly when its shape is neither 2-D nor 3-channel. *)
Theorem grayscale_three_cases (cv : cv2_api) (img : ndarray) (s : Z) :
  cv2_contract cv ->
  let three_channel := ndim img = 3 /\ nth 2 (shape img) 0 = 3 in
  let two_dim := ndim img = 2 in
  (three_channel ->
     to_grayscale cv img = Ok (cvtColor_RGB2GRAY cv (cvtColor_BGR2RGB img))) /\
  (two_dim -> to_grayscale cv img = Ok img) /\
  (~ three_channel -> ~ two_dim -> to_grayscale cv img = Raise shape_error) /\
  (forall h w, shape img = [h; w; 4] -> to_grayscale cv img = Raise shape_error) /\
  (forall e, to_grayscale cv img = Raise e ->
     e = shape_error /\ ~ three_channel /\ ~ two_dim) /\
  (preprocess_decoded cv img s "reflect" = Raise shape_error <->
     ~ three_channel /\ ~ two_dim) /\
  (forall bytes, imdecode cv bytes = Some img ->
     (preprocess_image_from_bytes cv bytes s "reflect" = Raise shape_error <->
        ~ three_channel /\ ~ two_dim)) /\
  (forall path, imread cv path = Some img ->
     (preprocess_image cv path s "reflect" = Raise shape_error <->
        ~ three_channel /\ ~ two_dim)).
Proof.
  intros Hcv three_channel two_dim.
  assert (Hcases :
    (three_channel /\
       to_grayscale cv img = Ok (cvtColor_RGB2GRAY cv (cvtColor_BGR2RGB img))) \/
    (~ three_channel /\ two_dim /\ to_grayscale cv img = Ok img) \/
    (~ three_channel /\ ~ two_dim /\ to_grayscale cv img = Raise shape_error)).
  { unfold to_grayscale, three_channel, two_dim.
    destruct (Z.eqb_spec (ndim img) 3) as [H3|H3];
      destruct (Z.eqb_spec (nth 2 (shape img) 0) 3) as [Hc|Hc];
      destruct (Z.eqb_spec (ndim img) 2) as [H2|H2]; simpl;
      try lia; intuition lia. }
  assert (Hdec : preprocess_decoded cv img s "reflect" = Raise shape_error <->
                 ~ three_channel /\ ~ two_dim).
  { unfold preprocess_decoded.
    pose proof (to_grayscale_uint8_error cv img Hcv) as Hsame.
    split.
    - intros Hraise.
      destruct (to_grayscale cv (to_uint8 cv img)) as [gray|e] eqn:Hg.
      + exfalso. destruct (letterbox cv gray s "reflect") eqn:Hl; [discriminate|].
        injection Hraise as ->. exact (letterbox_not_shape_error _ _ _ Hl).
      + injection Hraise as ->. apply (to_grayscale_uint8_error cv img Hcv) in Hg.
        destruct Hcases as [[_ H]|[(_ & _ & H)|(Hn3 & Hn2 & _)]];
          try (rewrite H in Hg; discriminate). tauto.
    - intros [Hn3 Hn2].
      destruct Hcases as [[H _]|[(_ & H & _)|(_ & _ & H)]]; try tauto.
      apply Hsame in H. rewrite H. reflexivity. }
  split.
  { intros H. destruct Hcases as [[_ ?]|[(? & _)|(? & _)]]; tauto. }
  split.
  { intros H. destruct Hcases as [[[H3 _] _]|[(_ & _ & ?)|(_ & ? & _)]];
      try tauto. unfold two_dim in H. lia. }
  split.
  { intros Hn3 Hn2. destruct Hcases as [[? _]|[(_ & ? & _)|(_ & _ & ?)]]; tauto. }
  split.
  { intros h w Hshape.
    destruct Hcases as [[[_ Hc] _]|[(_ & H2 & _)|(_ & _ & ?)]]; try assumption.
    - rewrite Hshape in Hc. simpl in Hc. lia.
    - unfold two_dim, ndim in H2. rewrite Hshape in H2. simpl in H2. lia. }
  split.
  { intros e He.
    destruct Hcases as [[_ Hr]|[(_ & _ & Hr)|(Hn3 & Hn2 & Hr)]];
      rewrite Hr in He; try discriminate.
    injection He as <-. tauto. }
  split; [exact Hdec|].
  split.
  - intros bytes Hb. unfold preprocess_image_from_bytes. rewrite Hb. exact Hdec.
  - intros path Hp. unfold preprocess_image. rewrite Hp. exact Hdec.
Qed.

(** ** Registries and the compatibility matrix *)

Lemma dict_mem_get {V} (d : list (string * V)) k :
  dict_mem d k = true <-> exists v, dict_get d k = Some v.
Proof.
  unfold dict_mem. destruct (dict_get d k); split; eauto; try discriminate.
  intros [v Hv]. discriminate.
Qed.

Lemma dict_mem_keys {V} (d : list (string * V)) k :
  dict_mem d k = true <-> In k (dict_keys d).
Proof.
  unfold dict_mem, dict_keys. induction d as [|[k' v] d IH]; simpl.
  - split; [discriminate|tauto].
  - destruct (String.eqb_spec k k') as [->|Hne].
    + split; auto.
    + rewrite IH. split; [auto|]. intros [Heq|Hin]; [congruence|assumption].
Qed.

Lemma list_mem_In x l : list_mem x l = true <-> In x l.
Proof.
  unfold list_mem. rewrite existsb_exists. split.
  - intros (y & Hin & Heq). apply String.eqb_eq in Heq. subst. exact Hin.
  - intros Hin. exists x. split; [exact Hin|apply String.eqb_refl].
Qed.

(** C5.  [check_compatibility] never raises; it answers true exactly when
    the model is a key of the compatibility mapping and the config is in the
    list stored under it, and false for every model that is not a key. *)
Theorem check_compatibility_iff (model_name config : string) :
  (exists b, check_compatibility model_name config = Ok b) /\
  (check_compatibility model_name config = Ok true <->
     In model_name (dict_keys MODEL_CONFIG_COMPATIBILITY) /\
     exists configs,
       dict_get MODEL_CONFIG_COMPATIBILITY model_name = Some configs /\
       In config configs) /\
  (~ In model_name (dict_keys MODEL_CONFIG_COMPATIBILITY) ->
     check_compatibility model_name config = Ok false).
Proof.
  pose proof (dict_mem_keys MODEL_CONFIG_COMPATIBILITY model_name) as Hkeys.
  unfold check_compatibility, dict_index. unfold dict_mem in *.
  destruct (dict_get MODEL_CONFIG_COMPATIBILITY model_name) as [configs|];
    cbn [negb].
  - split; [eauto|]. split.
    + split.
      * intros [= Hm]. apply list_mem_In in Hm. split; [tauto|eauto].
      * intros (_ & l & [= <-] & Hin). f_equal. apply list_mem_In. exact Hin.
    + intros Hn. exfalso. tauto.
  - split; [eauto|]. split; [|reflexivity].
    split; [discriminate|]. intros (_ & l & Hl & _). discriminate.
Qed.

Lemma models_dict_mem model_name :
  dict_mem models_dict model_name = dict_mem MODEL_FILENAME_MAP model_name.
Proof.
  unfold dict_mem, models_dict, MODEL_FILENAME_MAP. cbn [dict_get].
  repeat (destruct (String.eqb model_name _); [reflexivity|]). reflexivity.
Qed.

Lemma check_compatibility_total model_name config :
  exists b, check_compatibility model_name config = Ok b.
Proof.
  unfold check_compatibility, dict_index, dict_mem.
  destruct (dict_get MODEL_CONFIG_COMPATIBILITY model_name); simpl; eauto.
Qed.

(** ** Loading and caching *)

Lemma apply_checkpoint_normalized env model blob st :
  apply_checkpoint env model blob st =
  nn_load_state_dict env model (normalized_parameters blob) st.
Proof.
  destruct blob as [items|tag]; [|reflexivity].
  unfold apply_checkpoint, normalized_parameters, dict_mem, dict_index, bind, lift.
  destruct (dict_get items "model_state_dict") as [f|]; [reflexivity|].
  destruct (dict_get items "state_dict") as [f|]; reflexivity.
Qed.

Lemma load_model_cached env model_name config st model :
  loaded_models (self st) !! cache_key model_name config = Some model ->
  load_model env model_name config st = (st, Ok model).
Proof.
  intros Hhit. unfold load_model, bind, get_self. rewrite Hhit. reflexivity.
Qed.

Lemma load_model_invalid env model_name config st :
  loaded_models (self st) !! cache_key model_name config = None ->
  ~ valid_pair model_name config ->
  exists msg, load_model env model_name config st = (st, Raise (mkExn ValueError msg)).
Proof.
  intros Hmiss Hinvalid. unfold load_model, bind, get_self, raise, lift.
  rewrite Hmiss.
  destruct (dict_mem CONFIG_SETTINGS config) eqn:Hc; cbn [negb]; [|eauto].
  destruct (dict_mem MODEL_FILENAME_MAP model_name) eqn:Hm; cbn [negb]; [|eauto].
  destruct (check_compatibility_total model_name config) as [b Hb].
  rewrite Hb. destruct b; cbn [negb]; [|eauto].
  exfalso. apply Hinvalid. unfold valid_pair. auto.
Qed.

Lemma load_model_fresh env model_name config st filename cfg a :
  loaded_models (self st) !! cache_key model_name config = None ->
  dict_get MODEL_FILENAME_MAP model_name = Some filename ->
  dict_get CONFIG_SETTINGS config = Some cfg ->
  dict_get models_dict model_name = Some a ->
  check_compatibility model_name config = Ok true ->
  let p := weights_path (self st) config filename in
  let dev := device (self st) in
  let st1 := log_append st [EvExists p] in
  let st2 := mkState (self st) (S (next_obj st))
               (storage_log st ++ [EvExists p; EvTorchLoad p])%list in
  let img := match a with
             | EfficientFormerV2S2MultiLabel => Some (cfg_image_size cfg)
             | _ => None
             end in
  let module_with sd := mkModule (next_obj st) a (num_classes (self st))
                          (dropout (self st)) img sd "cpu" true in
  load_model env model_name config st =
    if negb (path_exists env p) then
      (st1, Raise (mkExn FileNotFoundError (missing_weights_message p)))
    else
      match nn_construct env a with
      | Some e => (st1, Raise e)
      | None =>
        match torch_load env p dev with
        | Raise e => (st2, Raise e)
        | Ok blob =>
          let sd := normalized_parameters blob in
          match load_state_dict env (module_with None) sd with
          | Some e => (st2, Raise e)
          | None =>
            match module_to env (module_with (Some sd)) dev with
            | Some e => (st2, Raise e)
            | None =>
              (state_loaded st (cache_key model_name config)
                 (loaded_module st a (cfg_image_size cfg) blob) p,
               Ok (loaded_module st a (cfg_image_size cfg) blob))
            end
          end
        end
      end.
Proof.
  intros Hmiss Hfile Hcfg Harch Hcompat p dev st1 st2 img module_with.
  assert (Hc : dict_mem CONFIG_SETTINGS config = true)
    by (apply dict_mem_get; eauto).
  assert (Hm : dict_mem MODEL_FILENAME_MAP model_name = true)
    by (apply dict_mem_get; eauto).
  assert (Hd : dict_mem models_dict model_name = true)
    by (apply dict_mem_get; eauto).
  subst p dev st1 st2 img module_with.
  unfold load_model, get_model_path, get_model, bind, get_self, raise, lift, ret,
    log_storage, fresh_obj, of_failure, dict_index, weights_path, log_append,
    missing_weights_message.
  rewrite Hmiss, Hc, Hm, Hcompat, Hfile, Hcfg, Hd, Harch. cbn [negb self].
  destruct (path_exists env _); cbn [negb]; [|reflexivity].
  destruct (nn_construct env a) as [e|]; [reflexivity|].
  cbn [self next_obj storage_log].
  rewrite <- app_assoc. cbn [app].
  destruct (torch_load env _ _) as [blob|e]; [|reflexivity].
  rewrite apply_checkpoint_normalized.
  unfold nn_load_state_dict, bind, of_failure, ret.
  destruct (load_state_dict env _ _) as [e|]; [reflexivity|].
  cbn [obj_id arch m_num_classes m_dropout m_img_size m_device training self].
  destruct (module_to env _ _) as [e|]; reflexivity.
Qed.

Lemma valid_pair_data model_name config :
  valid_pair model_name config ->
  exists filename cfg a,
    dict_get MODEL_FILENAME_MAP model_name = Some filename /\
    dict_get CONFIG_SETTINGS config = Some cfg /\
    dict_get models_dict model_name = Some a.
Proof.
  intros (Hm & Hc & _).
  pose proof Hm as Hd. rewrite <- models_dict_mem in Hd.
  apply dict_mem_get in Hm, Hc, Hd.
  destruct Hm as [f Hf], Hc as [cfg Hcfg], Hd as [a Ha]. eauto 7.
Qed.

Lemma valid_pair_decide model_name config :
  valid_pair model_name config \/ ~ valid_pair model_name config.
Proof.
  unfold valid_pair.
  destruct (dict_mem MODEL_FILENAME_MAP model_name);
    destruct (dict_mem CONFIG_SETTINGS config);
    destruct (check_compatibility_total model_name config) as [[|] ->];
    try (left; tauto); right; intros (? & ? & ?); congruence.
Qed.

Lemma load_model_effect env model_name config st :
  load_effect env model_name config st
    (fst (load_model env model_name config st))
    (snd (load_model env model_name config st)).
Proof.
  destruct (loaded_models (self st) !! cache_key model_name config)
    as [model|] eqn:Hlook.
  { rewrite (load_model_cached _ _ _ _ _ Hlook). eapply LoadHit; eauto. }
  destruct (valid_pair_decide model_name config) as [Hvalid|Hinvalid].
  2:{ destruct (load_model_invalid env _ _ _ Hlook Hinvalid) as [msg ->].
      eapply LoadRejected; eauto. }
  destruct (valid_pair_data _ _ Hvalid) as (filename & cfg & a & Hf & Hcfg & Ha).
  pose proof Hvalid as (_ & _ & Hcompat).
  rewrite (load_model_fresh env _ _ _ _ _ _ Hlook Hf Hcfg Ha Hcompat).
  destruct (path_exists env _) eqn:Hex; cbn [negb].
  2:{ eapply (LoadFailed _ _ _ _ _ _ filename _ false); eauto. }
  destruct (nn_construct env a) as [e|].
  { eapply (LoadFailed _ _ _ _ _ _ filename _ false); eauto. }
  destruct (torch_load env _ _) as [blob|e] eqn:Hload.
  2:{ eapply (LoadFailed _ _ _ _ _ _ filename _ true); eauto. }
  cbv zeta.
  destruct (load_state_dict env _ _) as [e|].
  { eapply (LoadFailed _ _ _ _ _ _ filename _ true); eauto. }
  destruct (module_to env _ _) as [e|].
  { eapply (LoadFailed _ _ _ _ _ _ filename _ true); eauto. }
  eapply LoadFresh; eauto.
Qed.

Lemma predict_state env input model_name config diseases st :
  fst (predict env input model_name config diseases st) =
  fst (load_model env model_name config st).
Proof.
  unfold predict, bind, get_self, try_, ret, lift, of_failure.
  destruct (load_model env model_name config st) as [st' [model|e]]; cbn [fst].
  - destruct (dict_index CONFIG_SETTINGS config) as [cfg|e]; [|reflexivity].
    destruct (preprocess_input (cv env) input _) as [t|e]; [|reflexivity].
    destruct (tensor_to env t _); [reflexivity|].
    destruct (forward env model t _); reflexivity.
  - destruct (except_matches _ e); reflexivity.
Qed.

Lemma predict_success env input model_name config diseases st st1 model cfg t
    logits :
  load_model env model_name config st = (st1, Ok model) ->
  dict_get CONFIG_SETTINGS config = Some cfg ->
  preprocess_input (cv env) input (cfg_image_size cfg) = Ok t ->
  tensor_to env t (device (self st)) = None ->
  forward env model t (String.eqb (device (self st)) "cuda") = Ok logits ->
  predict env input model_name config diseases st =
    (st1, Ok (mkPrediction true None (combine diseases (map sigmoid logits))
                (time_end env - time_start env)%Q model_name config
                (cfg_image_size cfg) (device (self st)))).
Proof.
  intros Hload Hcfg Hpre Hto Hfwd.
  unfold predict, bind, get_self, try_, ret, lift, of_failure, dict_index.
  rewrite Hload, Hcfg, Hpre, Hto, Hfwd. reflexivity.
Qed.

Ltac run_predict :=
  erewrite predict_success;
  [ | vm_compute; reflexivity | reflexivity | vm_compute; reflexivity
    | reflexivity | reflexivity ].

(** ** Cache keys *)

Lemma has_underscore_append s t : has_underscore (s ++ "_" ++ t) = true.
Proof.
  induction s as [|a s IH]; [reflexivity|].
  change (Ascii.eqb a "_"%char || has_underscore (s ++ "_" ++ t) = true).
  rewrite IH. apply orb_true_r.
Qed.

Lemma cache_key_inj m c m0 c0 :
  has_underscore m0 = false -> has_underscore c0 = false ->
  cache_key m c = cache_key m0 c0 -> m = m0 /\ c = c0.
Proof.
  unfold cache_key. revert m0. induction m as [|a m IH]; intros [|b m0] Hm0 Hc0 Heq.
  - change (String "_" c = String "_" c0) in Heq. injection Heq as Hc. auto.
  - change (String "_" c = String b (m0 ++ "_" ++ c0)) in Heq.
    injection Heq as Hb _. subst b. simpl in Hm0. discriminate.
  - change (String a (m ++ "_" ++ c) = String "_" c0) in Heq.
    injection Heq as Ha Hrest. rewrite <- Hrest in Hc0.
    rewrite has_underscore_append in Hc0. discriminate.
  - change (String a (m ++ "_" ++ c) = String b (m0 ++ "_" ++ c0)) in Heq.
    injection Heq as Hab Hrest. subst b.
    simpl in Hm0. apply orb_false_elim in Hm0 as [_ Hm0].
    destruct (IH m0 Hm0 Hc0 Hrest) as [-> ->]. auto.
Qed.

Lemma registered_model_no_underscore m :
  dict_mem MODEL_FILENAME_MAP m = true -> has_underscore m = false.
Proof.
  unfold dict_mem, MODEL_FILENAME_MAP. cbn [dict_get].
  repeat match goal with
         | |- context [String.eqb m ?k] =>
           destruct (String.eqb_spec m k) as [->|_]; [intros _; reflexivity|]
         end.
  discriminate.
Qed.

Lemma registered_config_no_underscore c :
  dict_mem CONFIG_SETTINGS c = true -> has_underscore c = false.
Proof.
  unfold dict_mem, CONFIG_SETTINGS. cbn [dict_get].
  repeat match goal with
         | |- context [String.eqb c ?k] =>
           destruct (String.eqb_spec c k) as [->|_]; [intros _; reflexivity|]
         end.
  discriminate.
Qed.

Lemma valid_key_inj m c m0 c0 :
  valid_pair m0 c0 -> cache_key m c = cache_key m0 c0 -> m = m0 /\ c = c0.
Proof.
  intros (Hm & Hc & _). apply cache_key_inj.
  - apply registered_model_no_underscore, Hm.
  - apply registered_config_no_underscore, Hc.
Qed.

Lemma cache_valid_lookup st m c model :
  cache_valid st ->
  loaded_models (self st) !! cache_key m c = Some model ->
  valid_pair m c.
Proof.
  intros Hinv Hlook. destruct (Hinv _ _ Hlook) as (m0 & c0 & Hkey & Hvalid).
  destruct (valid_key_inj _ _ _ _ Hvalid Hkey) as [-> ->]. exact Hvalid.
Qed.

(** ** The cache invariant *)

Lemma init_cache_valid env dir dev ncls drop :
  cache_valid (init env dir dev ncls drop).
Proof. intros k m Hk. unfold init in Hk. cbn in Hk. rewrite lookup_empty in Hk. discriminate. Qed.

Lemma load_model_cache_valid env m c st :
  cache_valid st -> cache_valid (fst (load_model env m c st)).
Proof.
  intros Hinv.
  destruct (load_model_effect env m c st)
    as [model _ -> _ | msg _ _ -> _ | f e rd _ _ _ p Hself _ _
        | f cfg a blob _ Hvalid _ _ _ p _ _ -> _]; try assumption.
  - intros k md. rewrite Hself. apply Hinv.
  - intros k md. unfold state_loaded. cbn [self loaded_models].
    rewrite lookup_insert. case_decide as Hk.
    + intros _. subst k. eauto.
    + apply Hinv.
Qed.

Lemma run_call_cache_valid call st : cache_valid st -> cache_valid (run_call call st).
Proof.
  intros Hinv. destruct call as [env m c|env i m c ds|env m c|env]; cbn [run_call].
  - apply load_model_cache_valid, Hinv.
  - rewrite predict_state. apply load_model_cache_valid, Hinv.
  - intros k md. unfold get_model_path, bind, raise, lift, get_self, log_storage, ret.
    destruct (negb (dict_mem CONFIG_SETTINGS c)); [apply Hinv|].
    destruct (negb (dict_mem MODEL_FILENAME_MAP m)); [apply Hinv|].
    destruct (dict_index MODEL_FILENAME_MAP m); [|apply Hinv].
    cbn [self]. destruct (negb (path_exists env _)); apply Hinv.
  - intros k md. cbn. rewrite lookup_empty. discriminate.
Qed.

Lemma run_cache_valid calls st : cache_valid st -> cache_valid (run calls st).
Proof.
  revert st. induction calls as [|call calls IH]; intros st Hinv; [exact Hinv|].
  cbn. apply IH, run_call_cache_valid, Hinv.
Qed.

Lemma reachable_cache_valid st : reachable st -> cache_valid st.
Proof.
  intros (env & dir & dev & ncls & drop & calls & ->).
  apply run_cache_valid, init_cache_valid.
Qed.

(** ** Checkpoint formats *)


(** ** Rejections and missing weights *)

(** C8.  With no cached entry for it, model "densenet121" with "config3" is
    rejected with the incompatibility ValueError, whose message lists
    ['config1', 'config2', 'config4'] as the compatible configs of
    densenet121; the engine state, and with it the log of storage accesses,
    is left as it was, and [predict] reports the same message as a Failure
    with zero processing time. *)
Theorem densenet_config3_rejected (env : Env) (st : state) (input : image_input)
    (diseases : list string) :
  loaded_models (self st) !! cache_key "densenet121" "config3" = None ->
  let msg := incompatible_message "densenet121" "config3"
               ["config1"; "config2"; "config4"] in
  load_model env "densenet121" "config3" st = (st, Raise (mkExn ValueError msg)) /\
  storage_log (fst (load_model env "densenet121" "config3" st)) = storage_log st /\
  (exists before after,
     msg = before ++
           "Compatible configs for densenet121: ['config1', 'config2', 'config4']"
           ++ after) /\
  predict env input "densenet121" "config3" diseases st =
    (st, Ok (mkPrediction false (Some msg) [] 0 "densenet121" "config3" 224
               (device (self st)))).
Proof.
  intros Hmiss msg.
  assert (Hload : load_model env "densenet121" "config3" st
                  = (st, Raise (mkExn ValueError msg))).
  { unfold load_model, bind, get_self. rewrite Hmiss. reflexivity. }
  split; [exact Hload|].
  split; [rewrite Hload; reflexivity|].
  split.
  { exists ("Model 'densenet121' is not compatible with 'config3'." ++ nl).
    eexists. reflexivity. }
  unfold predict, bind, get_self, try_. rewrite Hload. reflexivity.
Qed.

(** C7, as the code has it.  For a registered, compatible pair that is not
    in the cache and whose weight file [models_dir / config / filename] does
    not exist, [predict] returns a Failure with processing time 0.0 whose
    error message names that path; the only storage access is the existence
    test. *)
Theorem missing_weights_failure (env : Env) (st : state) (input : image_input)
    (model_name config filename : string) (diseases : list string) :
  valid_pair model_name config ->
  dict_get MODEL_FILENAME_MAP model_name = Some filename ->
  loaded_models (self st) !! cache_key model_name config = None ->
  let p := path_div (path_div (models_dir (self st)) config) filename in
  path_exists env p = false ->
  exists cfg,
    dict_get CONFIG_SETTINGS config = Some cfg /\
    predict env input model_name config diseases st =
      (log_append st [EvExists p],
       Ok (mkPrediction false
             (Some ("Model file not found: " ++ path_str p ++ nl ++
                    "Please ensure the model is trained and saved in the correct location."))
             [] 0 model_name config (cfg_image_size cfg) (device (self st)))).
Proof.
  intros Hvalid Hfile Hmiss p Hno.
  destruct (valid_pair_data _ _ Hvalid) as (f & cfg & a & Hf & Hcfg & Ha).
  assert (f = filename) as -> by congruence.
  pose proof Hvalid as (_ & _ & Hcompat).
  exists cfg. split; [exact Hcfg|].
  unfold predict, bind, get_self, try_.
  rewrite (load_model_fresh env _ _ _ _ _ _ Hmiss Hf Hcfg Ha Hcompat).
  unfold weights_path. fold p. rewrite Hno. cbn [negb except_matches].
  rewrite Hcfg. reflexivity.
Qed.

(** ** Failures inside predict *)

(** C1, as the code has it.  In every reachable state, [predict] turns into a
    Failure outcome (success = false, an error message, model_name, config,
    image_size and device filled in): every ValueError and FileNotFoundError
    raised while loading, with processing time 0.0; every exception raised by
    preprocessing; and every exception raised by the forward pass. *)
Theorem predict_converts_caught_failures (env : Env) (input : image_input)
    (model_name config : string) (diseases : list string) (st : state) :
  reachable st ->
  let dev := device (self st) in
  let elapsed := (time_end env - time_start env)%Q in
  (forall st1 e,
     load_model env model_name config st = (st1, Raise e) ->
     exn_cls e = ValueError \/ exn_cls e = FileNotFoundError ->
     predict env input model_name config diseases st =
       (st1, Ok (mkPrediction false (Some (exn_str e)) [] 0 model_name config
                   (match dict_get CONFIG_SETTINGS config with
                    | Some cfg => cfg_image_size cfg
                    | None => 0
                    end) dev))) /\
  (forall st1 model,
     load_model env model_name config st = (st1, Ok model) ->
     exists cfg,
       dict_get CONFIG_SETTINGS config = Some cfg /\
       (forall e,
          preprocess_input (cv env) input (cfg_image_size cfg) = Raise e ->
          predict env input model_name config diseases st =
            (st1, Ok (mkPrediction false
                        (Some ("Image preprocessing failed: " ++ exn_str e))
                        [] elapsed model_name config (cfg_image_size cfg) dev))) /\
       (forall t e,
          preprocess_input (cv env) input (cfg_image_size cfg) = Ok t ->
          tensor_to env t dev = None ->
          forward env model t (String.eqb dev "cuda") = Raise e ->
          predict env input model_name config diseases st =
            (st1, Ok (mkPrediction false
                        (Some ("Model inference failed: " ++ exn_str e))
                        [] elapsed model_name config (cfg_image_size cfg) dev)))).
Proof.
  intros Hreach dev elapsed. split.
  - intros st1 e Hload Hcls.
    unfold predict, bind, get_self, try_. rewrite Hload.
    assert (except_matches [ValueError; FileNotFoundError] e = true) as ->.
    { unfold except_matches. destruct Hcls as [-> | ->]; reflexivity. }
    reflexivity.
  - intros st1 model Hload.
    assert (Hvalid : valid_pair model_name config).
    { pose proof (load_model_effect env model_name config st) as Heff.
      rewrite Hload in Heff. cbn [fst snd] in Heff.
      destruct Heff as [md Hhit _ _ | msg _ _ _ Hr | f e rd _ _ _ p _ _ Hr
                        | f cfg a read _ Hv _ _ _ p _ _ _ _];
        try congruence.
      eapply cache_valid_lookup; [apply reachable_cache_valid|]; eassumption. }
    destruct (valid_pair_data _ _ Hvalid) as (f & cfg & a & _ & Hcfg & _).
    exists cfg. split; [exact Hcfg|]. split.
    + intros e Hpre. unfold predict, bind, get_self, try_, lift, dict_index.
      rewrite Hload, Hcfg, Hpre. reflexivity.
    + intros t e Hpre Hto Hfwd.
      unfold predict, bind, get_self, try_, lift, dict_index, of_failure.
      rewrite Hload, Hcfg, Hpre. fold dev. rewrite Hto, Hfwd. reflexivity.
Qed.

(** ** The cache never serves an invalid pair *)

(** C10.  In every reachable state each key of [loaded_models] is the key of
    a registered model and a registered config that are compatible.  So a
    model that [load_model] returns always belongs to such a pair, and for a
    pair that is unregistered or incompatible [load_model] raises a
    ValueError and leaves the state alone, cache consulted first or not. *)
Theorem cache_keys_are_valid_pairs (st : state) :
  reachable st ->
  (forall k m, loaded_models (self st) !! k = Some m ->
     exists model_name config,
       k = cache_key model_name config /\
       dict_mem MODEL_FILENAME_MAP model_name = true /\
       dict_mem CONFIG_SETTINGS config = true /\
       check_compatibility model_name config = Ok true) /\
  (forall env model_name config st' model,
     load_model env model_name config st = (st', Ok model) ->
     valid_pair model_name config) /\
  (forall env model_name config,
     dict_mem MODEL_FILENAME_MAP model_name = false \/
     dict_mem CONFIG_SETTINGS config = false \/
     check_compatibility model_name config = Ok false ->
     loaded_models (self st) !! cache_key model_name config = None /\
     exists msg,
       load_model env model_name config st = (st, Raise (mkExn ValueError msg))).
Proof.
  intros Hreach. pose proof (reachable_cache_valid st Hreach) as Hinv.
  split; [exact Hinv|]. split.
  - intros env model_name config st' model Hload.
    pose proof (load_model_effect env model_name config st) as Heff.
    rewrite Hload in Heff. cbn [fst snd] in Heff.
    destruct Heff as [md Hhit _ _ | msg _ _ _ Hr | f e rd _ _ _ p _ _ Hr
                      | f cfg a read _ Hv _ _ _ p _ _ _ _];
      try congruence.
    eapply cache_valid_lookup; eassumption.
  - intros env model_name config Hbad.
    assert (Hinvalid : ~ valid_pair model_name config).
    { intros (Hm & Hc & Hk). destruct Hbad as [H|[H|H]]; congruence. }
    assert (Hmiss : loaded_models (self st) !! cache_key model_name config = None).
    { destruct (loaded_models (self st) !! cache_key model_name config)
        as [md|] eqn:Hlook; [|reflexivity].
      exfalso. apply Hinvalid. eapply cache_valid_lookup; eassumption. }
    split; [exact Hmiss|]. apply load_model_invalid; assumption.
Qed.

(** ** At most one read per cached key *)

Lemma reads_of_app p l1 l2 :
  reads_of p (l1 ++ l2) = (reads_of p l1 + reads_of p l2)%nat.
Proof.
  induction l1 as [|[q|q] l1 IH]; cbn [app reads_of]; [reflexivity|exact IH|].
  rewrite IH. lia.
Qed.

Lemma filename_inj m m' f :
  dict_get MODEL_FILENAME_MAP m = Some f ->
  dict_get MODEL_FILENAME_MAP m' = Some f -> m = m'.
Proof.
  unfold MODEL_FILENAME_MAP. cbn [dict_get].
  repeat match goal with
         | |- context [String.eqb m ?k] =>
           destruct (String.eqb_spec m k) as [->|_]
         end;
  repeat match goal with
         | |- context [String.eqb m' ?k] =>
           destruct (String.eqb_spec m' k) as [->|_]
         end;
  intros H1 H2; try discriminate; try congruence.
Qed.

Lemma weights_path_inj s c f c' f' :
  weights_path s c f = weights_path s c' f' -> c = c' /\ f = f'.
Proof.
  unfold weights_path, path_div. intros H.
  apply app_inj_tail in H as [H ->]. apply app_inj_tail in H as [_ ->]. auto.
Qed.

Section Frame.
Variables (model_name config filename : string) (obj : module).
Hypothesis Hvalid : valid_pair model_name config.
Hypothesis Hfile : dict_get MODEL_FILENAME_MAP model_name = Some filename.

Local Abbreviation kept := (kept_entry model_name config filename obj).

Lemma other_pair_other_path st m c f :
  loaded_models (self st) !! cache_key model_name config = Some obj ->
  loaded_models (self st) !! cache_key m c = None ->
  dict_get MODEL_FILENAME_MAP m = Some f ->
  weights_path (self st) c f <> weights_path (self st) config filename.
Proof.
  intros Hhit Hmiss Hf Heq. apply weights_path_inj in Heq as [-> ->].
  rewrite (filename_inj _ _ _ Hf Hfile) in Hmiss. congruence.
Qed.

Lemma load_model_kept env m c st :
  loaded_models (self st) !! cache_key model_name config = Some obj ->
  kept st (fst (load_model env m c st)).
Proof.
  intros Hhit. unfold kept_entry.
  destruct (load_model_effect env m c st)
    as [md _ -> _ | msg _ _ -> _ | f e rd Hmiss _ Hf p Hself Hlog _
        | f cfg a blob Hmiss _ Hf _ _ p _ _ -> _]; auto.
  - rewrite Hself, Hlog, reads_of_app. repeat split; auto.
    pose proof (other_pair_other_path st m c f Hhit Hmiss Hf) as Hne.
    fold p in Hne. destruct rd; cbn [reads_of]; [|lia].
    rewrite bool_decide_eq_false_2 by exact Hne. lia.
  - unfold state_loaded. cbn [self loaded_models models_dir storage_log].
    pose proof (other_pair_other_path st m c f Hhit Hmiss Hf) as Hne.
    fold p in Hne. repeat split.
    + rewrite lookup_insert_ne; [exact Hhit|]. congruence.
    + rewrite reads_of_app. cbn [reads_of].
      rewrite bool_decide_eq_false_2 by exact Hne. lia.
Qed.

Lemma run_call_kept call st :
  is_clear call = false ->
  loaded_models (self st) !! cache_key model_name config = Some obj ->
  kept st (run_call call st).
Proof.
  intros Hnc Hhit. destruct call as [env m c|env i m c ds|env m c|env];
    cbn [run_call]; try discriminate.
  - apply load_model_kept, Hhit.
  - rewrite predict_state. apply load_model_kept, Hhit.
  - unfold kept_entry, get_model_path, bind, raise, lift, get_self, log_storage, ret.
    destruct (negb (dict_mem CONFIG_SETTINGS c)); [auto|].
    destruct (negb (dict_mem MODEL_FILENAME_MAP m)); [auto|].
    destruct (dict_index MODEL_FILENAME_MAP m); [|auto].
    cbn [self]. destruct (negb (path_exists env _));
      cbn [fst self storage_log]; rewrite reads_of_app; cbn [reads_of];
      repeat split; auto; lia.
Qed.

Lemma run_kept calls st :
  forallb (fun c => negb (is_clear c)) calls = true ->
  loaded_models (self st) !! cache_key model_name config = Some obj ->
  kept st (run calls st).
Proof.
  revert st. induction calls as [|call calls IH]; intros st Hnc Hhit.
  - unfold kept_entry. cbn. auto.
  - cbn [forallb] in Hnc. apply andb_prop in Hnc as [Hc Hcs].
    apply negb_true_iff in Hc.
    destruct (run_call_kept call st Hc Hhit) as (Hhit1 & Hdir1 & Hreads1).
    destruct (IH (run_call call st) Hcs Hhit1) as (Hhit2 & Hdir2 & Hreads2).
    change (run (call :: calls) st) with (run calls (run_call call st)).
    unfold kept_entry. repeat split; [exact Hhit2|congruence|].
    unfold weights_path in *. rewrite Hdir1 in Hreads2. congruence.
Qed.
End Frame.

(** C2, from the first successful load on.  On a reachable engine, once
    [load_model] has returned a model for a pair, and whatever calls other
    than [clear_cache] follow, [load_model] on the same pair returns that
    very object and leaves the state as it is: no storage access, no new
    module.  From before the successful call to after the later one, the
    weight file of the pair is read at most once.  (Loads that failed
    earlier are not counted: each of them may have read the file.) *)
Theorem load_twice_same_instance (env1 env2 : Env)
    (model_name config filename : string) (st st1 : state) (obj : module)
    (calls : list call) :
  reachable st ->
  dict_get MODEL_FILENAME_MAP model_name = Some filename ->
  load_model env1 model_name config st = (st1, Ok obj) ->
  forallb (fun c => negb (is_clear c)) calls = true ->
  let st2 := run calls st1 in
  let p := weights_path (self st) config filename in
  load_model env2 model_name config st2 = (st2, Ok obj) /\
  reads_of p (storage_log st2) = reads_of p (storage_log st1) /\
  (reads_of p (storage_log (fst (load_model env2 model_name config st2)))
   <= reads_of p (storage_log st) + 1)%nat.
Proof.
  intros Hreach Hfile Hload Hnc st2 p.
  pose proof (reachable_cache_valid st Hreach) as Hinv.
  pose proof (load_model_effect env1 model_name config st) as Heff.
  rewrite Hload in Heff. cbn [fst snd] in Heff.
  assert (Hfirst :
    valid_pair model_name config /\
    loaded_models (self st1) !! cache_key model_name config = Some obj /\
    models_dir (self st1) = models_dir (self st) /\
    (reads_of p (storage_log st1) <= reads_of p (storage_log st) + 1)%nat).
  { destruct Heff as [md Hhit -> Hr | msg _ _ _ Hr | f e rd _ _ _ q _ _ Hr
                      | f cfg a read _ Hv Hf _ _ q _ _ -> Hr];
      try congruence.
    - injection Hr as ->.
      split; [eapply cache_valid_lookup; eassumption|].
      repeat split; auto; lia.
    - injection Hr as ->. unfold state_loaded.
      cbn [self loaded_models models_dir storage_log].
      split; [exact Hv|]. split; [apply lookup_insert_eq|].
      split; [reflexivity|].
      rewrite reads_of_app. cbn [reads_of].
      destruct (bool_decide _); lia. }
  destruct Hfirst as (Hvalid & Hhit1 & Hdir1 & Hreads1).
  destruct (run_kept model_name config filename obj Hfile calls st1 Hnc Hhit1)
    as (Hhit2 & Hdir2 & Hreads2).
  fold st2 in Hhit2, Hdir2, Hreads2.
  assert (Hp : weights_path (self st1) config filename = p).
  { unfold p, weights_path. rewrite Hdir1. reflexivity. }
  rewrite Hp in Hreads2.
  rewrite (load_model_cached env2 _ _ _ _ Hhit2). cbn [fst].
  split; [reflexivity|]. split; [exact Hreads2|]. lia.
Qed.

(** ** The sigmoid *)

Lemma sigmoid_unit x : (0 <= sigmoid x <= 1)%R.
Proof.
  unfold sigmoid. pose proof (exp_pos (- x)) as Hexp.
  assert (Hden : (0 < 1 + exp (- x))%R) by Lra.lra.
  split.
  - apply Rlt_le, Rdiv_lt_0_compat; Lra.lra.
  - apply (Rmult_le_reg_r (1 + exp (- x))); [exact Hden|].
    unfold Rdiv. rewrite Rmult_assoc, Rinv_l by Lra.lra. Lra.lra.
Qed.

(** ** The theorems at concrete inputs *)

Ltac from_init :=
  exists env_sample, ["models"], None, 6, (3 # 10)%Q.

(** A 3 x 5 grey image letterboxed to 8 x 8. *)
Lemma letterbox_square_output_witness :
  cv2_contract cv2_sample /\ shape gray_3x5 = [3; 5] /\
  exists out, letterbox cv2_sample gray_3x5 8 "reflect" = Ok out /\ shape out = [8; 8].
Proof.
  assert (Hrange : forall n, n = 3 \/ n = 5 \/ n = 8 -> 1 <= n <= INT_MAX)
    by (unfold INT_MAX; intros n [->|[->| ->]]; lia).
  destruct (letterbox_square_output cv2_sample gray_3x5 3 5 8
              cv2_sample_contract eq_refl
              (Hrange 3 ltac:(auto)) (Hrange 5 ltac:(auto)) (Hrange 8 ltac:(auto)))
    as ((nw & nh & top & bottom & left & right & out & Hout & Hshape & _) & _).
  split; [exact cv2_sample_contract|]. split; [reflexivity|].
  exists out. split; assumption.
Defined.

(** Beyond the range of the floats the claim fails.  A target of [2 ^ 1024]
    cannot be divided: line 10 raises OverflowError.  With a target of
    [2 ^ 53 + 3] the scale of a 1 x 1 image is rounded to [2 ^ 53 + 4]: the
    resized side is longer than the target, the padding is negative and no
    image is returned. *)
Lemma letterbox_target_beyond_floats :
  cv2_contract cv2_sample /\ shape gray_1x1 = [1; 1] /\
  letterbox cv2_sample gray_1x1 (2 ^ 1024) "reflect"
  = Raise (mkExn OverflowError "integer division result too large for a float") /\
  (exists g, letterbox_dims 1 1 (2 ^ 53 + 3) = Ok g /\
             g_new_w g = 2 ^ 53 + 4 /\ g_new_h g = 2 ^ 53 + 4 /\
             g_top g = -1 /\ g_left g = -1) /\
  ~ (exists out, letterbox cv2_sample gray_1x1 (2 ^ 53 + 3) "reflect" = Ok out).
Proof.
  split; [exact cv2_sample_contract|]. split; [reflexivity|].
  split; [vm_compute; reflexivity|]. split.
  - eexists. split; [vm_compute; reflexivity|]. repeat split.
  - intros [out Hout]. vm_compute in Hout. discriminate Hout.
Qed.

(** A four-channel image is refused by both entry points. *)
Lemma grayscale_three_cases_witness :
  cv2_contract cv2_sample /\
  to_grayscale cv2_sample bgra_2x2 = Raise shape_error /\
  preprocess_decoded cv2_sample bgra_2x2 224 "reflect" = Raise shape_error.
Proof.
  pose proof (grayscale_three_cases cv2_sample bgra_2x2 224 cv2_sample_contract)
    as (_ & _ & _ & H4 & _ & Hdec & _).
  split; [exact cv2_sample_contract|].
  split; [apply (H4 2 2); reflexivity|].
  apply Hdec. split; [intros [_ H]; discriminate H | intros H; discriminate H].
Defined.

(** The load-stage RuntimeError of a checkpoint that does not fit the module
    leaves [predict] as an exception: no outcome is returned. *)
Lemma weight_mismatch_escapes_predict :
  reachable st0 /\
  path_exists env_mismatch (weights_path (self st0) "config1" "densenet121.pth") = true /\
  snd (predict env_mismatch (ImageBytes one_byte) "densenet121" "config1" DISEASES st0)
  = Raise (mkExn RuntimeError
       "Error(s) in loading state_dict for DenseNet121MultiLabel: size mismatch for classifier.weight") /\
  ~ (exists d,
       snd (predict env_mismatch (ImageBytes one_byte) "densenet121" "config1"
              DISEASES st0) = Ok d).
Proof.
  split; [from_init; exists []; reflexivity|].
  split; [reflexivity|]. split; [reflexivity|].
  intros [d Hd]. discriminate Hd.
Qed.

(** A corrupt upload after a successful load. *)
Lemma predict_converts_caught_failures_witness :
  reachable st_loaded /\
  snd (predict env_sample (ImageBytes []) "densenet121" "config1" DISEASES st_loaded)
  = Ok (mkPrediction false
          (Some "Image preprocessing failed: Cannot decode image from bytes")
          [] (time_end env_sample - time_start env_sample)%Q
          "densenet121" "config1" 224 "cpu").
Proof.
  assert (Hreach : reachable st_loaded).
  { from_init. exists [CallLoad env_sample "densenet121" "config1"]. reflexivity. }
  split; [exact Hreach|].
  pose proof (predict_converts_caught_failures env_sample (ImageBytes [])
                "densenet121" "config1" DISEASES st_loaded Hreach) as (_ & Hok).
  destruct (Hok st_loaded densenet_loaded eq_refl) as (cfg & Hcfg & Hpre & _).
  injection Hcfg as <-.
  rewrite (Hpre (mkExn ValueError "Cannot decode image from bytes") eq_refl).
  reflexivity.
Defined.

(** The second load of a pair answers from the cache, weights gone or not. *)
Lemma load_twice_same_instance_witness :
  reachable st0 /\
  load_model env_sample "densenet121" "config1" st0 = (st_loaded, Ok densenet_loaded) /\
  load_model env_no_weights "densenet121" "config1" (run calls_after_load st_loaded)
  = (run calls_after_load st_loaded, Ok densenet_loaded).
Proof.
  assert (Hreach : reachable st0) by (from_init; exists []; reflexivity).
  split; [exact Hreach|]. split; [reflexivity|].
  apply (load_twice_same_instance env_sample env_no_weights
           "densenet121" "config1" "densenet121.pth" st0 st_loaded densenet_loaded
           calls_after_load Hreach eq_refl eq_refl eq_refl).
Defined.

(** One cache lifetime, two reads of the same weight file: the first load
    reads a checkpoint that does not fit the module, raises and caches
    nothing; the second reads the file again and succeeds; the third is
    answered from the cache with the object of the second. *)
Lemma failed_load_is_read_again :
  let p := weights_path (self st0) "config1" "densenet121.pth" in
  let st1 := fst (load_model env_mismatch "densenet121" "config1" st0) in
  let st2 := fst (load_model env_sample "densenet121" "config1" st1) in
  let st3 := fst (load_model env_sample "densenet121" "config1" st2) in
  reachable st0 /\
  (exists msg, snd (load_model env_mismatch "densenet121" "config1" st0)
               = Raise (mkExn RuntimeError msg)) /\
  loaded_models (self st1) = loaded_models (self st0) /\
  reads_of p (storage_log st1) = 1%nat /\
  (exists obj,
     snd (load_model env_sample "densenet121" "config1" st1) = Ok obj /\
     snd (load_model env_sample "densenet121" "config1" st2) = Ok obj) /\
  reads_of p (storage_log st2) = 2%nat /\
  reads_of p (storage_log st3) = 2%nat.
Proof.
  cbv zeta.
  split; [from_init; exists []; reflexivity|].
  split; [eexists; vm_compute; reflexivity|].
  split; [vm_compute; reflexivity|].
  split; [vm_compute; reflexivity|].
  split; [eexists; split; vm_compute; reflexivity|].
  split; vm_compute; reflexivity.
Qed.

(** A fresh engine rejects densenet121 with config3 without touching
    storage. *)
Lemma densenet_config3_rejected_witness :
  loaded_models (self st0) !! cache_key "densenet121" "config3" = None /\
  storage_log (fst (load_model env_sample "densenet121" "config3" st0)) = [] /\
  exists msg,
    snd (load_model env_sample "densenet121" "config3" st0)
    = Raise (mkExn ValueError msg).
Proof.
  pose proof (densenet_config3_rejected env_sample st0 (ImageBytes one_byte)
                DISEASES eq_refl) as (Hload & Hlog & _).
  split; [reflexivity|]. split; [exact Hlog|].
  eexists. rewrite Hload. reflexivity.
Defined.

(** No weights on disk and nothing cached: a Failure in no time. *)
Lemma missing_weights_failure_witness :
  valid_pair "densenet121" "config1" /\
  path_exists env_no_weights ["models"; "config1"; "densenet121.pth"] = false /\
  exists d,
    snd (predict env_no_weights (ImageBytes one_byte) "densenet121" "config1"
           DISEASES st0) = Ok d /\
    success d = false /\ processing_time d = 0%Q /\
    error d = Some ("Model file not found: models/config1/densenet121.pth" ++ nl ++
                    "Please ensure the model is trained and saved in the correct location.").
Proof.
  assert (Hvalid : valid_pair "densenet121" "config1") by (repeat split).
  split; [exact Hvalid|]. split; [reflexivity|].
  destruct (missing_weights_failure env_no_weights st0 (ImageBytes one_byte)
              "densenet121" "config1" "densenet121.pth" DISEASES
              Hvalid eq_refl eq_refl eq_refl) as (cfg & Hcfg & Hpred).
  eexists. rewrite Hpred. cbn [snd]. split; [reflexivity|].
  repeat split.
Defined.

(** With the model cached, the missing weight file goes unnoticed and the
    prediction succeeds. *)
Lemma cached_model_hides_missing_weights :
  reachable st_loaded /\
  valid_pair "densenet121" "config1" /\
  path_exists env_no_weights (weights_path (self st_loaded) "config1" "densenet121.pth")
  = false /\
  exists d,
    snd (predict env_no_weights (ImageBytes one_byte) "densenet121" "config1"
           DISEASES st_loaded) = Ok d /\
    success d = true /\ error d = None /\ ~ (processing_time d == 0)%Q.
Proof.
  split.
  { from_init. exists [CallLoad env_sample "densenet121" "config1"]. reflexivity. }
  split; [repeat split|]. split; [reflexivity|].
  eexists. split; [run_predict; reflexivity|]. cbn [success error processing_time].
  split; [reflexivity|]. split; [reflexivity|]. intros H. discriminate H.
Qed.

(** The invariant on an engine that has loaded one model. *)
Lemma cache_keys_are_valid_pairs_witness :
  reachable st_loaded /\
  exists msg,
    load_model env_sample "densenet121" "config3" st_loaded
    = (st_loaded, Raise (mkExn ValueError msg)).
Proof.
  assert (Hreach : reachable st_loaded).
  { from_init. exists [CallLoad env_sample "densenet121" "config1"]. reflexivity. }
  split; [exact Hreach|].
  destruct (cache_keys_are_valid_pairs st_loaded Hreach) as (_ & _ & Hbad).
  destruct (Hbad env_sample "densenet121" "config3") as (_ & msg & Hmsg).
  { right. right. reflexivity. }
  exists msg. exact Hmsg.
Defined.

(** * Further properties of the code *)

(** ** preprocessing.py *)

(** X1.  The scale [letterbox] computes in binary64 is the exact ratio of
    the target to the longer side within one part in [2 ^ 53], and it is
    below 1.0 exactly when the target is smaller than the longer side:
    [letterbox] then resizes with area averaging, and with cubic
    interpolation otherwise; what it returns is the reflect-101 border put
    around that resized image. *)
Theorem letterbox_interpolation_choice (cv : cv2_api) (gray : ndarray)
    (h w s : Z) (rest : list Z) :
  shape gray = h :: w :: rest ->
  1 <= h <= INT_MAX -> 1 <= w <= INT_MAX -> 1 <= s <= INT_MAX ->
  exists g,
    letterbox_dims h w s = Ok g /\
    (Qabs (g_scale g - inject_Z s / inject_Z (Z.max h w))
     <= inject_Z s / inject_Z (Z.max h w) * 2 ^ (-53))%Q /\
    ((g_scale g < 1)%Q <-> s < Z.max h w) /\
    letterbox cv gray s "reflect" =
      copyMakeBorder_reflect_101
        (resize cv gray (g_new_w g, g_new_h g)
           (if s <? Z.max h w then INTER_AREA else INTER_CUBIC))
        (g_top g) (g_bottom g) (g_left g) (g_right g).
Proof.
  intros Hshape Hh Hw Hs.
  destruct (letterbox_dims_fit h w s Hh Hw Hs) as (g & Hdims & Hfit).
  exists g. split; [exact Hdims|]. split.
  { destruct (fit_scale_near _ _ _ _ Hfit) as [H1 H2].
    fold b64_eps. rewrite b64_eps_val in *.
    apply Qabs_Qle_condition. split; Lqa.lra. }
  split; [exact (fit_scale _ _ _ _ Hfit)|].
  apply (letterbox_resized_border cv gray h w s rest g); assumption.
Qed.

Lemma letterbox_interpolation_choice_witness :
  letterbox cv2_sample gray_3x5 8 "reflect" =
    copyMakeBorder_reflect_101 (resize cv2_sample gray_3x5 (8, 5) INTER_CUBIC)
      1 2 0 0 /\
  letterbox cv2_sample gray_3x5 2 "reflect" =
    copyMakeBorder_reflect_101 (resize cv2_sample gray_3x5 (2, 1) INTER_AREA)
      0 1 0 0.
Proof.
  assert (Hrange : forall n, n = 2 \/ n = 3 \/ n = 5 \/ n = 8 ->
                             1 <= n <= INT_MAX)
    by (unfold INT_MAX; intros n [->|[->|[->| ->]]]; lia).
  split.
  - destruct (letterbox_interpolation_choice cv2_sample gray_3x5 3 5 8 []
                eq_refl (Hrange 3 ltac:(auto)) (Hrange 5 ltac:(auto))
                (Hrange 8 ltac:(auto))) as (g & Hdims & _ & _ & Hbox).
    vm_compute in Hdims. injection Hdims as <-. exact Hbox.
  - destruct (letterbox_interpolation_choice cv2_sample gray_3x5 3 5 2 []
                eq_refl (Hrange 3 ltac:(auto)) (Hrange 5 ltac:(auto))
                (Hrange 2 ltac:(auto))) as (g & Hdims & _ & _ & Hbox).
    vm_compute in Hdims. injection Hdims as <-. exact Hbox.
Defined.

(** X2.  [letterbox] pads only the shorter side: for an image at least as
    wide as it is high the resized image is as wide as the target and no
    column is added, for one at least as high as wide it is as high as the
    target and no row is added, and a square image is resized to the target
    and returned without a border. *)
Theorem letterbox_pads_shorter_side (cv : cv2_api) (gray : ndarray) (h w s : Z) :
  cv2_contract cv -> shape gray = [h; w] ->
  1 <= h <= INT_MAX -> 1 <= w <= INT_MAX -> 1 <= s <= INT_MAX ->
  let interp := if s <? Z.max h w then INTER_AREA else INTER_CUBIC in
  (h <= w -> exists new_h top bottom,
     letterbox cv gray s "reflect" =
       copyMakeBorder_reflect_101 (resize cv gray (s, new_h) interp)
         top bottom 0 0) /\
  (w <= h -> exists new_w left right,
     letterbox cv gray s "reflect" =
       copyMakeBorder_reflect_101 (resize cv gray (new_w, s) interp)
         0 0 left right) /\
  (h = w -> exists out,
     letterbox cv gray s "reflect" = Ok out /\ shape out = [s; s] /\
     forall i j, 0 <= i < s -> 0 <= j < s ->
       item out [i; j] = item (resize cv gray (s, s) interp) [i; j]).
Proof.
  intros Hcv Hshape Hh Hw Hs interp.
  destruct (letterbox_dims_fit h w s Hh Hw Hs) as (g & Hdims & Hfit).
  pose proof (letterbox_resized_border cv gray h w s [] g Hshape Hdims Hfit)
    as Hbox. fold interp in Hbox.
  pose proof (fit_vertical_split _ _ _ _ Hfit) as (Hv & Ht & Hb).
  pose proof (fit_horizontal_split _ _ _ _ Hfit) as (Hz & Hl & Hr).
  pose proof (fit_larger_w _ _ _ _ Hfit) as Hlw.
  pose proof (fit_larger_h _ _ _ _ Hfit) as Hlh.
  split; [|split].
  - intros Hcmp. specialize (Hlw Hcmp).
    exists (g_new_h g), (g_top g), (g_bottom g).
    rewrite Hbox, Hlw.
    replace (g_left g) with 0 by lia. replace (g_right g) with 0 by lia.
    reflexivity.
  - intros Hcmp. specialize (Hlh Hcmp).
    exists (g_new_w g), (g_left g), (g_right g).
    rewrite Hbox, Hlh.
    replace (g_top g) with 0 by lia. replace (g_bottom g) with 0 by lia.
    reflexivity.
  - intros Hcmp. specialize (Hlw ltac:(lia)). specialize (Hlh ltac:(lia)).
    rewrite Hlw, Hlh in Hbox.
    replace (g_top g) with 0 in Hbox by lia.
    replace (g_bottom g) with 0 in Hbox by lia.
    replace (g_left g) with 0 in Hbox by lia.
    replace (g_right g) with 0 in Hbox by lia.
    destruct (letterbox_result cv gray h w s Hcv Hshape Hh Hw Hs)
      as (out & Hout & Hos & _).
    exists out. split; [exact Hout|]. split; [exact Hos|].
    intros i j Hi Hj. rewrite Hout in Hbox. symmetry in Hbox.
    assert (Hrs : shape (resize cv gray (s, s) interp) = [s; s])
      by (apply (resize_shape cv Hcv); [unfold ndim; rewrite Hshape; reflexivity|lia|lia]).
    exact (copyMakeBorder_inside _ 0 0 0 0 _ _ _ i j Hrs Hbox Hi Hj).
Qed.

Lemma letterbox_pads_shorter_side_witness :
  (exists new_h top bottom,
     letterbox cv2_sample gray_3x5 8 "reflect" =
       copyMakeBorder_reflect_101 (resize cv2_sample gray_3x5 (8, new_h) INTER_CUBIC)
         top bottom 0 0) /\
  (exists out,
     letterbox cv2_sample gray_2x2 224 "reflect" = Ok out /\ shape out = [224; 224]).
Proof.
  assert (Hrange : forall n, n = 2 \/ n = 3 \/ n = 5 \/ n = 8 \/ n = 224 ->
                             1 <= n <= INT_MAX)
    by (unfold INT_MAX; intros n [->|[->|[->|[->| ->]]]]; lia).
  split.
  - destruct (letterbox_pads_shorter_side cv2_sample gray_3x5 3 5 8
                cv2_sample_contract eq_refl (Hrange 3 ltac:(auto))
                (Hrange 5 ltac:(auto)) (Hrange 8 ltac:(auto 10))) as (Hwide & _).
    exact (Hwide ltac:(lia)).
  - destruct (letterbox_pads_shorter_side cv2_sample gray_2x2 2 2 224
                cv2_sample_contract eq_refl (Hrange 2 ltac:(auto))
                (Hrange 2 ltac:(auto)) (Hrange 224 ltac:(auto 10)))
      as (_ & _ & Hsq).
    destruct (Hsq eq_refl) as (out & Hout & Hos & _).
    exists out. split; assumption.
Defined.

Lemma reflect_101_inside p len : 0 <= p < len -> reflect_101 p len = p.
Proof.
  intros Hp. unfold reflect_101.
  destruct (Z.leb_spec len 1); [lia|].
  rewrite Z.mod_small by lia.
  destruct (Z.ltb_spec p len); lia.
Qed.

Lemma reflect_101_before k len : 1 <= k < len -> reflect_101 (- k) len = k.
Proof.
  intros Hk. unfold reflect_101.
  destruct (Z.leb_spec len 1); [lia|].
  assert (Hmod : (- k) mod (2 * (len - 1)) = 2 * (len - 1) - k).
  { symmetry. apply (Z.mod_unique _ _ (-1)); lia. }
  rewrite Hmod. destruct (Z.ltb_spec (2 * (len - 1) - k) len); lia.
Qed.

Lemma reflect_101_after k len :
  1 <= k < len -> reflect_101 (len - 1 + k) len = len - 1 - k.
Proof.
  intros Hk. unfold reflect_101.
  destruct (Z.leb_spec len 1); [lia|].
  destruct (Z.eq_dec k (len - 1)) as [->|Hne].
  - replace (len - 1 + (len - 1)) with (1 * (2 * (len - 1))) by lia.
    rewrite Z.mod_mul by lia. destruct (Z.ltb_spec 0 len); lia.
  - rewrite Z.mod_small by lia.
    destruct (Z.ltb_spec (len - 1 + k) len); lia.
Qed.

(** X3.  The border [letterbox] puts around the resized image mirrors it:
    the rows above it repeat the rows below its first row, the rows below it
    the rows above its last row, neither repeating the edge row itself (the
    101 reflection); columns likewise.  Between the borders the resized
    image is unchanged. *)
Theorem letterbox_border_reflects (cv : cv2_api) (gray : ndarray) (h w s : Z) :
  cv2_contract cv -> shape gray = [h; w] ->
  1 <= h <= INT_MAX -> 1 <= w <= INT_MAX -> 1 <= s <= INT_MAX ->
  exists g out,
    letterbox_dims h w s = Ok g /\
    letterbox cv gray s "reflect" = Ok out /\
    let resized := resize cv gray (g_new_w g, g_new_h g)
                     (if s <? Z.max h w then INTER_AREA else INTER_CUBIC) in
    (forall i j, 0 <= i < g_new_h g -> 0 <= j < g_new_w g ->
       item out [g_top g + i; g_left g + j] = item resized [i; j]) /\
    (forall k j, 1 <= k < g_new_h g -> 0 <= j < g_new_w g ->
       item out [g_top g - k; g_left g + j] = item resized [k; j] /\
       item out [g_top g + g_new_h g - 1 + k; g_left g + j]
       = item resized [g_new_h g - 1 - k; j]) /\
    (forall i k, 0 <= i < g_new_h g -> 1 <= k < g_new_w g ->
       item out [g_top g + i; g_left g - k] = item resized [i; k] /\
       item out [g_top g + i; g_left g + g_new_w g - 1 + k]
       = item resized [i; g_new_w g - 1 - k]).
Proof.
  intros Hcv Hshape Hh Hw Hs.
  destruct (letterbox_dims_fit h w s Hh Hw Hs) as (g & Hdims & Hfit).
  pose proof (fit_w _ _ _ _ Hfit) as Hnw.
  pose proof (fit_h _ _ _ _ Hfit) as Hnh.
  pose proof (fit_vertical_split _ _ _ _ Hfit) as (Hv & Ht & Hb).
  pose proof (fit_horizontal_split _ _ _ _ Hfit) as (Hz & Hl & Hr).
  exists g.
  rewrite (letterbox_resized_border cv gray h w s [] g Hshape Hdims Hfit).
  set (resized := resize cv gray (g_new_w g, g_new_h g)
                    (if s <? Z.max h w then INTER_AREA else INTER_CUBIC)).
  assert (Hrs : shape resized = [g_new_h g; g_new_w g])
    by (apply (resize_shape cv Hcv); [unfold ndim; rewrite Hshape; reflexivity|lia|lia]).
  unfold copyMakeBorder_reflect_101.
  destruct (Z.ltb_spec (g_top g) 0); [lia|].
  destruct (Z.ltb_spec (g_bottom g) 0); [lia|].
  destruct (Z.ltb_spec (g_left g) 0); [lia|].
  destruct (Z.ltb_spec (g_right g) 0); [lia|].
  cbn [orb]. rewrite Hrs. cbn [nth].
  eexists. split; [exact Hdims|]. split; [reflexivity|]. cbn [item].
  split; [|split].
  - intros i j Hi Hj.
    replace (g_top g + i - g_top g) with i by lia.
    replace (g_left g + j - g_left g) with j by lia.
    rewrite !reflect_101_inside by lia. reflexivity.
  - intros k j Hk Hj.
    replace (g_top g - k - g_top g) with (- k) by lia.
    replace (g_top g + g_new_h g - 1 + k - g_top g) with (g_new_h g - 1 + k) by lia.
    replace (g_left g + j - g_left g) with j by lia.
    rewrite reflect_101_before, reflect_101_after, reflect_101_inside by lia.
    split; reflexivity.
  - intros i k Hi Hk.
    replace (g_top g + i - g_top g) with i by lia.
    replace (g_left g - k - g_left g) with (- k) by lia.
    replace (g_left g + g_new_w g - 1 + k - g_left g) with (g_new_w g - 1 + k) by lia.
    rewrite reflect_101_before, reflect_101_after, reflect_101_inside by lia.
    split; reflexivity.
Qed.

(** In the 8 x 8 letterbox of a 3 x 5 image, resized to 5 x 8 and put from
    row 1 on, row 0 repeats row 1 of the resized image. *)
Lemma letterbox_border_reflects_witness :
  exists out,
    letterbox cv2_sample gray_3x5 8 "reflect" = Ok out /\
    item out [1 - 1; 0 + 4]
    = item (resize cv2_sample gray_3x5 (8, 5) INTER_CUBIC) [1; 4].
Proof.
  assert (Hrange : forall n, n = 3 \/ n = 5 \/ n = 8 -> 1 <= n <= INT_MAX)
    by (unfold INT_MAX; intros n [->|[->| ->]]; lia).
  destruct (letterbox_border_reflects cv2_sample gray_3x5 3 5 8
              cv2_sample_contract eq_refl (Hrange 3 ltac:(auto))
              (Hrange 5 ltac:(auto)) (Hrange 8 ltac:(auto)))
    as (g & out & Hdims & Hout & _ & Hrows & _).
  vm_compute in Hdims. injection Hdims as <-.
  exists out. split; [exact Hout|].
  apply (Hrows 1 4); vm_compute; (split; [discriminate|reflexivity]).
Defined.

(** X4.  A three-channel image is read as BGR: the grey value of a pixel is
    the luma of red taken from channel 2, green from channel 1 and blue from
    channel 0, and the result is a 2-D image of the same height and width. *)
Theorem grayscale_reads_bgr (cv : cv2_api) (img : ndarray) (h w : Z) :
  shape img = [h; w; 3] ->
  exists gray,
    to_grayscale cv img = Ok gray /\
    shape gray = [h; w] /\ dtype gray = dtype img /\
    forall i j,
      item gray [i; j] =
      luma cv (item img [i; j; 2]) (item img [i; j; 1]) (item img [i; j; 0]).
Proof.
  intros Hshape. unfold to_grayscale, ndim. rewrite Hshape. cbn.
  eexists. split; [reflexivity|]. cbn. rewrite Hshape. auto.
Qed.

Lemma grayscale_reads_bgr_witness :
  exists gray,
    to_grayscale cv2_sample bgr_2x2 = Ok gray /\
    Qeq (item gray [0; 1])
      ((299 # 1000) * 30 + (587 # 1000) * 20 + (114 # 1000) * 10)%Q.
Proof.
  destruct (grayscale_reads_bgr cv2_sample bgr_2x2 2 2 eq_refl)
    as (gray & Hgray & _ & _ & Hitem).
  exists gray. split; [exact Hgray|]. rewrite Hitem. reflexivity.
Defined.

(** X5.  Every decoded image that is 2-D or has three channels, of any bit
    depth, with height, width and target size between 1 and [INT_MAX], is
    turned by the pipeline into a tensor of shape [1, 3, size, size] with
    values in [0, 1], each of whose three channels is the letterboxed grey
    image divided by 255. *)
Theorem preprocess_any_image (cv : cv2_api) (img : ndarray) (h w s : Z) :
  cv2_contract cv ->
  shape img = [h; w] \/ shape img = [h; w; 3] ->
  1 <= h <= INT_MAX -> 1 <= w <= INT_MAX -> 1 <= s <= INT_MAX ->
  (dtype img = uint8 -> is_u8 img) ->
  exists grey padded t,
    to_grayscale cv (to_uint8 cv img) = Ok grey /\ shape grey = [h; w] /\
    letterbox cv grey s "reflect" = Ok padded /\ shape padded = [s; s] /\
    preprocess_decoded cv img s "reflect" = Ok t /\
    tshape t = [1; 3; s; s] /\
    tensor_in_unit t /\
    forall b c i j, titem t [b; c; i; j] = (item padded [i; j] / 255)%Q.
Proof.
  intros Hcv Hshape Hh Hw Hs Hdepth.
  assert (Hu8 : is_u8 (to_uint8 cv img)).
  { unfold to_uint8. destruct (dtype img) eqn:Hd; cbn; auto;
      apply (normalize_u8 cv Hcv). }
  pose proof (to_uint8_shape cv img Hcv) as Hsh.
  assert (Hgray : exists gray,
             to_grayscale cv (to_uint8 cv img) = Ok gray /\
             shape gray = [h; w] /\ is_u8 gray).
  { destruct Hshape as [H2|H3].
    - exists (to_uint8 cv img). unfold to_grayscale, ndim.
      rewrite Hsh, H2. cbn. auto.
    - apply to_grayscale_bgr_u8; [exact Hcv| |exact Hu8]. congruence. }
  destruct Hgray as (gray & Hgray & Hgs & Hgu).
  destruct (preprocess_gray_result cv img gray h w s Hcv Hgray Hgs Hgu Hh Hw Hs)
    as (padded & t & Hpad & Hps & Ht & Hts & Htu & Hcopy).
  exists gray, padded, t. auto 10.
Qed.

Lemma preprocess_any_image_witness :
  exists t,
    preprocess_decoded cv2_sample gray16_2x3 320 "reflect" = Ok t /\
    tshape t = [1; 3; 320; 320] /\ tensor_in_unit t.
Proof.
  assert (Hrange : forall n, n = 2 \/ n = 3 \/ n = 320 -> 1 <= n <= INT_MAX)
    by (unfold INT_MAX; intros n [->|[->| ->]]; lia).
  destruct (preprocess_any_image cv2_sample gray16_2x3 2 3 320
              cv2_sample_contract (or_introl eq_refl)
              (Hrange 2 ltac:(auto)) (Hrange 3 ltac:(auto)) (Hrange 320 ltac:(auto))
              ltac:(intros H; discriminate H))
    as (grey & padded & t & _ & _ & _ & _ & Ht & Hs & Hu & _).
  eauto.
Defined.

(** ** The engine, call by call *)

Lemma same_engine_refl s : same_engine s s.
Proof. repeat split. Qed.

Lemma same_engine_trans s1 s2 s3 :
  same_engine s1 s2 -> same_engine s2 s3 -> same_engine s1 s3.
Proof. unfold same_engine. intros (? & ? & ? & ?) (? & ? & ? & ?). repeat split; congruence. Qed.

Lemma engine_step_idle st st' :
  self st' = self st -> (next_obj st <= next_obj st')%nat ->
  (exists evs, storage_log st' = (storage_log st ++ evs)%list /\
               log_growth (models_dir (self st)) evs) ->
  engine_step st st'.
Proof.
  intros Hself Hnext Hlog. constructor; auto.
  - rewrite Hself. apply same_engine_refl.
  - apply cache_same. rewrite Hself. reflexivity.
Qed.

Lemma load_model_step env model_name config st :
  engine_step st (fst (load_model env model_name config st)).
Proof.
  destruct (loaded_models (self st) !! cache_key model_name config)
    as [model|] eqn:Hlook.
  { rewrite (load_model_cached _ _ _ _ _ Hlook). cbn [fst].
    apply engine_step_idle; auto. exists []. rewrite app_nil_r.
    split; [reflexivity|constructor]. }
  destruct (valid_pair_decide model_name config) as [Hvalid|Hinvalid].
  2:{ destruct (load_model_invalid env _ _ _ Hlook Hinvalid) as [msg ->].
      cbn [fst]. apply engine_step_idle; auto. exists []. rewrite app_nil_r.
      split; [reflexivity|constructor]. }
  destruct (valid_pair_data _ _ Hvalid) as (filename & cfg & a & Hf & Hcfg & Ha).
  pose proof Hvalid as (_ & _ & Hcompat).
  rewrite (load_model_fresh env _ _ _ _ _ _ Hlook Hf Hcfg Ha Hcompat).
  set (p := weights_path (self st) config filename).
  assert (Hp : is_weights_path (models_dir (self st)) p).
  { exists model_name, config, filename. auto. }
  assert (Hnoread : engine_step st (log_append st [EvExists p])).
  { apply engine_step_idle; cbn; auto. eexists. split; [reflexivity|constructor]. }
  assert (Hread : engine_step st
            (mkState (self st) (S (next_obj st))
               (storage_log st ++ [EvExists p; EvTorchLoad p])%list)).
  { apply engine_step_idle; cbn; auto. eexists. split; [reflexivity|].
    constructor. exact Hp. }
  destruct (path_exists env p); cbn [negb fst]; [|exact Hnoread].
  destruct (nn_construct env a) as [e|]; [exact Hnoread|].
  destruct (torch_load env p _) as [blob|e]; [|exact Hread].
  cbv zeta.
  destruct (load_state_dict env _ _) as [e|]; [exact Hread|].
  destruct (module_to env _ _) as [e|]; [exact Hread|].
  cbn [fst]. unfold state_loaded. constructor; cbn.
  - repeat split.
  - lia.
  - eexists. split; [reflexivity|]. constructor. exact Hp.
  - eapply (cache_added _ _ model_name config); cbn; eauto.
    exists cfg, a. unfold loaded_module. cbn. repeat split; eauto.
Qed.

Lemma get_model_path_step env model_name config st :
  engine_step st (fst (get_model_path env model_name config st)).
Proof.
  unfold get_model_path, bind, raise, lift, get_self, log_storage, ret.
  assert (Hidle : engine_step st st).
  { apply engine_step_idle; auto. exists []. rewrite app_nil_r.
    split; [reflexivity|constructor]. }
  destruct (negb (dict_mem CONFIG_SETTINGS config)); [exact Hidle|].
  destruct (negb (dict_mem MODEL_FILENAME_MAP model_name)); [exact Hidle|].
  destruct (dict_index MODEL_FILENAME_MAP model_name); [|exact Hidle].
  cbn [self]. destruct (negb (path_exists env _)); cbn [fst];
    (apply engine_step_idle; cbn; auto;
     eexists; split; [reflexivity|constructor]).
Qed.

Lemma clear_cache_step env st : engine_step st (fst (clear_cache env st)).
Proof.
  constructor; cbn.
  - repeat split.
  - lia.
  - exists []. rewrite app_nil_r. split; [reflexivity|constructor].
  - apply cache_cleared. reflexivity.
Qed.

Lemma run_call_step call st : engine_step st (run_call call st).
Proof.
  destruct call as [env m c|env i m c ds|env m c|env]; cbn [run_call].
  - apply load_model_step.
  - rewrite predict_state. apply load_model_step.
  - apply get_model_path_step.
  - apply clear_cache_step.
Qed.

Lemma run_preserves (P : state -> Prop) calls st :
  (forall s s', engine_step s s' -> P s -> P s') -> P st -> P (run calls st).
Proof.
  intros Hstep. revert st. induction calls as [|call calls IH]; intros st HP.
  - exact HP.
  - cbn. apply IH. apply (Hstep st); [apply run_call_step|exact HP].
Qed.

Lemma module_of_pair_later s s' n n' model_name config md :
  same_engine s s' -> (n <= n')%nat ->
  module_of_pair s n model_name config md ->
  module_of_pair s' n' model_name config md.
Proof.
  intros (_ & Hdev & Hn & Hd) Hle
         (cfg & a & Hcfg & Ha & Harch & Himg & Hnc & Hdr & Hdv & Htr & Hsd & Hid).
  exists cfg, a. repeat split; auto; try congruence. lia.
Qed.

Lemma engine_inv_step st st' : engine_step st st' -> engine_inv st -> engine_inv st'.
Proof.
  intros [Heng Hnext _ Hcache] [Hmods Hids].
  destruct Hcache as [Hsame | Hclear | m c md Hvalid Hmiss Hins Hmd Hid Hn].
  - split.
    + intros k md Hk. rewrite Hsame in Hk.
      destruct (Hmods k md Hk) as (m & c & Hkey & Hv & Hm).
      exists m, c. split; [exact Hkey|]. split; [exact Hv|].
      eapply module_of_pair_later; eauto.
    + intros k1 k2 md1 md2. rewrite Hsame. apply Hids.
  - split; intros *; rewrite Hclear, lookup_empty; discriminate.
  - assert (Hold : forall k md0, loaded_models (self st) !! k = Some md0 ->
                     (obj_id md0 < next_obj st)%nat).
    { intros k md0 Hk. destruct (Hmods k md0 Hk) as (m0 & c0 & _ & _ & Hm0).
      destruct Hm0 as (? & ? & ? & ? & ? & ? & ? & ? & ? & ? & ? & Hlt).
      exact Hlt. }
    split.
    + intros k md0. rewrite Hins, lookup_insert. case_decide as Hk.
      * intros [= <-]. exists m, c. split; [auto|]. split; [exact Hvalid|].
        eapply module_of_pair_later; [exact Heng| |exact Hmd]. lia.
      * intros Hk0. destruct (Hmods k md0 Hk0) as (m0 & c0 & Hkey & Hv & Hm0).
        exists m0, c0. split; [exact Hkey|]. split; [exact Hv|].
        eapply module_of_pair_later; eauto.
    + intros k1 k2 md1 md2. rewrite Hins, !lookup_insert.
      case_decide as Hk1; case_decide as Hk2.
      * congruence.
      * intros [= <-] H2 Heq. apply Hold in H2. lia.
      * intros H1 [= <-] Heq. apply Hold in H1. lia.
      * apply Hids.
Qed.

Lemma disciplined_step st st' :
  engine_step st st' ->
  disciplined (models_dir (self st)) (storage_log st) ->
  disciplined (models_dir (self st')) (storage_log st').
Proof.
  intros [(Hdir & _) _ (evs & -> & Hevs) _] Hlog. rewrite Hdir.
  destruct Hevs as [|p|p Hp].
  - rewrite app_nil_r. exact Hlog.
  - constructor. exact Hlog.
  - constructor; assumption.
Qed.

Lemma init_engine_inv env dir dev ncls drop :
  engine_inv (init env dir dev ncls drop).
Proof. split; intros *; cbn; rewrite lookup_empty; discriminate. Qed.

Lemma reachable_engine_inv st : reachable st -> engine_inv st.
Proof.
  intros (env & dir & dev & ncls & drop & calls & ->).
  apply run_preserves; [apply engine_inv_step|apply init_engine_inv].
Qed.

Lemma reachable_disciplined st :
  reachable st -> disciplined (models_dir (self st)) (storage_log st).
Proof.
  intros (env & dir & dev & ncls & drop & calls & ->).
  apply (run_preserves
           (fun s => disciplined (models_dir (self s)) (storage_log s)));
    [apply disciplined_step|constructor].
Qed.

Lemma disciplined_reads dir log :
  disciplined dir log ->
  forall before p after,
    log = (before ++ EvTorchLoad p :: after)%list ->
    is_weights_path dir p /\ exists earlier, before = (earlier ++ [EvExists p])%list.
Proof.
  induction 1 as [|log q Hlog IH|log q Hlog IH Hq]; intros before p after Heq.
  - destruct before; discriminate.
  - destruct after as [|x after _] using rev_ind.
    + apply app_inj_tail in Heq as [_ Heq]. discriminate.
    + rewrite app_comm_cons, app_assoc in Heq.
      apply app_inj_tail in Heq as [Heq _]. eapply IH; eassumption.
  - destruct after as [|x after _] using rev_ind.
    + change [EvExists q; EvTorchLoad q]
        with ([EvExists q] ++ [EvTorchLoad q])%list in Heq.
      rewrite app_assoc in Heq.
      apply app_inj_tail in Heq as [Heq [= <-]]. split; [exact Hq|].
      exists log. auto.
    + change [EvExists q; EvTorchLoad q]
        with ([EvExists q] ++ [EvTorchLoad q])%list in Heq.
      rewrite app_assoc, app_comm_cons, (app_assoc before) in Heq.
      apply app_inj_tail in Heq as [Heq _].
      destruct after as [|y after _] using rev_ind.
      * apply app_inj_tail in Heq as [_ Heq]. discriminate.
      * rewrite app_comm_cons, app_assoc in Heq.
        apply app_inj_tail in Heq as [Heq _]. eapply IH; eassumption.
Qed.

(** ** What holds of every reachable engine *)

Ltac loaded_is_reachable :=
  exists env_sample, ["models"], None, 6, (3 # 10)%Q,
         [CallLoad env_sample "densenet121" "config1"]; reflexivity.

(** X6.  Every module in the cache of a reachable engine is ready for
    inference: it has the architecture registered for the model name in its
    key, its weights are loaded, it is in evaluation mode on the engine's
    device, it was built with the engine's number of classes, and an
    EfficientFormer was built for the image size of the config in its key. *)
Theorem cached_modules_are_ready (st : state) :
  reachable st ->
  forall k md, loaded_models (self st) !! k = Some md ->
    exists model_name config cfg,
      k = cache_key model_name config /\
      dict_get CONFIG_SETTINGS config = Some cfg /\
      dict_get models_dict model_name = Some (arch md) /\
      (exists sd, m_state md = Some sd) /\
      training md = false /\
      m_device md = device (self st) /\
      m_num_classes md = num_classes (self st) /\
      (arch md = EfficientFormerV2S2MultiLabel ->
       m_img_size md = Some (cfg_image_size cfg)).
Proof.
  intros Hreach k md Hk.
  destruct (reachable_engine_inv st Hreach) as [Hmods _].
  destruct (Hmods k md Hk)
    as (m & c & Hkey & _ & cfg & a & Hcfg & Ha & Harch & Himg & Hnc & _ & Hdv
        & Htr & Hsd & _).
  exists m, c, cfg. subst a. repeat split; auto.
  intros Hef. rewrite Himg, Hef. reflexivity.
Qed.

Lemma cached_modules_are_ready_witness :
  reachable st_loaded /\
  loaded_models (self st_loaded) !! "densenet121_config1" = Some densenet_loaded /\
  training densenet_loaded = false /\
  exists sd, m_state densenet_loaded = Some sd.
Proof.
  assert (Hreach : reachable st_loaded) by loaded_is_reachable.
  assert (Hk : loaded_models (self st_loaded) !! "densenet121_config1"
               = Some densenet_loaded) by (vm_compute; reflexivity).
  destruct (cached_modules_are_ready st_loaded Hreach
              "densenet121_config1" densenet_loaded Hk)
    as (m & c & cfg & _ & _ & _ & Hsd & Htr & _).
  split; [exact Hreach|]. split; [exact Hk|]. split; [exact Htr|exact Hsd].
Defined.

(** X7.  In a reachable engine two different cache keys never hold the same
    object, and every cached object is older than the next object the engine
    will create. *)
Theorem cached_objects_are_distinct (st : state) :
  reachable st ->
  (forall k1 k2 md1 md2,
     loaded_models (self st) !! k1 = Some md1 ->
     loaded_models (self st) !! k2 = Some md2 ->
     k1 <> k2 -> obj_id md1 <> obj_id md2) /\
  (forall k md, loaded_models (self st) !! k = Some md ->
     (obj_id md < next_obj st)%nat).
Proof.
  intros Hreach. destruct (reachable_engine_inv st Hreach) as [Hmods Hids].
  split.
  - intros k1 k2 md1 md2 H1 H2 Hne Heq. apply Hne. eapply Hids; eassumption.
  - intros k md Hk.
    destruct (Hmods k md Hk)
      as (m & c & _ & _ & cfg & a & _ & _ & _ & _ & _ & _ & _ & _ & _ & Hlt).
    exact Hlt.
Qed.

Lemma cached_objects_are_distinct_witness :
  let st := run calls_after_load st_loaded in
  reachable st /\
  exists md1 md2,
    loaded_models (self st) !! "densenet121_config1" = Some md1 /\
    loaded_models (self st) !! "mobilevit-s_config3" = Some md2 /\
    obj_id md1 <> obj_id md2.
Proof.
  intros st.
  assert (Hreach : reachable st).
  { exists env_sample, ["models"], None, 6, (3 # 10)%Q,
           (CallLoad env_sample "densenet121" "config1" :: calls_after_load).
    vm_compute. reflexivity. }
  split; [exact Hreach|].
  destruct (cached_objects_are_distinct st Hreach) as [Hdist _].
  assert (H1 : loaded_models (self st) !! "densenet121_config1"
               = Some densenet_loaded) by (vm_compute; reflexivity).
  assert (H2 : loaded_models (self st) !! "mobilevit-s_config3"
               = Some (loaded_module st_loaded MobileViTSMultiLabel 224
                         sample_checkpoint)) by (vm_compute; reflexivity).
  eexists. eexists. split; [exact H1|]. split; [exact H2|].
  apply (Hdist _ _ _ _ H1 H2). discriminate.
Defined.

(** X8.  No sequence of [load_model], [predict], [get_model_path] and
    [clear_cache] calls changes the models directory, the device, the number
    of classes or the dropout the engine was constructed with; the device is
    the one passed to the constructor, or "cuda" if available and else "cpu"
    when none (or an empty one) was passed. *)
Theorem engine_parameters_are_fixed (env : Env) (dir : Path)
    (dev : option string) (ncls : Z) (drop : Q) (calls : list call) :
  let s := self (run calls (init env dir dev ncls drop)) in
  models_dir s = dir /\ num_classes s = ncls /\ dropout s = drop /\
  device s = match dev with
             | Some (String a d) => String a d
             | _ => if cuda_is_available env then "cuda" else "cpu"
             end.
Proof.
  assert (Hsame : same_engine (self (init env dir dev ncls drop))
                    (self (run calls (init env dir dev ncls drop)))).
  { apply (run_preserves
             (fun st => same_engine (self (init env dir dev ncls drop)) (self st))).
    - intros s s' [Hstep _ _ _] Hs. eapply same_engine_trans; eassumption.
    - apply same_engine_refl. }
  destruct Hsame as (Hdir & Hdev & Hn & Hd). cbn in *.
  repeat split; assumption.
Qed.

(** X9.  In the storage log of a reachable engine every read of a weight
    file comes straight after an existence test of the same path, and the
    path read is [models_dir / config / filename] of a registered,
    compatible pair: weights of an incompatible or unknown pair are never
    read. *)
Theorem reads_follow_existence_tests (st : state) :
  reachable st ->
  forall before p after,
    storage_log st = (before ++ EvTorchLoad p :: after)%list ->
    (exists model_name config filename,
       valid_pair model_name config /\
       dict_get MODEL_FILENAME_MAP model_name = Some filename /\
       p = path_div (path_div (models_dir (self st)) config) filename) /\
    exists earlier, before = (earlier ++ [EvExists p])%list.
Proof.
  intros Hreach before p after Hlog.
  exact (disciplined_reads _ _ (reachable_disciplined st Hreach) before p after Hlog).
Qed.

Lemma reads_follow_existence_tests_witness :
  reachable st_loaded /\
  storage_log st_loaded =
    ([EvExists ["models"; "config1"; "densenet121.pth"]] ++
     EvTorchLoad ["models"; "config1"; "densenet121.pth"] :: [])%list /\
  exists model_name config filename,
    valid_pair model_name config /\
    dict_get MODEL_FILENAME_MAP model_name = Some filename /\
    ["models"; "config1"; "densenet121.pth"]
    = path_div (path_div (models_dir (self st_loaded)) config) filename.
Proof.
  assert (Hreach : reachable st_loaded) by loaded_is_reachable.
  split; [exact Hreach|]. split; [reflexivity|].
  exact (proj1 (reads_follow_existence_tests st_loaded Hreach
                  [EvExists ["models"; "config1"; "densenet121.pth"]]
                  ["models"; "config1"; "densenet121.pth"] [] eq_refl)).
Defined.

Lemma reachable_run_call call st : reachable st -> reachable (run_call call st).
Proof.
  intros (env & dir & dev & ncls & drop & calls & ->).
  exists env, dir, dev, ncls, drop, (calls ++ [call])%list.
  unfold run. rewrite fold_left_app. reflexivity.
Qed.

(** ** Clearing, failing and reloading *)

(** X10.  After [clear_cache], loading a pair that was cached before reads
    its weight file once more, exactly once, and caches a new object whose
    identity differs from the one that was cached. *)
Theorem reload_after_clear (env0 env : Env) (model_name config filename : string)
    (st st' : state) (old new : module) :
  reachable st ->
  dict_get MODEL_FILENAME_MAP model_name = Some filename ->
  loaded_models (self st) !! cache_key model_name config = Some old ->
  load_model env model_name config (fst (clear_cache env0 st)) = (st', Ok new) ->
  let p := weights_path (self st) config filename in
  storage_log st' = (storage_log st ++ [EvExists p; EvTorchLoad p])%list /\
  reads_of p (storage_log st') = S (reads_of p (storage_log st)) /\
  loaded_models (self st') !! cache_key model_name config = Some new /\
  obj_id new <> obj_id old.
Proof.
  intros Hreach Hfile Hhit Hload p.
  destruct (reachable_engine_inv st Hreach) as [Hmods _].
  destruct (Hmods _ _ Hhit)
    as (m0 & c0 & _ & _ & cfg0 & a0 & _ & _ & _ & _ & _ & _ & _ & _ & _ & Hold).
  pose proof (load_model_effect env model_name config (fst (clear_cache env0 st)))
    as Heff.
  rewrite Hload in Heff. cbn [fst snd] in Heff.
  destruct Heff as [md Hmd _ _ | msg _ _ _ Hr | f e rd _ _ _ q _ _ Hr
                    | f cfg a read _ _ Hf _ _ q _ _ -> Hr];
    try congruence.
  - cbn in Hmd. rewrite lookup_empty in Hmd. discriminate.
  - assert (f = filename) as -> by congruence.
    injection Hr as ->. unfold state_loaded. cbn.
    change (weights_path _ config filename) with p.
    split; [reflexivity|]. split.
    + rewrite reads_of_app. cbn [reads_of].
      rewrite bool_decide_eq_true_2 by reflexivity. lia.
    + split; [apply lookup_insert_eq|]. lia.
Qed.

Lemma reload_after_clear_witness :
  reachable st_loaded /\
  exists st' new,
    load_model env_sample "densenet121" "config1"
      (fst (clear_cache env_sample st_loaded)) = (st', Ok new) /\
    reads_of ["models"; "config1"; "densenet121.pth"] (storage_log st') = 2%nat /\
    obj_id new <> obj_id densenet_loaded.
Proof.
  assert (Hreach : reachable st_loaded) by loaded_is_reachable.
  split; [exact Hreach|].
  assert (Hk : loaded_models (self st_loaded) !! cache_key "densenet121" "config1"
               = Some densenet_loaded) by (vm_compute; reflexivity).
  assert (Hload : load_model env_sample "densenet121" "config1"
                    (fst (clear_cache env_sample st_loaded))
                  = (fst (load_model env_sample "densenet121" "config1"
                            (fst (clear_cache env_sample st_loaded))),
                     Ok (loaded_module st_loaded DenseNet121MultiLabel 224
                           sample_checkpoint)))
    by (vm_compute; reflexivity).
  destruct (reload_after_clear env_sample env_sample "densenet121" "config1"
              "densenet121.pth" st_loaded _ densenet_loaded _
              Hreach eq_refl Hk Hload) as (_ & Hreads & _ & Hid).
  eexists. eexists. split; [exact Hload|]. split; [|exact Hid].
  refine (eq_trans Hreads _). vm_compute. reflexivity.
Defined.

(** X11.  A [load_model] that raises leaves the engine, cache included, as
    it was.  When [load_model] succeeds inside [predict], the model is in
    the cache afterwards whatever becomes of the prediction: an image that
    cannot be preprocessed or a failing forward pass does not undo the
    load. *)
Theorem failed_load_caches_nothing (env : Env) (model_name config : string)
    (st : state) :
  (forall st' e,
     load_model env model_name config st = (st', Raise e) -> self st' = self st) /\
  (forall input diseases st1 model,
     load_model env model_name config st = (st1, Ok model) ->
     fst (predict env input model_name config diseases st) = st1 /\
     loaded_models (self st1) !! cache_key model_name config = Some model).
Proof.
  pose proof (load_model_effect env model_name config st) as Heff.
  split.
  - intros st' e Hload. rewrite Hload in Heff. cbn [fst snd] in Heff.
    destruct Heff as [md _ -> _ | msg _ _ -> _ | f e' rd _ _ _ q Hself _ _
                      | f cfg a read _ _ _ _ _ q _ _ _ Hr];
      auto; discriminate.
  - intros input diseases st1 model Hload.
    rewrite predict_state, Hload. split; [reflexivity|].
    rewrite Hload in Heff. cbn [fst snd] in Heff.
    destruct Heff as [md Hhit -> Hr | msg _ _ _ Hr | f e' rd _ _ _ q _ _ Hr
                      | f cfg a read _ _ _ _ _ q _ _ -> Hr];
      try discriminate.
    + congruence.
    + injection Hr as ->. unfold state_loaded. cbn. apply lookup_insert_eq.
Qed.

(** X12.  [get_model_path] tests the config first, then the model, raising a
    ValueError that lists the registered names, without touching storage.
    For a registered config and model it makes one existence test of
    [models_dir / config / filename] and returns that path if the file is
    there, a FileNotFoundError naming it if not; it does not ask whether the
    pair is compatible. *)
Theorem get_model_path_outcomes (env : Env) (model_name config : string)
    (st : state) :
  (dict_mem CONFIG_SETTINGS config = false ->
   get_model_path env model_name config st =
     (st, Raise (mkExn ValueError
                   ("Config '" ++ config ++
                    "' not recognized. Available: ['config1', 'config2', 'config3', 'config4']")))) /\
  (dict_mem CONFIG_SETTINGS config = true ->
   dict_mem MODEL_FILENAME_MAP model_name = false ->
   get_model_path env model_name config st =
     (st, Raise (mkExn ValueError
                   ("Model '" ++ model_name ++
                    "' not recognized. Available: ['densenet121', 'efficientnet-b2', 'regnety-800mf', 'efficientformerv2-s2', 'mobilevit-s']")))) /\
  (forall filename,
     dict_mem CONFIG_SETTINGS config = true ->
     dict_get MODEL_FILENAME_MAP model_name = Some filename ->
     let p := path_div (path_div (models_dir (self st)) config) filename in
     get_model_path env model_name config st =
       (log_append st [EvExists p],
        if path_exists env p then Ok p
        else Raise (mkExn FileNotFoundError
                      ("Model file not found: " ++ path_str p ++ nl ++
                       "Please ensure the model is trained and saved in the correct location.")))).
Proof.
  unfold get_model_path, bind, raise, lift, get_self, log_storage, ret, dict_index.
  split; [intros ->; reflexivity|].
  split; [intros -> ->; reflexivity|].
  intros filename Hc Hf. rewrite Hc.
  assert (Hm : dict_mem MODEL_FILENAME_MAP model_name = true)
    by (apply dict_mem_get; eauto).
  rewrite Hm, Hf. cbn [negb self].
  destruct (path_exists env _); reflexivity.
Qed.

(** ** What the model is given *)

Lemma scaled_side_positive x scale n : scaled_side x scale = Ok n -> 1 <= n.
Proof.
  unfold scaled_side.
  destruct (float_of_int x); [|discriminate].
  destruct (float_round _); [|discriminate].
  intros [= <-]. lia.
Qed.

Lemma to_grayscale_two_dim cv img gray :
  to_grayscale cv img = Ok gray -> ndim gray = 2.
Proof.
  unfold to_grayscale.
  destruct (Z.eqb_spec (ndim img) 3) as [H3|_]; cbn [andb].
  - destruct (_ =? 3).
    + intros [= <-]. unfold ndim in *. cbn [cvtColor_RGB2GRAY cvtColor_BGR2RGB shape].
      destruct (shape img) as [|a [|b [|c rest]]]; cbn in *; lia.
    + destruct (Z.eqb_spec (ndim img) 2); [lia|discriminate].
  - destruct (Z.eqb_spec (ndim img) 2) as [H2|_]; [|discriminate].
    intros [= <-]. exact H2.
Qed.

Lemma letterbox_ok_shape cv gray s out :
  cv2_contract cv -> ndim gray = 2 ->
  letterbox cv gray s "reflect" = Ok out -> shape out = [s; s].
Proof.
  intros Hcv Hdim. unfold letterbox.
  destruct (shape gray) as [|h [|w rest]]; try discriminate.
  destruct (letterbox_dims h w s) as [g|e] eqn:Hdims; [|discriminate].
  change (String.eqb "reflect" "reflect") with true. cbv iota.
  set (interp := if Qlt_le_dec (g_scale g) 1 then INTER_AREA else INTER_CUBIC).
  intros Hout.
  unfold letterbox_dims in Hdims.
  destruct (int_truediv s (Z.max h w)) as [scale|]; [|discriminate].
  destruct (scaled_side w scale) as [nw|] eqn:Hnw; [|discriminate].
  destruct (scaled_side h scale) as [nh|] eqn:Hnh; [|discriminate].
  injection Hdims as <-.
  cbn [g_new_w g_new_h g_top g_bottom g_left g_right] in Hout.
  apply scaled_side_positive in Hnw, Hnh.
  pose proof (resize_shape cv Hcv gray nw nh interp Hdim Hnw Hnh) as Hrs.
  rewrite (copyMakeBorder_shape _ _ _ _ _ _ _ _ Hrs Hout).
  f_equal; [lia|f_equal; lia].
Qed.

Lemma preprocess_input_shape cv input s t :
  cv2_contract cv -> preprocess_input cv input s = Ok t -> tshape t = [1; 3; s; s].
Proof.
  intros Hcv.
  assert (Hdec : forall img, preprocess_decoded cv img s "reflect" = Ok t ->
                             tshape t = [1; 3; s; s]).
  { intros img. unfold preprocess_decoded.
    destruct (to_grayscale cv _) as [gray|e] eqn:Hgray; [|discriminate].
    destruct (letterbox cv gray s "reflect") as [out|e] eqn:Hout; [|discriminate].
    intros [= <-]. cbn.
    rewrite (letterbox_ok_shape cv gray s out Hcv
               (to_grayscale_two_dim _ _ _ Hgray) Hout).
    reflexivity. }
  unfold preprocess_input, preprocess_image, preprocess_image_from_bytes.
  destruct input as [p|b].
  - destruct (imread cv p); [apply Hdec|discriminate].
  - destruct (imdecode cv b); [apply Hdec|discriminate].
Qed.

Lemma predict_success_inversion env input model_name config diseases st st' d :
  predict env input model_name config diseases st = (st', Ok d) ->
  success d = true ->
  exists cfg model t logits,
    load_model env model_name config st = (st', Ok model) /\
    dict_get CONFIG_SETTINGS config = Some cfg /\
    preprocess_input (cv env) input (cfg_image_size cfg) = Ok t /\
    tensor_to env t (device (self st)) = None /\
    forward env model t (String.eqb (device (self st)) "cuda") = Ok logits /\
    d = mkPrediction true None (combine diseases (map sigmoid logits))
          (time_end env - time_start env)%Q model_name config
          (cfg_image_size cfg) (device (self st)).
Proof.
  unfold predict, bind, get_self, try_, ret, lift, of_failure, dict_index.
  destruct (load_model env model_name config st) as [st1 [model|e]].
  2:{ destruct (except_matches _ e); [|discriminate].
      intros [= _ <-]. discriminate. }
  destruct (dict_get CONFIG_SETTINGS config) as [cfg|]; [|discriminate].
  destruct (preprocess_input (cv env) input _) as [t|e] eqn:Hpre.
  2:{ intros [= _ <-]. discriminate. }
  destruct (tensor_to env t _) eqn:Hto; [discriminate|].
  destruct (forward env model t _) as [logits|e] eqn:Hfwd.
  2:{ intros [= _ <-]. discriminate. }
  intros [= <- <-] _. exists cfg, model, t, logits. auto 10.
Qed.

(** X13.  When [predict] succeeds, the forward pass was run on the cached
    model of the pair with the tensor the pipeline made of the input, whose
    shape is [1, 3, S, S] for the image size S of the config; the outcome
    echoes model, config, S and the engine's device, has no error, and its
    processing time is the difference of the two clock readings. *)
Theorem predict_success_feeds_config_size (env : Env) (input : image_input)
    (model_name config : string) (diseases : list string) (st st' : state)
    (d : prediction) :
  cv2_contract (cv env) ->
  predict env input model_name config diseases st = (st', Ok d) ->
  success d = true ->
  exists cfg model t logits,
    dict_get CONFIG_SETTINGS config = Some cfg /\
    loaded_models (self st') !! cache_key model_name config = Some model /\
    preprocess_input (cv env) input (cfg_image_size cfg) = Ok t /\
    tshape t = [1; 3; cfg_image_size cfg; cfg_image_size cfg] /\
    forward env model t (String.eqb (device (self st)) "cuda") = Ok logits /\
    error d = None /\
    p_model_name d = model_name /\ p_config d = config /\
    p_image_size d = cfg_image_size cfg /\ p_device d = device (self st) /\
    processing_time d = (time_end env - time_start env)%Q.
Proof.
  intros Hcv Hpred Hok.
  destruct (predict_success_inversion _ _ _ _ _ _ _ _ Hpred Hok)
    as (cfg & model & t & logits & Hload & Hcfg & Hpre & _ & Hfwd & ->).
  exists cfg, model, t, logits.
  split; [exact Hcfg|]. split.
  { pose proof (load_model_effect env model_name config st) as Heff.
    rewrite Hload in Heff. cbn [fst snd] in Heff.
    destruct Heff as [md Hhit -> Hr | msg _ _ _ Hr | f e' rd _ _ _ q _ _ Hr
                      | f cfg' a read _ _ _ _ _ q _ _ -> Hr];
      try discriminate.
    - congruence.
    - injection Hr as ->. unfold state_loaded. cbn. apply lookup_insert_eq. }
  split; [exact Hpre|].
  split; [eapply preprocess_input_shape; eassumption|].
  cbn. auto 10.
Qed.

Lemma predict_success_feeds_config_size_witness :
  cv2_contract (cv env_sample) /\
  exists d t,
    snd (predict env_sample (ImageBytes one_byte) "densenet121" "config2"
           DISEASES st0) = Ok d /\
    preprocess_input cv2_sample (ImageBytes one_byte) 320 = Ok t /\
    tshape t = [1; 3; 320; 320] /\ p_image_size d = 320.
Proof.
  split; [exact cv2_sample_contract|].
  assert (Hrun : exists st' d,
            predict env_sample (ImageBytes one_byte) "densenet121" "config2"
              DISEASES st0 = (st', Ok d) /\ success d = true).
  { eexists. eexists. split; [run_predict; reflexivity|reflexivity]. }
  destruct Hrun as (st' & d & Hpred & Hok).
  destruct (predict_success_feeds_config_size env_sample (ImageBytes one_byte)
              "densenet121" "config2" DISEASES st0 st' d
              cv2_sample_contract Hpred Hok)
    as (cfg & model & t & logits & Hcfg & _ & Hpre & Hshape & _ & _ & _ & _
        & Hsize & _).
  injection Hcfg as <-.
  exists d, t. split; [rewrite Hpred; reflexivity|].
  split; [exact Hpre|]. split; [exact Hshape|exact Hsize].
Defined.

(** X14.  Through the engine the EfficientFormer never resizes its input:
    the module cached for a pair was built for the image size of the pair's
    config, and the tensor [predict] makes for that pair has exactly that
    height and width, so [forward] passes it to the backbone as it is. *)
Theorem efficientformer_never_resizes (env : Env) (input : image_input)
    (model_name config : string) (cfg : config_settings) (st st1 : state)
    (model : module) (t : tensor) :
  reachable st ->
  cv2_contract (cv env) ->
  load_model env model_name config st = (st1, Ok model) ->
  arch model = EfficientFormerV2S2MultiLabel ->
  dict_get CONFIG_SETTINGS config = Some cfg ->
  preprocess_input (cv env) input (cfg_image_size cfg) = Ok t ->
  m_img_size model = Some (cfg_image_size cfg) /\
  forall interpolate,
    efficientformer_backbone_input interpolate (cfg_image_size cfg) t = Ok t.
Proof.
  intros Hreach Hcv Hload Harch Hcfg Hpre.
  assert (Hreach1 : reachable st1).
  { pose proof (reachable_run_call (CallLoad env model_name config) st Hreach) as H.
    change (reachable (fst (load_model env model_name config st))) in H.
    rewrite Hload in H. exact H. }
  assert (Hhit : loaded_models (self st1) !! cache_key model_name config = Some model).
  { pose proof (load_model_effect env model_name config st) as Heff.
    rewrite Hload in Heff. cbn [fst snd] in Heff.
    destruct Heff as [md Hhit -> Hr | msg _ _ _ Hr | f e' rd _ _ _ q _ _ Hr
                      | f cfg' a read _ _ _ _ _ q _ _ -> Hr];
      try discriminate.
    - congruence.
    - injection Hr as ->. unfold state_loaded. cbn. apply lookup_insert_eq. }
  destruct (reachable_engine_inv st1 Hreach1) as [Hmods _].
  destruct (Hmods _ _ Hhit)
    as (m0 & c0 & Hkey & Hvalid & cfg0 & a0 & Hcfg0 & _ & Ha0 & Himg & _).
  destruct (valid_key_inj _ _ _ _ Hvalid Hkey) as [-> ->].
  assert (cfg0 = cfg) as -> by congruence.
  rewrite <- Ha0, Harch in Himg.
  split; [exact Himg|].
  intros interpolate. unfold efficientformer_backbone_input.
  rewrite (preprocess_input_shape _ _ _ _ Hcv Hpre). cbn [rev app].
  rewrite Z.eqb_refl. reflexivity.
Qed.

Lemma efficientformer_never_resizes_witness :
  exists st1 model t,
    load_model env_sample "efficientformerv2-s2" "config3" st0 = (st1, Ok model) /\
    preprocess_input cv2_sample (ImageBytes one_byte) 224 = Ok t /\
    m_img_size model = Some 224 /\
    efficientformer_backbone_input (fun x _ => x) 224 t = Ok t.
Proof.
  eexists. eexists. eexists.
  split; [vm_compute; reflexivity|]. split; [vm_compute; reflexivity|].
  assert (Hreach : reachable st0)
    by (exists env_sample, ["models"], None, 6, (3 # 10)%Q, []; reflexivity).
  match goal with
  | |- m_img_size ?model = _ /\ efficientformer_backbone_input _ _ ?t = _ =>
    destruct (efficientformer_never_resizes env_sample (ImageBytes one_byte)
                "efficientformerv2-s2" "config3"
                (mkConfig 224 (1 # 10000) "focal" "CNN-Transformer")
                st0 _ model t Hreach cv2_sample_contract
                ltac:(vm_compute; reflexivity) eq_refl eq_refl
                ltac:(vm_compute; reflexivity))
      as [Himg Hin]
  end.
  split; [exact Himg|apply Hin].
Defined.

(** ** Results of a successful prediction *)

Lemma load_model_num_classes env model_name config st st1 model :
  reachable st ->
  load_model env model_name config st = (st1, Ok model) ->
  m_num_classes model = num_classes (self st).
Proof.
  intros Hreach Hload.
  destruct (reachable_engine_inv st Hreach) as [Hmods _].
  pose proof (load_model_effect env model_name config st) as Heff.
  rewrite Hload in Heff. cbn [fst snd] in Heff.
  destruct Heff as [md Hhit _ Hr | msg _ _ _ Hr | f e rd _ _ _ q _ _ Hr
                    | f cfg a blob _ _ _ _ _ q _ _ _ Hr];
    try discriminate.
  - injection Hr as ->.
    destruct (Hmods _ _ Hhit)
      as (m0 & c0 & _ & _ & cfg0 & a0 & _ & _ & _ & _ & Hnc & _).
    exact Hnc.
  - injection Hr as ->. reflexivity.
Qed.

Lemma combine_fst {A B} (l : list A) (l' : list B) :
  (length l <= length l')%nat -> map fst (combine l l') = l.
Proof.
  revert l'. induction l as [|x l IH]; intros [|y l'] Hle; cbn in *;
    try reflexivity; try lia.
  f_equal. apply IH. lia.
Qed.

Lemma combine_snd {A B} (l : list A) (l' : list B) :
  (length l' <= length l)%nat -> map snd (combine l l') = l'.
Proof.
  revert l'. induction l as [|x l IH]; intros [|y l'] Hle; cbn in *;
    try reflexivity; try lia.
  f_equal. apply IH. lia.
Qed.

(** C4.  On a reachable engine built for [num_classes] classes, with a
    forward pass that returns one logit per class, a successful [predict]
    returns the supplied labels zipped positionally with the sigmoid of the
    logits.  The list has as many entries as the shorter of the two: one per
    supplied label whenever there are at most [num_classes] labels, and for
    exactly [num_classes] labels (the precondition of the specification) the
    labels in their order against the sigmoid of every logit.  Every
    probability lies in [0, 1]. *)
Theorem predict_results_zip (env : Env) (input : image_input)
    (model_name config : string) (diseases : list string) (st st' : state)
    (d : prediction) :
  reachable st -> forward_contract env ->
  predict env input model_name config diseases st = (st', Ok d) ->
  success d = true ->
  let n := Z.to_nat (num_classes (self st)) in
  exists model t logits,
    forward env model t (String.eqb (device (self st)) "cuda") = Ok logits /\
    length logits = n /\
    results d = combine diseases (map sigmoid logits) /\
    length (results d) = Nat.min (length diseases) n /\
    ((length diseases <= n)%nat ->
       length (results d) = length diseases /\ map fst (results d) = diseases) /\
    (length diseases = n ->
       map fst (results d) = diseases /\
       map snd (results d) = map sigmoid logits) /\
    (forall label prob, In (label, prob) (results d) -> (0 <= prob <= 1)%R).
Proof.
  intros Hreach Hfwdc Hpred Hok n.
  destruct (predict_success_inversion _ _ _ _ _ _ _ _ Hpred Hok)
    as (cfg & model & t & logits & Hload & _ & _ & _ & Hfwd & ->).
  pose proof (Hfwdc _ _ _ _ Hfwd) as Hlen.
  rewrite (load_model_num_classes _ _ _ _ _ _ Hreach Hload) in Hlen.
  fold n in Hlen.
  exists model, t, logits. cbn [results].
  split; [exact Hfwd|]. split; [exact Hlen|]. split; [reflexivity|].
  assert (Hmin : length (combine diseases (map sigmoid logits))
                 = Nat.min (length diseases) n).
  { rewrite length_combine, length_map, Hlen. reflexivity. }
  split; [exact Hmin|]. split; [|split].
  - intros Hle. split; [lia|].
    apply combine_fst. rewrite length_map, Hlen. exact Hle.
  - intros Heq. split.
    + apply combine_fst. rewrite length_map, Hlen. lia.
    + apply combine_snd. rewrite length_map, Hlen. lia.
  - intros label prob Hin. apply in_combine_r in Hin.
    apply in_map_iff in Hin as (x & <- & _). apply sigmoid_unit.
Qed.

(** Six labels for an engine of six classes. *)
Lemma predict_results_zip_witness :
  reachable st0 /\ forward_contract env_per_class /\
  exists d,
    snd (predict env_per_class (ImageBytes one_byte) "densenet121" "config1"
           DISEASES st0) = Ok d /\
    success d = true /\
    length (results d) = 6%nat /\ map fst (results d) = DISEASES /\
    (forall label prob, In (label, prob) (results d) -> (0 <= prob <= 1)%R).
Proof.
  assert (Hreach : reachable st0)
    by (exists env_sample, ["models"], None, 6, (3 # 10)%Q, []; reflexivity).
  assert (Hfwdc : forward_contract env_per_class).
  { intros model t autocast logits [= <-]. apply repeat_length. }
  assert (Hrun : exists st' d,
            predict env_per_class (ImageBytes one_byte) "densenet121" "config1"
              DISEASES st0 = (st', Ok d) /\ success d = true).
  { eexists. eexists. split; [run_predict; reflexivity|reflexivity]. }
  destruct Hrun as (st' & d & Hpred & Hok).
  split; [exact Hreach|]. split; [exact Hfwdc|].
  exists d. split; [rewrite Hpred; reflexivity|]. split; [exact Hok|].
  destruct (predict_results_zip env_per_class (ImageBytes one_byte)
              "densenet121" "config1" DISEASES st0 st' d Hreach Hfwdc Hpred Hok)
    as (model & t & logits & _ & _ & _ & _ & _ & Hsix & Hunit).
  destruct (Hsix eq_refl) as [Hfst _].
  split; [|split; [exact Hfst|exact Hunit]].
  transitivity (length (map fst (results d)));
    [symmetry; apply length_map|rewrite Hfst; reflexivity].
Defined.

(** ** models.py and the registries *)

(** X15.  [get_model] knows exactly the model names of
    [MODEL_FILENAME_MAP].  For any other name it raises a ValueError listing
    the five names and creates nothing.  For a registered name it returns a
    new object (the next identity) of the registered architecture, on the
    CPU, in training mode and without weights, unless the constructor of the
    backbone fails; only the EfficientFormer takes the image size. *)
Theorem get_model_outcomes (env : Env) (model_name : string) (ncls : Z)
    (drop : Q) (img_size : Z) (st : state) :
  (dict_mem MODEL_FILENAME_MAP model_name = false ->
   get_model env model_name ncls drop img_size st =
     (st, Raise (mkExn ValueError
                   ("Model '" ++ model_name ++
                    "' not supported. Available: ['densenet121', 'efficientnet-b2', 'regnety-800mf', 'efficientformerv2-s2', 'mobilevit-s']")))) /\
  (dict_mem MODEL_FILENAME_MAP model_name = true ->
   exists a,
     dict_get models_dict model_name = Some a /\
     get_model env model_name ncls drop img_size st =
       match nn_construct env a with
       | Some e => (st, Raise e)
       | None =>
         (mkState (self st) (S (next_obj st)) (storage_log st),
          Ok (mkModule (next_obj st) a ncls drop
                (match a with
                 | EfficientFormerV2S2MultiLabel => Some img_size
                 | _ => None
                 end) None "cpu" true))
       end).
Proof.
  unfold get_model, bind, raise, lift, ret, of_failure, fresh_obj, dict_index.
  rewrite models_dict_mem. split.
  - intros ->. reflexivity.
  - intros Hm. rewrite Hm. cbn [negb].
    pose proof Hm as Hd. rewrite <- models_dict_mem in Hd.
    apply dict_mem_get in Hd as [a Ha]. exists a. rewrite Ha.
    split; [reflexivity|].
    destruct (nn_construct env a); reflexivity.
Qed.

Lemma compatible_models_table model_name config :
  match dict_get COMPATIBLE_MODELS_BY_CONFIG config with
  | Some models => list_mem model_name models
  | None => false
  end
  = match check_compatibility model_name config with
    | Ok b => b
    | Raise _ => false
    end.
Proof.
  unfold check_compatibility, dict_index, dict_mem, list_mem,
    COMPATIBLE_MODELS_BY_CONFIG, MODEL_CONFIG_COMPATIBILITY.
  cbn [dict_get existsb].
  repeat match goal with
         | |- context [String.eqb config ?k] =>
           destruct (String.eqb_spec config k) as [->|?]
         end;
  cbn;
  repeat match goal with
         | |- context [String.eqb model_name ?k] =>
           destruct (String.eqb_spec model_name k) as [->|?]
         end;
  cbn;
  repeat match goal with
         | H : ?x <> ?k |- context [String.eqb ?x ?k] =>
           rewrite (proj2 (String.eqb_neq x k) H)
         end;
  reflexivity.
Qed.

(** X16.  The per-config model lists that the [/compatibility] endpoint
    reports are the compatibility mapping read the other way round: a model
    is listed under a config exactly when [check_compatibility] accepts the
    pair. *)
Theorem compatibility_descriptions_match (model_name config : string) :
  (exists models,
     dict_get COMPATIBLE_MODELS_BY_CONFIG config = Some models /\
     In model_name models) <->
  check_compatibility model_name config = Ok true.
Proof.
  pose proof (compatible_models_table model_name config) as Htab.
  destruct (check_compatibility_total model_name config) as [b Hb].
  rewrite Hb in *. split.
  - intros (models & Hget & Hin). rewrite Hget in Htab.
    apply list_mem_In in Hin. congruence.
  - intros [= ->].
    destruct (dict_get COMPATIBLE_MODELS_BY_CONFIG config) as [models|];
      [|discriminate].
    exists models. split; [reflexivity|]. apply list_mem_In. exact Htab.
Qed.

(** ** Introspection: get_available_models and implementation_status *)

















(** ** The /predict endpoint *)

Lemma load_model_ok_cached env model_name config st st1 model :
  load_model env model_name config st = (st1, Ok model) ->
  loaded_models (self st1) !! cache_key model_name config = Some model.
Proof.
  intros Hload. pose proof (load_model_effect env model_name config st) as Heff.
  rewrite Hload in Heff. cbn [fst snd] in Heff.
  destruct Heff as [md Hhit -> Hr | msg _ _ _ Hr | f e' rd _ _ _ q _ _ Hr
                    | f cfg' a read _ _ _ _ _ q _ _ -> Hr];
    try discriminate.
  - congruence.
  - injection Hr as ->. unfold state_loaded. cbn. apply lookup_insert_eq.
Qed.

Lemma predict_endpoint_valid env MODELS_DIR file model config inference_engine :
  valid_pair model config -> not_an_image file = false ->
  predict_endpoint env MODELS_DIR file model config inference_engine =
    match predict env (ImageBytes (file_content file)) model config DISEASES
            (get_inference_engine env MODELS_DIR inference_engine) with
    | (engine', Ok result) => (Some engine', PredictionResponse result)
    | (engine', Raise e) => (Some engine', internal_server_error e model config)
    end.
Proof. intros (Hm & Hc & Hk) Himg. unfold predict_endpoint. rewrite Hm, Hc, Hk, Himg. reflexivity. Qed.



(** X20.  At the endpoint a missing weight file and a weight file that does
    not fit part ways.  For a valid request whose pair is not cached, a
    missing file gives status 200 with success = false, processing time 0.0
    and the "Model file not found" message; an exception of [load_model]
    that is neither a ValueError nor a FileNotFoundError gives status 500
    with "Internal server error: " before its text.  In both cases the cache
    is as before. *)
Theorem endpoint_missing_and_unfit_weights (env : Env) (MODELS_DIR : Path)
    (file : upload_file) (model config filename : string)
    (inference_engine : option state) :
  let engine := get_inference_engine env MODELS_DIR inference_engine in
  let p := path_div (path_div (models_dir (self engine)) config) filename in
  valid_pair model config -> not_an_image file = false ->
  dict_get MODEL_FILENAME_MAP model = Some filename ->
  loaded_models (self engine) !! cache_key model config = None ->
  (path_exists env p = false ->
   exists cfg,
     dict_get CONFIG_SETTINGS config = Some cfg /\
     predict_endpoint env MODELS_DIR file model config inference_engine =
       (Some (log_append engine [EvExists p]),
        PredictionResponse
          (mkPrediction false
             (Some ("Model file not found: " ++ path_str p ++ nl ++
                    "Please ensure the model is trained and saved in the correct location."))
             [] 0 model config (cfg_image_size cfg) (device (self engine))))) /\
  (forall engine' e,
     load_model env model config engine = (engine', Raise e) ->
     exn_cls e <> ValueError -> exn_cls e <> FileNotFoundError ->
     self engine' = self engine /\
     predict_endpoint env MODELS_DIR file model config inference_engine =
       (Some engine', internal_server_error e model config)).
Proof.
  intros engine p Hvalid Himg Hfile Hmiss.
  pose proof (predict_endpoint_valid env MODELS_DIR file model config
                inference_engine Hvalid Himg) as Hrun.
  fold engine in Hrun.
  destruct (valid_pair_data _ _ Hvalid) as (f & cfg & a & Hf & Hcfg & Ha).
  assert (f = filename) as -> by congruence.
  pose proof Hvalid as (_ & _ & Hcompat).
  split.
  - intros Hno. exists cfg. split; [exact Hcfg|]. rewrite Hrun.
    unfold predict, bind, get_self, try_.
    rewrite (load_model_fresh env _ _ _ _ _ _ Hmiss Hf Hcfg Ha Hcompat).
    unfold weights_path. fold p. rewrite Hno. cbn [negb except_matches].
    rewrite Hcfg. reflexivity.
  - intros engine' e Hload Hnv Hnf. split.
    + pose proof (load_model_effect env model config engine) as Heff.
      rewrite Hload in Heff. cbn [fst snd] in Heff.
      destruct Heff as [md _ -> _ | msg _ _ -> _ | f' e' rd _ _ _ q Hself _ _
                        | f' cfg' a' read _ _ _ _ _ q _ _ _ Hr];
        auto; discriminate.
    + rewrite Hrun. unfold predict, bind, get_self, try_, lift. rewrite Hload.
      assert (except_matches [ValueError; FileNotFoundError] e = false) as ->.
      { unfold except_matches. destruct e as [[] msg]; cbn in *; congruence. }
      reflexivity.
Qed.

Lemma endpoint_missing_and_unfit_weights_witness :
  (exists d,
     snd (predict_endpoint env_no_weights ["models"] png_upload
            "densenet121" "config1" None) = PredictionResponse d /\
     success d = false /\ processing_time d = 0%Q) /\
  snd (predict_endpoint env_mismatch ["models"] png_upload
         "densenet121" "config1" None)
  = internal_server_error
      (mkExn RuntimeError
         "Error(s) in loading state_dict for DenseNet121MultiLabel: size mismatch for classifier.weight")
      "densenet121" "config1".
Proof.
  assert (Hvalid : valid_pair "densenet121" "config1") by (repeat split).
  split.
  - destruct (endpoint_missing_and_unfit_weights env_no_weights ["models"]
                png_upload "densenet121" "config1" "densenet121.pth" None
                Hvalid eq_refl eq_refl eq_refl) as (Hmissing & _).
    destruct (Hmissing eq_refl) as (cfg & _ & Hanswer).
    rewrite Hanswer. eexists. split; [reflexivity|]. split; reflexivity.
  - destruct (endpoint_missing_and_unfit_weights env_mismatch ["models"]
                png_upload "densenet121" "config1" "densenet121.pth" None
                Hvalid eq_refl eq_refl eq_refl) as (_ & Hunfit).
    destruct (Hunfit _ _ ltac:(vm_compute; reflexivity)
                ltac:(discriminate) ltac:(discriminate)) as (_ & Hanswer).
    rewrite Hanswer. reflexivity.
Defined.

(** X21.  Once a request has been answered with a successful prediction, a
    later request for the same model and config, with no cache clearing in
    between, leaves the engine exactly as it finds it: the model comes from
    the cache, no storage is touched and no object is created, whatever the
    upload and whatever has happened to the weight file. *)
Theorem second_request_uses_cache (env1 env2 : Env) (MODELS_DIR : Path)
    (file1 file2 : upload_file) (model config : string)
    (inference_engine : option state) (engine1 : state) (d : prediction)
    (calls : list call) :
  predict_endpoint env1 MODELS_DIR file1 model config inference_engine
  = (Some engine1, PredictionResponse d) ->
  success d = true ->
  forallb (fun c => negb (is_clear c)) calls = true ->
  let engine2 := run calls engine1 in
  fst (predict_endpoint env2 MODELS_DIR file2 model config (Some engine2))
  = Some engine2 /\
  forall status detail,
    snd (predict_endpoint env2 MODELS_DIR file2 model config (Some engine2))
    = HTTPException status detail ->
    not_an_image file2 = true.
Proof.
  intros Hfirst Hok Hnc engine2.
  unfold predict_endpoint in Hfirst.
  destruct (dict_mem CONFIG_SETTINGS config) eqn:Hc; cbn [negb] in Hfirst;
    [|discriminate].
  destruct (dict_mem MODEL_FILENAME_MAP model) eqn:Hm; cbn [negb] in Hfirst;
    [|discriminate].
  destruct (check_compatibility model config) as [[|]|e] eqn:Hcompat;
    cbn [negb] in Hfirst; try discriminate.
  destruct (not_an_image file1); [discriminate|].
  destruct (predict env1 _ model config DISEASES _) as [st1 [d1|e]] eqn:Hpred;
    [|discriminate].
  injection Hfirst as <- <-.
  destruct (predict_success_inversion _ _ _ _ _ _ _ _ Hpred Hok)
    as (cfg & md & t & logits & Hload & _).
  pose proof (load_model_ok_cached _ _ _ _ _ _ Hload) as Hhit.
  assert (Hvalid : valid_pair model config) by (repeat split; assumption).
  apply dict_mem_get in Hm as [f Hf].
  destruct (run_kept model config f md Hf calls st1 Hnc Hhit) as (Hhit2 & _ & _).
  fold engine2 in Hhit2.
  unfold predict_endpoint. rewrite Hc. cbn [negb].
  assert (Hm : dict_mem MODEL_FILENAME_MAP model = true)
    by (apply dict_mem_get; eauto).
  rewrite Hm, Hcompat. cbn [negb get_inference_engine].
  destruct (not_an_image file2) eqn:Himg.
  - split; [reflexivity|]. auto.
  - pose proof (predict_state env2 (ImageBytes (file_content file2)) model config
                  DISEASES engine2) as Hst.
    rewrite (load_model_cached env2 _ _ _ _ Hhit2) in Hst. cbn [fst] in Hst.
    destruct (predict env2 _ model config DISEASES engine2) as [st2 [d2|e]];
      cbn [fst snd] in *; subst st2; (split; [reflexivity|]);
      intros status detail Hresp; discriminate.
Qed.

Lemma second_request_uses_cache_witness :
  exists engine1 d,
    predict_endpoint env_sample ["models"] png_upload "densenet121" "config1" None
    = (Some engine1, PredictionResponse d) /\
    success d = true /\
    fst (predict_endpoint env_no_weights ["models"] png_upload
           "densenet121" "config1" (Some (run calls_after_load engine1)))
    = Some (run calls_after_load engine1).
Proof.
  assert (Hfirst : exists engine1 d,
            predict_endpoint env_sample ["models"] png_upload
              "densenet121" "config1" None
            = (Some engine1, PredictionResponse d) /\ success d = true).
  { eexists. eexists.
    rewrite predict_endpoint_valid; [|repeat split|reflexivity].
    run_predict. split; reflexivity. }
  destruct Hfirst as (engine1 & d & Hfirst & Hok).
  exists engine1, d. split; [exact Hfirst|]. split; [exact Hok|].
  exact (proj1 (second_request_uses_cache env_sample env_no_weights ["models"]
                  png_upload png_upload "densenet121" "config1" None engine1 d
                  calls_after_load Hfirst Hok eq_refl)).
Defined.

(** ** How large the cache can get *)

Lemma dict_get_In {V} (d : list (string * V)) k v :
  dict_get d k = Some v -> In (k, v) d.
Proof.
  induction d as [|[k' v'] d IH]; cbn; [discriminate|].
  destruct (String.eqb_spec k k') as [->|_].
  - intros [= ->]. auto.
  - auto.
Qed.

Lemma valid_pair_key_listed model_name config :
  valid_pair model_name config -> In (cache_key model_name config) compatible_keys.
Proof.
  intros (_ & _ & Hcompat). revert Hcompat.
  unfold check_compatibility, dict_index, dict_mem.
  destruct (dict_get MODEL_CONFIG_COMPATIBILITY model_name) as [configs|] eqn:Hget;
    cbn [negb]; [|discriminate].
  intros [= Hmem]. apply list_mem_In in Hmem. apply dict_get_In in Hget.
  unfold compatible_keys. apply in_flat_map.
  exists (model_name, configs). split; [exact Hget|].
  cbn [fst snd]. apply in_map. exact Hmem.
Qed.

(** X22.  The cache of a reachable engine never holds more than thirteen
    models: its keys are among the keys of the thirteen pairs the
    compatibility mapping allows. *)
Theorem cache_holds_at_most_thirteen (st : state) :
  reachable st ->
  (forall k, is_Some (loaded_models (self st) !! k) -> In k compatible_keys) /\
  length compatible_keys = 13%nat /\
  (size (loaded_models (self st)) <= 13)%nat.
Proof.
  intros Hreach. pose proof (reachable_cache_valid st Hreach) as Hinv.
  assert (Hkeys : forall k, is_Some (loaded_models (self st) !! k) ->
                            In k compatible_keys).
  { intros k [md Hk]. destruct (Hinv k md Hk) as (m & c & -> & Hvalid).
    apply valid_pair_key_listed, Hvalid. }
  split; [exact Hkeys|]. split; [reflexivity|].
  rewrite <- size_dom.
  transitivity (size (list_to_set compatible_keys : gset string)).
  - apply subseteq_size. intros k Hk.
    apply elem_of_dom in Hk. apply elem_of_list_to_set, list_elem_of_In.
    apply Hkeys, Hk.
  - rewrite size_list_to_set; [reflexivity|].
    apply (bool_decide_unpack (NoDup compatible_keys)). vm_compute. reflexivity.
Qed.

Lemma cache_holds_at_most_thirteen_witness :
  reachable st_loaded /\ (size (loaded_models (self st_loaded)) <= 13)%nat.
Proof.
  assert (Hreach : reachable st_loaded) by loaded_is_reachable.
  split; [exact Hreach|].
  exact (proj2 (proj2 (cache_holds_at_most_thirteen st_loaded Hreach))).
Defined.
